(** * MCP tool adapter: connection registry, retry loops, error classifier,
      configuration loader

    Shallow embedding of [src/agent-runtime/mcp-tool-adapter.ts].

    - JavaScript strings are [string]s of 8-bit characters; the line
      separators U+2028 and U+2029 are outside the model.
    - JavaScript numbers are IEEE doubles. The two delays and the
      multiplier of a retry configuration are taken as integers ([Z]), and
      the products the loops form are exact integer products: this is what
      the code computes as long as the numbers are whole and no product
      goes beyond 2^53 ([exact_policy] gives a condition for that).
      Fractional delays or multipliers, and the rounding of larger
      products, are outside the model. [maxRetries] is a count of retries
      ([nat]), the loops run [attempt = 0 .. maxRetries].
    - The MCP SDK client (handshake, tool call, tool listing, close) is an
      external collaborator: its replies come from an oracle indexed by the
      number of SDK interactions made so far, so that a run is a function
      of the oracle. Every interaction, every entry into [connect] and
      [callTool] and every sleep is appended to a trace, which is how call
      counts and sleep sequences are stated.
    - [async] methods run to completion one after the other; a rejected
      promise is the [Throws] outcome of the adapter monad, and what was
      written to the registry before the rejection stays written.
    - [loadMCPConfig] starts from the parsed document; reading the file and
      [JSON.parse] are not modelled. An object that is iterated is the list
      of entries [Object.entries] gives for it: distinct keys, in iteration
      order. [process.env] is a partial function on names, the variables
      that are set, together with what a property read finds behind them
      on the prototype chain. *)

From Stdlib Require Import String Ascii List ZArith Lia Bool Arith.
From Stdlib Require Import DecimalString.
From Equations Require Import Equations.
Import ListNotations.
Local Open Scope string_scope.

(* ===================================================================== *)
(** ** Strings and the two regular-expression shapes the adapter uses *)
(* ===================================================================== *)

Module JsString.

(** ASCII upper-casing, the canonicalisation behind the [i] flag. *)
Definition to_upper (c : ascii) : ascii :=
  let n := nat_of_ascii c in
  if ((97 <=? n) && (n <=? 122))%nat then ascii_of_nat (n - 32) else c.

Fixpoint upcase (s : string) : string :=
  match s with
  | EmptyString => EmptyString
  | String c s' => String (to_upper c) (upcase s')
  end.

Definition eqb_ci (c d : ascii) : bool := Ascii.eqb (to_upper c) (to_upper d).

(** [starts_with_ci w s]: the literal [w] matches at the start of [s],
    ignoring case. *)
Fixpoint starts_with_ci (w s : string) : bool :=
  match w, s with
  | EmptyString, _ => true
  | String _ _, EmptyString => false
  | String a w', String b s' => eqb_ci a b && starts_with_ci w' s'
  end.

Fixpoint drop (n : nat) (s : string) : string :=
  match n, s with
  | O, _ => s
  | S _, EmptyString => EmptyString
  | S n', String _ s' => drop n' s'
  end.

(** The characters [.] does not match: line feed and carriage return. *)
Definition is_line_terminator (c : ascii) : bool :=
  Ascii.eqb c "010"%char || Ascii.eqb c "013"%char.

Fixpoint one_line (s : string) : bool :=
  match s with
  | EmptyString => true
  | String c s' => negb (is_line_terminator c) && one_line s'
  end.

(** Plain (case-sensitive) substring test, [String.prototype.includes]. *)
Fixpoint starts_with (w s : string) : bool :=
  match w, s with
  | EmptyString, _ => true
  | String _ _, EmptyString => false
  | String a w', String b s' => Ascii.eqb a b && starts_with w' s'
  end.

Fixpoint includes (w s : string) : bool :=
  starts_with w s ||
  match s with
  | EmptyString => false
  | String _ s' => includes w s'
  end.

(** No character of [w] is [b], ignoring case. *)
Fixpoint avoids (b : ascii) (w : string) : bool :=
  match w with
  | EmptyString => true
  | String c w' => negb (eqb_ci c b) && avoids b w'
  end.

(** Decimal rendering of a count, as a template literal prints it. *)
Definition of_nat (n : nat) : string := NilZero.string_of_uint (Nat.to_uint n).

End JsString.

Module RegExp.
Import JsString.

(** [/w/i] and [/w1.*w2/i]. *)
Inductive t : Type :=
| Lit (w : string)
| LitAnyLit (w1 w2 : string).

(** [.*w] at the start of [s]. *)
Fixpoint any_then (w s : string) : bool :=
  starts_with_ci w s ||
  match s with
  | EmptyString => false
  | String c s' => negb (is_line_terminator c) && any_then w s'
  end.

Definition match_at (r : t) (s : string) : bool :=
  match r with
  | Lit w => starts_with_ci w s
  | LitAnyLit w1 w2 =>
      starts_with_ci w1 s && any_then w2 (drop (String.length w1) s)
  end.

(** [r.test(s)]: a match starting at some position of [s]. *)
Fixpoint test (r : t) (s : string) : bool :=
  match_at r s ||
  match s with
  | EmptyString => false
  | String _ s' => test r s'
  end.

(** The literals of [r] avoid [b], and a [.*] of [r] finds nothing from
    [b] on. *)
Definition clear_of (r : t) (b : ascii) (post : string) : bool :=
  match r with
  | Lit w => avoids b w
  | LitAnyLit w1 w2 =>
      avoids b w1 && avoids b w2 && negb (any_then w2 (String b post))
  end.

End RegExp.

(* ===================================================================== *)
(** ** Error classifier *)
(* ===================================================================== *)

Definition retryablePatterns : list RegExp.t :=
  [ RegExp.Lit "timeout";
    RegExp.LitAnyLit "connection" "refused";
    RegExp.Lit "ECONNRESET";
    RegExp.Lit "ECONNREFUSED";
    RegExp.Lit "ETIMEDOUT";
    RegExp.Lit "network";
    RegExp.Lit "unavailable" ].

(** [isRetryableError(error?: string)]; [!error] holds for [undefined] and
    for the empty string. *)
Definition isRetryableError (error : option string) : bool :=
  match error with
  | None => false
  | Some EmptyString => false
  | Some e => existsb (fun pattern => RegExp.test pattern e) retryablePatterns
  end.

(** What "the message matches a word, ignoring case" means, stated on the
    text of the message. *)
Definition same_ci (x y : string) : Prop := JsString.upcase x = JsString.upcase y.

Definition mentions (w msg : string) : Prop :=
  exists pre x post, msg = pre ++ x ++ post /\ same_ci x w.

(** [w1], later on the same line [w2]. *)
Definition mentions_then (w1 w2 msg : string) : Prop :=
  exists pre x mid y post,
    msg = pre ++ x ++ mid ++ y ++ post /\
    same_ci x w1 /\ same_ci y w2 /\ JsString.one_line mid = true.

Definition retryable_text (msg : string) : Prop :=
  mentions "timeout" msg \/
  mentions_then "connection" "refused" msg \/
  mentions "ECONNRESET" msg \/
  mentions "ECONNREFUSED" msg \/
  mentions "ETIMEDOUT" msg \/
  mentions "network" msg \/
  mentions "unavailable" msg.

(* ===================================================================== *)
(** ** Data model *)
(* ===================================================================== *)

(** Opaque JSON values ([unknown] in the source). *)
Definition Json := string.

(** [Map<string, V>] and the entries of a plain object, in iteration
    order: [set] on a present key keeps its position, on an absent key
    appends. *)
Module JsMap.
Section WithValue.
Context {V : Type}.

Fixpoint get (k : string) (m : list (string * V)) : option V :=
  match m with
  | [] => None
  | (k', v) :: m' => if String.eqb k k' then Some v else get k m'
  end.

Definition has (k : string) (m : list (string * V)) : bool :=
  match get k m with Some _ => true | None => false end.

Fixpoint set (k : string) (v : V) (m : list (string * V)) : list (string * V) :=
  match m with
  | [] => [(k, v)]
  | (k', v') :: m' =>
      if String.eqb k k' then (k, v) :: m' else (k', v') :: set k v m'
  end.

Fixpoint delete (k : string) (m : list (string * V)) : list (string * V) :=
  match m with
  | [] => []
  | (k', v') :: m' =>
      if String.eqb k k' then delete k m' else (k', v') :: delete k m'
  end.

Definition keys (m : list (string * V)) : list string := map fst m.

End WithValue.
End JsMap.

Record MCPServerConfig : Type := {
  name : string;
  command : string;
  args : list string;
  env : option (list (string * string))
}.

Record MCPToolResult : Type := {
  success : bool;
  data : option Json;
  error : option string
}.

Record MCPToolDefinition : Type := {
  tool_name : string;
  description : option string;
  inputSchema : option Json
}.

(** [client] stands for the SDK client and its transport: the index of the
    handshake that created them. *)
Record ConnectionState : Type := {
  client : nat;
  config : MCPServerConfig;
  connected : bool;
  lastActivity : Z;
  retryCount : Z
}.

(** The delays and the multiplier are whole numbers here; the source has
    doubles, which agree with them while every product is a whole number of
    at most 2^53 ([exact_policy] below). *)
Record RetryConfig : Type := {
  maxRetries : nat;
  initialDelayMs : Z;
  maxDelayMs : Z;
  backoffMultiplier : Z
}.

Record PartialRetryConfig : Type := {
  maxRetries_opt : option nat;
  initialDelayMs_opt : option Z;
  maxDelayMs_opt : option Z;
  backoffMultiplier_opt : option Z
}.

Definition DEFAULT_RETRY_CONFIG : RetryConfig :=
  {| maxRetries := 3;
     initialDelayMs := 1000;
     maxDelayMs := 30000;
     backoffMultiplier := 2 |}.

(** One server entry of the configuration file. *)
Record MCPConfigEntry : Type := {
  entry_command : string;
  entry_args : list string;
  entry_env : option (list (string * string));
  disabled : option bool;
  entry_description : option string
}.

Record JsError : Type := { message : string }.

(* ===================================================================== *)
(** ** The SDK as an oracle, and the trace of what the adapter did *)
(* ===================================================================== *)

Inductive Settled (A : Type) : Type :=
| Resolves (value : A)
| Rejects (reason : JsError).
Arguments Resolves {A} value.
Arguments Rejects {A} reason.

(** Replies of the SDK client, by the index of the interaction. *)
Record Sdk : Type := {
  on_connect : nat -> Settled unit;
  on_close : nat -> Settled unit;
  on_callTool : nat -> Settled Json;
  on_listTools : nat -> Settled (list MCPToolDefinition)
}.

Inductive Event : Type :=
| EvConnect (server : string)                       (* [this.connect] entered *)
| EvHandshake (server : string) (r : Settled unit)  (* [client.connect(transport)] *)
| EvClose (server : string) (r : Settled unit)      (* [client.close()] *)
| EvInvoke (server tool : string)                   (* [this.callTool] entered *)
| EvToolCall (server tool : string) (r : Settled Json)  (* [client.callTool] *)
| EvListTools (server : string)                     (* [client.listTools()] *)
| EvSleep (ms : Z).                                 (* [this.sleep(ms)] *)

Record MCPToolAdapter : Type := {
  connections : list (string * ConnectionState);
  retryConfig : RetryConfig;
  sdk : Sdk;
  ticks : nat;
  clock : Z;
  trace : list Event
}.

Definition with_connections (m : list (string * ConnectionState))
    (a : MCPToolAdapter) : MCPToolAdapter :=
  {| connections := m; retryConfig := retryConfig a; sdk := sdk a;
     ticks := ticks a; clock := clock a; trace := trace a |}.

Definition with_trace (t : list Event) (a : MCPToolAdapter) : MCPToolAdapter :=
  {| connections := connections a; retryConfig := retryConfig a; sdk := sdk a;
     ticks := ticks a; clock := clock a; trace := t |}.

Definition with_ticks (n : nat) (a : MCPToolAdapter) : MCPToolAdapter :=
  {| connections := connections a; retryConfig := retryConfig a; sdk := sdk a;
     ticks := n; clock := clock a; trace := trace a |}.

Definition with_clock (t : Z) (a : MCPToolAdapter) : MCPToolAdapter :=
  {| connections := connections a; retryConfig := retryConfig a; sdk := sdk a;
     ticks := ticks a; clock := t; trace := trace a |}.

(** [constructor(retryConfig = {})]: defaults overridden field by field. *)
Definition constructor (world : Sdk) (partial : PartialRetryConfig) : MCPToolAdapter :=
  {| connections := [];
     retryConfig :=
       {| maxRetries :=
            match maxRetries_opt partial with
            | Some v => v | None => maxRetries DEFAULT_RETRY_CONFIG end;
          initialDelayMs :=
            match initialDelayMs_opt partial with
            | Some v => v | None => initialDelayMs DEFAULT_RETRY_CONFIG end;
          maxDelayMs :=
            match maxDelayMs_opt partial with
            | Some v => v | None => maxDelayMs DEFAULT_RETRY_CONFIG end;
          backoffMultiplier :=
            match backoffMultiplier_opt partial with
            | Some v => v | None => backoffMultiplier DEFAULT_RETRY_CONFIG end |};
     sdk := world;
     ticks := 0;
     clock := 0;
     trace := [] |}.

(* ===================================================================== *)
(** ** The adapter monad: state, and exceptions that keep the state *)
(* ===================================================================== *)

Inductive Completion (A : Type) : Type :=
| Returns (value : A)
| Throws (e : JsError).
Arguments Returns {A} value.
Arguments Throws {A} e.

Definition M (A : Type) : Type := MCPToolAdapter -> Completion A * MCPToolAdapter.

Definition ret {A} (x : A) : M A := fun a => (Returns x, a).

Definition throw {A} (e : JsError) : M A := fun a => (Throws e, a).

Definition bind {A B} (m : M A) (k : A -> M B) : M B :=
  fun a =>
    match m a with
    | (Returns x, a') => k x a'
    | (Throws e, a') => (Throws e, a')
    end.

Definition try_catch {A} (m : M A) (handler : JsError -> M A) : M A :=
  fun a =>
    match m a with
    | (Returns x, a') => (Returns x, a')
    | (Throws e, a') => handler e a'
    end.

Declare Scope adapter_scope.
Delimit Scope adapter_scope with adapter.
Notation "x <- m ;; k" := (bind m (fun x => k))
  (at level 61, m at next level, right associativity) : adapter_scope.
Notation "m ;; k" := (bind m (fun _ => k))
  (at level 61, right associativity) : adapter_scope.
Local Open Scope adapter_scope.

Definition this : M MCPToolAdapter := fun a => (Returns a, a).

Definition emit (ev : Event) : M unit :=
  fun a => (Returns tt, with_trace (trace a ++ [ev]) a).

Definition new_Date : M Z := fun a => (Returns (clock a), a).

Definition put_connections (m : list (string * ConnectionState)) : M unit :=
  fun a => (Returns tt, with_connections m a).

(** Field assignment on the connection object held under [serverName]. *)
Definition assign (serverName : string) (f : ConnectionState -> ConnectionState) : M unit :=
  fun a =>
    match JsMap.get serverName (connections a) with
    | Some c => (Returns tt, with_connections (JsMap.set serverName (f c) (connections a)) a)
    | None => (Returns tt, a)
    end.

Definition set_lastActivity (now : Z) (c : ConnectionState) : ConnectionState :=
  {| client := client c; config := config c; connected := connected c;
     lastActivity := now; retryCount := retryCount c |}.

Definition set_retryCount (n : Z) (c : ConnectionState) : ConnectionState :=
  {| client := client c; config := config c; connected := connected c;
     lastActivity := lastActivity c; retryCount := n |}.

(** One interaction with the SDK: read the oracle at the current index,
    advance the index. *)
Definition ask {A} (reply : Sdk -> nat -> Settled A) : M (nat * Settled A) :=
  fun a => (Returns (ticks a, reply (sdk a) (ticks a)), with_ticks (S (ticks a)) a).

(** [sleep(ms)]: the clock moves on by the timer's delay. *)
Definition sleep (ms : Z) : M unit :=
  fun a => (Returns tt, with_clock (clock a + Z.max 0 ms)
                          (with_trace (trace a ++ [EvSleep ms]) a)).

(* ===================================================================== *)
(** ** Adapter operations *)
(* ===================================================================== *)

(** [disconnect(serverName)]: close errors are ignored, the entry goes. *)
Definition disconnect (serverName : string) : M unit :=
  a <- this ;;
  match JsMap.get serverName (connections a) with
  | Some connection =>
      r <- ask on_close ;;
      emit (EvClose serverName (snd r)) ;;
      a' <- this ;;
      put_connections (JsMap.delete serverName (connections a'))
  | None => ret tt
  end.

(** The part of [connect] after the early return: new transport and
    client, handshake, registration. *)
Definition establish (config : MCPServerConfig) : M unit :=
  r <- ask on_connect ;;
  emit (EvHandshake (name config) (snd r)) ;;
  match snd r with
  | Rejects e => throw e
  | Resolves _ =>
      now <- new_Date ;;
      a <- this ;;
      put_connections
        (JsMap.set (name config)
           {| client := fst r;
              config := config;
              connected := true;
              lastActivity := now;
              retryCount := 0 |}
           (connections a))
  end.

Definition connect (config : MCPServerConfig) : M unit :=
  emit (EvConnect (name config)) ;;
  a <- this ;;
  match JsMap.get (name config) (connections a) with
  | Some existing =>
      if connected existing then ret tt
      else disconnect (name config) ;; establish config
  | None => establish config
  end.

Definition undefined_or (s : option string) : string :=
  match s with Some m => m | None => "undefined" end.

(** The [for] loop of [connectWithRetry]; [remaining] is the number of
    iterations left, [maxRetries + 1 - attempt]. *)
Fixpoint connectWithRetry_loop (config : MCPServerConfig)
    (remaining attempt : nat) (delay : Z) (lastError : option JsError) : M unit :=
  match remaining with
  | O =>
      a <- this ;;
      throw {| message :=
        "Failed to connect to " ++ name config ++ " after " ++
        JsString.of_nat (maxRetries (retryConfig a) + 1) ++ " attempts: " ++
        undefined_or (option_map message lastError) |}
  | S remaining' =>
      try_catch (connect config)
        (fun error =>
           a <- this ;;
           if (attempt <? maxRetries (retryConfig a))%nat then
             sleep delay ;;
             connectWithRetry_loop config remaining' (S attempt)
               (Z.min (delay * backoffMultiplier (retryConfig a))
                      (maxDelayMs (retryConfig a)))
               (Some error)
           else
             connectWithRetry_loop config remaining' (S attempt) delay (Some error))
  end.

Definition connectWithRetry (config : MCPServerConfig) : M unit :=
  a <- this ;;
  connectWithRetry_loop config (S (maxRetries (retryConfig a))) 0
    (initialDelayMs (retryConfig a)) None.

Definition failure (msg : string) : MCPToolResult :=
  {| success := false; data := None; error := Some msg |}.

Definition callTool (serverName toolName : string) (arguments : Json) : M MCPToolResult :=
  emit (EvInvoke serverName toolName) ;;
  a <- this ;;
  match JsMap.get serverName (connections a) with
  | None => ret (failure ("Server " ++ serverName ++ " not connected"))
  | Some connection =>
      if negb (connected connection) then
        ret (failure ("Server " ++ serverName ++ " is disconnected"))
      else
        now <- new_Date ;;
        assign serverName (set_lastActivity now) ;;
        r <- ask on_callTool ;;
        emit (EvToolCall serverName toolName (snd r)) ;;
        match snd r with
        | Resolves result =>
            assign serverName (set_retryCount 0) ;;
            ret {| success := true; data := Some result; error := None |}
        | Rejects e => ret (failure (message e))
        end
  end.

(** "Try to reconnect if connection was lost": the block of
    [callToolWithRetry] between the retryable check and the sleep;
    reconnection errors are ignored. *)
Definition reconnect_if_lost (serverName : string) : M unit :=
  a <- this ;;
  match JsMap.get serverName (connections a) with
  | Some connection =>
      if negb (connected connection)
      then try_catch (connect (config connection)) (fun _ => ret tt)
      else ret tt
  | None => ret tt
  end.

(** The [for] loop of [callToolWithRetry]. *)
Fixpoint callToolWithRetry_loop (serverName toolName : string) (arguments : Json)
    (remaining attempt : nat) (delay : Z) (lastError : option string)
    : M MCPToolResult :=
  match remaining with
  | O =>
      a <- this ;;
      ret (failure ("Failed after " ++
                    JsString.of_nat (maxRetries (retryConfig a) + 1) ++
                    " attempts: " ++ undefined_or lastError))
  | S remaining' =>
      result <- callTool serverName toolName arguments ;;
      if success result then ret result
      else if negb (isRetryableError (error result)) then ret result
      else
        reconnect_if_lost serverName ;;
        a <- this ;;
        if (attempt <? maxRetries (retryConfig a))%nat then
          sleep delay ;;
          callToolWithRetry_loop serverName toolName arguments remaining' (S attempt)
            (Z.min (delay * backoffMultiplier (retryConfig a))
                   (maxDelayMs (retryConfig a)))
            (error result)
        else
          callToolWithRetry_loop serverName toolName arguments remaining' (S attempt)
            delay (error result)
  end.

Definition callToolWithRetry (serverName toolName : string) (arguments : Json)
    : M MCPToolResult :=
  a <- this ;;
  callToolWithRetry_loop serverName toolName arguments
    (S (maxRetries (retryConfig a))) 0 (initialDelayMs (retryConfig a)) None.

Definition listTools (serverName : string) : M (list MCPToolDefinition) :=
  a <- this ;;
  match JsMap.get serverName (connections a) with
  | None => ret []
  | Some connection =>
      if negb (connected connection) then ret []
      else
        now <- new_Date ;;
        assign serverName (set_lastActivity now) ;;
        r <- ask on_listTools ;;
        emit (EvListTools serverName) ;;
        match snd r with
        | Resolves tools =>
            ret (map (fun tool =>
                        {| tool_name := tool_name tool;
                           description := description tool;
                           inputSchema := inputSchema tool |}) tools)
        | Rejects _ => ret []
        end
  end.

Fixpoint listAllTools_loop (serverNames : list string)
    (allTools : list (string * list MCPToolDefinition))
    : M (list (string * list MCPToolDefinition)) :=
  match serverNames with
  | [] => ret allTools
  | serverName :: rest =>
      tools <- listTools serverName ;;
      listAllTools_loop rest (JsMap.set serverName tools allTools)
  end.

Definition listAllTools : M (list (string * list MCPToolDefinition)) :=
  a <- this ;;
  listAllTools_loop (JsMap.keys (connections a)) [].

(** [disconnectAll]: the disconnects of [Promise.all], one after the other
    in key order. *)
Fixpoint disconnect_each (serverNames : list string) : M unit :=
  match serverNames with
  | [] => ret tt
  | serverName :: rest => disconnect serverName ;; disconnect_each rest
  end.

Definition disconnectAll : M unit :=
  a <- this ;;
  disconnect_each (JsMap.keys (connections a)).

Definition isConnected (a : MCPToolAdapter) (serverName : string) : bool :=
  match JsMap.get serverName (connections a) with
  | Some connection => connected connection
  | None => false
  end.

Definition getConnectedServers (a : MCPToolAdapter) : list string :=
  map fst (filter (fun entry => connected (snd entry)) (connections a)).

Definition getConnectionStats (a : MCPToolAdapter) : list (string * (bool * Z * Z)) :=
  fold_left
    (fun stats entry =>
       JsMap.set (fst entry)
         (connected (snd entry), lastActivity (snd entry), retryCount (snd entry))
         stats)
    (connections a) [].

(* ===================================================================== *)
(** ** Configuration loader *)
(* ===================================================================== *)

Module Placeholder.

(** [[^}]*] followed by the closing brace: the text before the first
    closing brace, and the text after it. *)
Fixpoint until_brace (s : string) : option (string * string) :=
  match s with
  | EmptyString => None
  | String c s' =>
      if Ascii.eqb c "}"%char then Some (EmptyString, s')
      else match until_brace s' with
           | Some (varName, rest) => Some (String c varName, rest)
           | None => None
           end
  end.

(** A match of [/\$\{([^}]+)\}/] at the start of [s]: the captured name
    and the text after the match. *)
Definition match_here (s : string) : option (string * string) :=
  match s with
  | String c1 (String c2 t) =>
      if Ascii.eqb c1 "$"%char && Ascii.eqb c2 "{"%char then
        match until_brace t with
        | Some (String c varName, rest) => Some (String c varName, rest)
        | _ => None
        end
      else None
  | _ => None
  end.

Lemma until_brace_shorter (s varName rest : string) :
  until_brace s = Some (varName, rest) ->
  (String.length rest < String.length s)%nat.
Proof.
  revert varName rest; induction s as [|c s IH]; intros varName rest; simpl.
  - discriminate.
  - destruct (Ascii.eqb c "}"%char).
    + intros [= _ <-]. lia.
    + destruct (until_brace s) as [[n r]|]; [|discriminate].
      intros [= _ <-]. specialize (IH n r eq_refl). lia.
Qed.

Lemma match_here_shorter (s varName rest : string) :
  match_here s = Some (varName, rest) ->
  (String.length rest < String.length s)%nat.
Proof.
  destruct s as [|c1 [|c2 t]]; simpl; try discriminate.
  destruct (Ascii.eqb c1 "$"%char && Ascii.eqb c2 "{"%char); [|discriminate].
  destruct (until_brace t) as [[[|c n] r]|] eqn:Hn; try discriminate.
  intros [= _ <-]. apply until_brace_shorter in Hn. lia.
Qed.

Definition inspect {A : Type} (x : A) : { y : A | x = y } := exist _ x eq_refl.

(** [s.replace(/\$\{([^}]+)\}/g, (_, varName) => f(varName))]: matches are
    taken left to right, scanning resumes after each match. *)
Equations? replace (f : string -> string) (s : string) : string
  by wf (String.length s) lt :=
  replace f EmptyString := EmptyString;
  replace f (String c s') with inspect (match_here (String c s')) => {
    | exist _ (Some (varName, rest)) found := f varName ++ replace f rest;
    | exist _ None _ := String c (replace f s') }.
Proof.
  exact (match_here_shorter (String c s') varName rest found).
Qed.

End Placeholder.

(** The text of a built-in function, as the engine prints it. *)
Definition native_function (functionName : string) : string :=
  "function " ++ functionName ++ "() { [native code] }".

(** What an object finds on [Object.prototype] under a name it does not
    hold itself, as the text that [String.prototype.replace] makes of the
    value: the methods, the constructor [Object], and under [__proto__]
    the prototype object itself. *)
Definition Object_prototype (property : string) : option string :=
  if String.eqb property "constructor" then Some (native_function "Object")
  else if String.eqb property "__proto__" then Some "[object Object]"
  else if existsb (String.eqb property)
            ["__defineGetter__"; "__defineSetter__"; "hasOwnProperty";
             "__lookupGetter__"; "__lookupSetter__"; "isPrototypeOf";
             "propertyIsEnumerable"; "toString"; "valueOf"; "toLocaleString"]
       then Some (native_function property)
       else None.

(** [process.env[varName] || ''], as text. [processEnv] holds the variables
    of the environment. The read is a plain property read: under a name
    that is not a variable it finds what [process.env] inherits, and
    [inherited] gives that value as text ([Object_prototype] is what
    [Object.prototype], the end of the chain, contributes). A variable set
    to the empty string is falsy and gives the empty string; an inherited
    function or object is never falsy. *)
Definition env_or_empty (processEnv inherited : string -> option string)
    (varName : string) : string :=
  match processEnv varName with
  | Some v => if String.eqb v "" then "" else v
  | None =>
      match inherited varName with
      | Some text => text
      | None => ""
      end
  end.

(** [resolved[key] = value] on the plain object [resolved], for a string
    [value]: the key [__proto__] reaches the setter that [Object.prototype]
    has under that name, which ignores a string and stores nothing; every
    other key becomes a property of [resolved] itself. *)
Definition assign_property (key value : string) (resolved : list (string * string))
    : list (string * string) :=
  if String.eqb key "__proto__" then resolved else JsMap.set key value resolved.

(** The entries such an assignment stores: every key but [__proto__]. *)
Definition stored (entry : string * string) : bool :=
  negb (String.eqb (fst entry) "__proto__").

Definition resolveEnvVariables (processEnv inherited : string -> option string)
    (env : option (list (string * string))) : option (list (string * string)) :=
  match env with
  | None => None
  | Some entries =>
      Some (fold_left
              (fun resolved entry =>
                 assign_property (fst entry)
                   (Placeholder.replace (env_or_empty processEnv inherited) (snd entry))
                   resolved)
              entries [])
  end.

(** [!server.disabled] *)
Definition not_disabled (server : MCPConfigEntry) : bool :=
  match disabled server with
  | Some true => false
  | _ => true
  end.

(** [loadMCPConfig], from the entries of the parsed [mcpServers] object. *)
Definition loadMCPConfig (processEnv inherited : string -> option string)
    (mcpServers : list (string * MCPConfigEntry)) : list MCPServerConfig :=
  map (fun entry =>
         {| name := fst entry;
            command := entry_command (snd entry);
            args := entry_args (snd entry);
            env := resolveEnvVariables processEnv inherited (entry_env (snd entry)) |})
      (filter (fun entry => not_disabled (snd entry)) mcpServers).

(** [createMCPToolAdapter]: a new adapter, then [connectWithRetry] for
    every loaded descriptor; [Promise.allSettled] keeps going after a
    failure. The connects are taken one after the other. *)
Fixpoint connect_all_settled (configs : list MCPServerConfig)
    (a : MCPToolAdapter) : MCPToolAdapter :=
  match configs with
  | [] => a
  | config :: rest => connect_all_settled rest (snd (connectWithRetry config a))
  end.

Definition createMCPToolAdapter (world : Sdk)
    (processEnv inherited : string -> option string)
    (mcpServers : list (string * MCPConfigEntry)) (retryConfig : PartialRetryConfig)
    : MCPToolAdapter :=
  connect_all_settled (loadMCPConfig processEnv inherited mcpServers)
    (constructor world retryConfig).

(* ===================================================================== *)
(** ** Observing a run *)
(* ===================================================================== *)

(** The public methods that act on the adapter. *)
Inductive Call : Type :=
| CallConnect (config : MCPServerConfig)
| CallConnectWithRetry (config : MCPServerConfig)
| CallCallTool (serverName toolName : string) (arguments : Json)
| CallCallToolWithRetry (serverName toolName : string) (arguments : Json)
| CallListTools (serverName : string)
| CallListAllTools
| CallDisconnect (serverName : string)
| CallDisconnectAll.

Definition run (c : Call) (a : MCPToolAdapter) : MCPToolAdapter :=
  match c with
  | CallConnect config => snd (connect config a)
  | CallConnectWithRetry config => snd (connectWithRetry config a)
  | CallCallTool serverName toolName arguments =>
      snd (callTool serverName toolName arguments a)
  | CallCallToolWithRetry serverName toolName arguments =>
      snd (callToolWithRetry serverName toolName arguments a)
  | CallListTools serverName => snd (listTools serverName a)
  | CallListAllTools => snd (listAllTools a)
  | CallDisconnect serverName => snd (disconnect serverName a)
  | CallDisconnectAll => snd (disconnectAll a)
  end.

(** The adapters a program can hold: a new one, then any sequence of
    method calls. *)
Inductive reachable : MCPToolAdapter -> Prop :=
| reachable_new (world : Sdk) (partial : PartialRetryConfig) :
    reachable (constructor world partial)
| reachable_call (c : Call) (a : MCPToolAdapter) :
    reachable a -> reachable (run c a).

(** What a call added to the trace. *)
Definition events_since (before after : MCPToolAdapter) : list Event :=
  skipn (List.length (trace before)) (trace after).

Definition is_sleep (ev : Event) : option Z :=
  match ev with EvSleep ms => Some ms | _ => None end.

Definition is_handshake (ev : Event) : option (Settled unit) :=
  match ev with EvHandshake _ r => Some r | _ => None end.

Definition is_connect (ev : Event) : bool :=
  match ev with EvConnect _ => true | _ => false end.

Definition is_invoke (ev : Event) : bool :=
  match ev with EvInvoke _ _ => true | _ => false end.

(** An interaction with the SDK client, as opposed to an entry or a sleep. *)
Definition is_transport (ev : Event) : bool :=
  match ev with
  | EvHandshake _ _ | EvClose _ _ | EvToolCall _ _ _ | EvListTools _ => true
  | EvConnect _ | EvInvoke _ _ | EvSleep _ => false
  end.

Fixpoint pick {A B : Type} (f : A -> option B) (l : list A) : list B :=
  match l with
  | [] => []
  | x :: l' => match f x with Some y => y :: pick f l' | None => pick f l' end
  end.

Definition sleeps (evs : list Event) : list Z := pick is_sleep evs.

Definition handshakes (evs : list Event) : list (Settled unit) := pick is_handshake evs.

Definition connect_attempts (evs : list Event) : nat := List.length (filter is_connect evs).

Definition invoke_attempts (evs : list Event) : nat := List.length (filter is_invoke evs).

Definition transport_calls (evs : list Event) : nat := List.length (filter is_transport evs).

Definition rejected (r : Settled unit) : option JsError :=
  match r with Rejects e => Some e | Resolves _ => None end.

(** The adapter after [callTool] has made the SDK call of a live
    connection. *)
Definition after_tool_call (serverName toolName : string) (a : MCPToolAdapter)
    (connection : ConnectionState) : MCPToolAdapter :=
  {| connections :=
       JsMap.set serverName (set_lastActivity (clock a) connection) (connections a);
     retryConfig := retryConfig a;
     sdk := sdk a;
     ticks := S (ticks a);
     clock := clock a;
     trace := trace a ++ [EvInvoke serverName toolName;
                          EvToolCall serverName toolName
                            (on_callTool (sdk a) (ticks a))] |}.

(** The message of the error [connectWithRetry] throws after its loop. *)
Definition exhausted_message (cfg : MCPServerConfig) (policy : RetryConfig)
    (cause : option JsError) : string :=
  "Failed to connect to " ++ name cfg ++ " after " ++
  JsString.of_nat (maxRetries policy + 1) ++ " attempts: " ++
  undefined_or (option_map message cause).

(** The failure message of [callTool] for a name that is not registered. *)
Definition not_connected_message (serverName : string) : string :=
  "Server " ++ serverName ++ " not connected".

Definition all_connected (a : MCPToolAdapter) : Prop :=
  Forall (fun entry => connected (snd entry) = true) (connections a).

(* ===================================================================== *)
(** ** Sample worlds and adapters, after the unit tests *)
(* ===================================================================== *)

(** Every SDK call resolves. *)
Definition sdk_serving : Sdk :=
  {| on_connect := fun _ => Resolves tt;
     on_close := fun _ => Resolves tt;
     on_callTool := fun _ => Resolves "{}";
     on_listTools := fun _ => Resolves [] |}.

(** Handshakes resolve, every tool call rejects with [msg]. *)
Definition sdk_calls_fail (msg : string) : Sdk :=
  {| on_connect := fun _ => Resolves tt;
     on_close := fun _ => Resolves tt;
     on_callTool := fun _ => Rejects {| message := msg |};
     on_listTools := fun _ => Rejects {| message := msg |} |}.

(** Every handshake rejects with [msg]. *)
Definition sdk_refusing (msg : string) : Sdk :=
  {| on_connect := fun _ => Rejects {| message := msg |};
     on_close := fun _ => Resolves tt;
     on_callTool := fun _ => Rejects {| message := msg |};
     on_listTools := fun _ => Rejects {| message := msg |} |}.

Definition no_overrides : PartialRetryConfig :=
  {| maxRetries_opt := None; initialDelayMs_opt := None;
     maxDelayMs_opt := None; backoffMultiplier_opt := None |}.

Definition testConfig : MCPServerConfig :=
  {| name := "test-server";
     command := "node";
     args := ["test.js"];
     env := Some [("API_KEY", "test-key")] |}.

(** A registry holding one entry whose [connected] is false; no method of
    the adapter produces it. *)
Definition stale_adapter (world : Sdk) : MCPToolAdapter :=
  with_connections
    [("test-server",
      {| client := 0; config := testConfig; connected := false;
         lastActivity := 0; retryCount := 0 |})]
    (constructor world no_overrides).

(* ===================================================================== *)
(** ** Backoff sequence, in the two forms the documentation gives *)
(* ===================================================================== *)

(** Closed form: element [i] is [min(initialDelay * multiplier^i, maxDelay)],
    for [i] below [maxRetries]. *)
Definition delays (policy : RetryConfig) : list Z :=
  map (fun i => Z.min (initialDelayMs policy * backoffMultiplier policy ^ Z.of_nat i)
                      (maxDelayMs policy))
      (seq 0 (maxRetries policy)).

(** Recurrence: the first delay is [initialDelay], each next one is
    [min(delay * multiplier, maxDelay)]. *)
Fixpoint backoff_from (policy : RetryConfig) (delay : Z) (count : nat) : list Z :=
  match count with
  | O => []
  | S count' =>
      delay :: backoff_from policy
                 (Z.min (delay * backoffMultiplier policy) (maxDelayMs policy)) count'
  end.

Definition backoff (policy : RetryConfig) : list Z :=
  backoff_from policy (initialDelayMs policy) (maxRetries policy).


(* ===================================================================== *)
(** ** Placeholders, stated on the text *)
(* ===================================================================== *)

Fixpoint brace_free (s : string) : bool :=
  match s with
  | EmptyString => true
  | String c s' => negb (Ascii.eqb c "}"%char) && brace_free s'
  end.

(** [n] can stand between the braces: not empty, no closing brace. *)
Definition variable_name (n : string) : Prop :=
  n <> "" /\ brace_free n = true.

(** A placeholder occurs in [s] after [pre]. *)
Definition placeholder_after (pre s : string) : Prop :=
  exists n post, variable_name n /\ s = pre ++ "${" ++ n ++ "}" ++ post.

Definition no_placeholder (s : string) : Prop :=
  forall pre, ~ placeholder_after pre s.

(** The placeholder after [pre] is the first one of [s]. *)
Definition first_placeholder_after (pre s : string) : Prop :=
  placeholder_after pre s /\
  forall pre', placeholder_after pre' s -> String.length pre <= String.length pre'.

(** The [mcpServers] object of the unit tests. *)
Definition test_mcpServers : list (string * MCPConfigEntry) :=
  [ ("test-server",
     {| entry_command := "node"; entry_args := ["test.js"];
        entry_env := Some [("API_KEY", "${API_KEY}")];
        disabled := None; entry_description := None |});
    ("disabled-server",
     {| entry_command := "node"; entry_args := ["disabled.js"];
        entry_env := None;
        disabled := Some true; entry_description := None |}) ].

Definition test_processEnv (varName : string) : option string :=
  if String.eqb varName "API_KEY" then Some "env-api-key" else None.

(** An environment with no variable set. *)
Definition empty_processEnv (varName : string) : option string := None.

(** A configuration whose placeholder names a method of [Object.prototype]
    and that has an [env] key [__proto__], as [JSON.parse] makes one. *)
Definition inherited_mcpServers : list (string * MCPConfigEntry) :=
  [ ("test-server",
     {| entry_command := "node"; entry_args := ["test.js"];
        entry_env := Some [("API_KEY", "${toString}"); ("__proto__", "${API_KEY}")];
        disabled := None; entry_description := None |}) ].

(* ===================================================================== *)
(** ** Further observers of the registry and of a run *)
(* ===================================================================== *)

Definition is_close (ev : Event) : bool :=
  match ev with EvClose _ _ => true | _ => false end.

Definition is_tool_call (ev : Event) : option (Settled Json) :=
  match ev with EvToolCall _ _ r => Some r | _ => None end.

Definition is_list_call (ev : Event) : bool :=
  match ev with EvListTools _ => true | _ => false end.

Definition closes (evs : list Event) : nat := List.length (filter is_close evs).

Definition tool_calls (evs : list Event) : list (Settled Json) := pick is_tool_call evs.

Definition list_calls (evs : list Event) : nat := List.length (filter is_list_call evs).

(** What identifies an entry: its name, client, descriptor and
    [connected] flag; [lastActivity] and [retryCount] are bookkeeping. *)
Definition identity_of (entry : string * ConnectionState)
    : string * nat * MCPServerConfig * bool :=
  (fst entry, client (snd entry), config (snd entry), connected (snd entry)).

Definition identities (a : MCPToolAdapter) : list (string * nat * MCPServerConfig * bool) :=
  map identity_of (connections a).

(** The registry changes only by [Map.set] and [Map.delete]. *)
Inductive registry_steps
    : list (string * ConnectionState) -> list (string * ConnectionState) -> Prop :=
| steps_done (m : list (string * ConnectionState)) : registry_steps m m
| steps_set (m m' : list (string * ConnectionState)) (k : string) (v : ConnectionState) :
    registry_steps m m' -> registry_steps m (JsMap.set k v m')
| steps_delete (m m' : list (string * ConnectionState)) (k : string) :
    registry_steps m m' -> registry_steps m (JsMap.delete k m').

Definition registry_only_steps {A : Type} (m : M A) : Prop :=
  forall a, registry_steps (connections a) (connections (snd (m a))).

(** The next [k] tool calls reject with retryable messages. *)
Definition retryable_rejections (a : MCPToolAdapter) (k : nat) : Prop :=
  forall i, (i < k)%nat ->
    exists e, on_callTool (sdk a) (ticks a + i) = Rejects e /\
              isRetryableError (Some (message e)) = true.

(** The next [k] handshakes reject. *)
Definition handshake_rejections (a : MCPToolAdapter) (k : nat) : Prop :=
  forall i, (i < k)%nat -> exists e, on_connect (sdk a) (ticks a + i) = Rejects e.

(** The adapter after a [connect] whose handshake was rejected. *)
Definition after_failed_connect (cfg : MCPServerConfig) (a : MCPToolAdapter)
    : MCPToolAdapter :=
  with_trace
    (trace a ++ [EvConnect (name cfg);
                 EvHandshake (name cfg) (on_connect (sdk a) (ticks a))])%list
    (with_ticks (S (ticks a)) a).

(** Handshakes resolve; the tool calls with an index below [until] reject
    with [msg], the later ones resolve. *)
Definition sdk_flaky (until : nat) (msg : string) : Sdk :=
  {| on_connect := fun _ => Resolves tt;
     on_close := fun _ => Resolves tt;
     on_callTool := fun i =>
       if (i <? until)%nat then Rejects {| message := msg |} else Resolves "{}";
     on_listTools := fun _ => Resolves [] |}.

(** The handshakes with an index below [until] reject with [msg], the
    later ones resolve. *)
Definition sdk_slow_start (until : nat) (msg : string) : Sdk :=
  {| on_connect := fun i =>
       if (i <? until)%nat then Rejects {| message := msg |} else Resolves tt;
     on_close := fun _ => Resolves tt;
     on_callTool := fun _ => Resolves "{}";
     on_listTools := fun _ => Resolves [] |}.

(* ===================================================================== *)
(** ** Callers of the adapter: GitHub, Slack and browser services *)
(* ===================================================================== *)

(** The object literal passed as tool arguments, by its fields. The SDK
    oracle does not look at arguments, so the rendering is of no
    consequence. *)
Definition object_of (fields : list (string * string)) : Json :=
  String.concat "," (map (fun field => fst field ++ ":" ++ snd field) fields).

(** [\s] on 8-bit characters: tab to carriage return, space, no-break
    space. *)
Definition is_space (c : ascii) : bool :=
  let n := nat_of_ascii c in
  (((9 <=? n) && (n <=? 13)) || (n =? 32) || (n =? 160))%nat.

(** [\d] *)
Definition is_digit (c : ascii) : bool :=
  let n := nat_of_ascii c in ((48 <=? n) && (n <=? 57))%nat.

Definition digit_value (c : ascii) : nat := nat_of_ascii c - 48.

(** [String.prototype.toLowerCase] on 8-bit characters: A-Z and the
    capital letters from U+00C0 to U+00DE, the multiplication sign apart. *)
Definition to_lower (c : ascii) : ascii :=
  let n := nat_of_ascii c in
  if (((65 <=? n) && (n <=? 90)) ||
      ((192 <=? n) && (n <=? 222) && negb (n =? 215)))%nat
  then ascii_of_nat (n + 32) else c.

Fixpoint toLowerCase (s : string) : string :=
  match s with
  | EmptyString => EmptyString
  | String c s' => String (to_lower c) (toLowerCase s')
  end.

Module GitHubAPIError.

Record t : Type := {
  message : string;
  statusCode : option nat;
  rateLimitRemaining : option nat;
  rateLimitReset : option Z
}.

Definition equals (expected : nat) (field : option nat) : bool :=
  match field with Some n => Nat.eqb n expected | None => false end.

(** [statusCode === 403 && rateLimitRemaining === 0] *)
Definition isRateLimited (e : t) : bool :=
  equals 403 (statusCode e) && equals 0 (rateLimitRemaining e).

Definition isAuthError (e : t) : bool := equals 401 (statusCode e).

Definition isNotFound (e : t) : bool := equals 404 (statusCode e).

End GitHubAPIError.

Module StatusPattern.

(** [[:\s]] *)
Definition is_separator (c : ascii) : bool := Ascii.eqb c ":"%char || is_space c.

(** What is left of [s] after [[:\s]*]. *)
Fixpoint skip_separators (s : string) : string :=
  match s with
  | EmptyString => EmptyString
  | String c s' => if is_separator c then skip_separators s' else s
  end.

(** [(\d{3})] at the start of [s], through [parseInt(_, 10)]. *)
Definition three_digits (s : string) : option nat :=
  match s with
  | String d1 (String d2 (String d3 _)) =>
      if is_digit d1 && is_digit d2 && is_digit d3
      then Some (100 * digit_value d1 + 10 * digit_value d2 + digit_value d3)
      else None
  | _ => None
  end.

(** A match of [/status[:\s]+(\d{3})/i] at the start of [s]. *)
Definition match_here (s : string) : option nat :=
  if JsString.starts_with_ci "status" s then
    match JsString.drop 6 s with
    | String c rest =>
        if is_separator c then three_digits (skip_separators rest) else None
    | EmptyString => None
    end
  else None.

(** [s.match(/status[:\s]+(\d{3})/i)]: the capture of the leftmost match. *)
Fixpoint exec (s : string) : option nat :=
  match match_here s with
  | Some n => Some n
  | None =>
      match s with
      | EmptyString => None
      | String _ s' => exec s'
      end
  end.

End StatusPattern.

(** [parseGitHubError(result)] *)
Definition parseGitHubError (result : MCPToolResult) : GitHubAPIError.t :=
  let errorMessage :=
    match error result with
    | Some (String c m) => String c m
    | _ => "Unknown GitHub API error"
    end in
  {| GitHubAPIError.message := errorMessage;
     GitHubAPIError.statusCode := StatusPattern.exec errorMessage;
     GitHubAPIError.rateLimitRemaining :=
       if JsString.includes "rate limit" (toLowerCase errorMessage)
       then Some 0 else None;
     GitHubAPIError.rateLimitReset := None |}.

Definition GITHUB_MCP_SERVER : string := "github".

(** How a GitHub wrapper ends: with the data of the result, with the
    [GitHubAPIError] it throws, or with an error that came out of the
    adapter. *)
Inductive GitHubCompletion : Type :=
| GitHubReturns (data : option Json)
| GitHubThrows (e : GitHubAPIError.t)
| GitHubRethrows (e : JsError).

(** The body the seventeen GitHub wrappers share. *)
Definition github_tool (toolName : string) (payload : Json) (mcp : MCPToolAdapter)
    : GitHubCompletion * MCPToolAdapter :=
  match callToolWithRetry GITHUB_MCP_SERVER toolName payload mcp with
  | (Returns result, mcp') =>
      if negb (success result) then (GitHubThrows (parseGitHubError result), mcp')
      else (GitHubReturns (data result), mcp')
  | (Throws e, mcp') => (GitHubRethrows e, mcp')
  end.

Definition createGitHubIssue := github_tool "create_issue".
Definition updateGitHubIssue := github_tool "update_issue".
Definition getGitHubIssue := github_tool "get_issue".
Definition addIssueComment := github_tool "add_issue_comment".
Definition listGitHubIssues := github_tool "list_issues".
Definition searchGitHubIssues := github_tool "search_issues".
Definition createGitHubPullRequest := github_tool "create_pull_request".
Definition getGitHubPullRequest := github_tool "get_pull_request".
Definition listGitHubPullRequests := github_tool "list_pull_requests".
Definition mergeGitHubPullRequest := github_tool "merge_pull_request".
Definition getGitHubPullRequestFiles := github_tool "get_pull_request_files".
Definition createGitHubPRReview := github_tool "create_pull_request_review".
Definition createGitHubBranch := github_tool "create_branch".
Definition getGitHubFileContents := github_tool "get_file_contents".
Definition pushGitHubFiles := github_tool "push_files".
Definition searchGitHubCode := github_tool "search_code".
Definition listGitHubCommits := github_tool "list_commits".

Definition SLACK_MCP_SERVER : string := "slack".

(** [SlackNotificationService.postMessage] *)
Definition postMessage (options : Json) : M (option Json) :=
  result <- callToolWithRetry SLACK_MCP_SERVER "slack_post_message" options ;;
  if negb (success result) then
    throw {| message := "Failed to post Slack message: " ++ undefined_or (error result) |}
  else ret (data result).

(** [SlackNotificationService.addReaction] *)
Definition addReaction (channel timestamp emoji : string) : M unit :=
  result <- callToolWithRetry SLACK_MCP_SERVER "slack_add_reaction"
              (object_of [("channel", channel); ("timestamp", timestamp);
                          ("name", emoji)]) ;;
  if negb (success result) then
    throw {| message := "Failed to add reaction: " ++ undefined_or (error result) |}
  else ret tt.

Definition PUPPETEER_MCP_SERVER : string := "puppeteer".

(** [config.baseUrl || ''] followed by the URL, unless the URL is
    absolute. *)
Definition resolveUrl (baseUrl : option string) (url : string) : string :=
  if JsString.starts_with "http://" url || JsString.starts_with "https://" url
  then url
  else match baseUrl with Some b => b | None => "" end ++ url.

(** [BrowserAutomationService.navigate] *)
Definition navigate (baseUrl : option string) (url : string) : M unit :=
  let fullUrl := resolveUrl baseUrl url in
  result <- callToolWithRetry PUPPETEER_MCP_SERVER "puppeteer_navigate"
              (object_of [("url", fullUrl)]) ;;
  if negb (success result) then
    throw {| message :=
      "Failed to navigate to " ++ fullUrl ++ ": " ++ undefined_or (error result) |}
  else ret tt.

(** [BrowserAutomationService.click] *)
Definition click (selector : string) : M unit :=
  result <- callToolWithRetry PUPPETEER_MCP_SERVER "puppeteer_click"
              (object_of [("selector", selector)]) ;;
  if negb (success result) then
    throw {| message :=
      "Failed to click " ++ selector ++ ": " ++ undefined_or (error result) |}
  else ret tt.

(** The status pattern, stated on the text: after [pre], the word
    "status" in any letter case, one or more colons or white-space
    characters, then three digits whose decimal value is [n]. *)
Fixpoint all_separators (s : string) : bool :=
  match s with
  | EmptyString => true
  | String c s' => StatusPattern.is_separator c && all_separators s'
  end.

Definition status_after (pre msg : string) (n : nat) : Prop :=
  exists word seps d1 d2 d3 post,
    msg = pre ++ word ++ seps ++ String d1 (String d2 (String d3 post)) /\
    same_ci word "status" /\
    seps <> "" /\ all_separators seps = true /\
    is_digit d1 = true /\ is_digit d2 = true /\ is_digit d3 = true /\
    n = 100 * digit_value d1 + 10 * digit_value d2 + digit_value d3.

(** The message a [GitHubAPIError] is built from. *)
Definition github_error_message (result : MCPToolResult) : string :=
  match error result with
  | Some (String c m) => String c m
  | _ => "Unknown GitHub API error"
  end.

(** The test [resolveUrl] makes on a URL. *)
Definition absolute (url : string) : bool :=
  JsString.starts_with "http://" url || JsString.starts_with "https://" url.

(* ===================================================================== *)
(** * Properties *)
(* ===================================================================== *)

(** ** Strings *)

Section StringFacts.
Import JsString.

Lemma append_assoc (x y z : string) : (x ++ y) ++ z = x ++ (y ++ z).
Proof. induction x as [|c x IH]; simpl; [reflexivity | now rewrite IH]. Qed.

Lemma append_empty_r (x : string) : x ++ "" = x.
Proof. induction x as [|c x IH]; simpl; [reflexivity | now rewrite IH]. Qed.

Lemma append_is_empty (x y : string) : x ++ y = "" -> x = "" /\ y = "".
Proof. destruct x; simpl; [auto | discriminate]. Qed.

Lemma upcase_length (x : string) : String.length (upcase x) = String.length x.
Proof. induction x as [|c x IH]; simpl; [reflexivity | now rewrite IH]. Qed.

Lemma same_ci_length (x w : string) : same_ci x w -> String.length x = String.length w.
Proof.
  unfold same_ci; intros H.
  rewrite <- (upcase_length x), <- (upcase_length w). now rewrite H.
Qed.

Lemma drop_append (x rest : string) : drop (String.length x) (x ++ rest) = rest.
Proof. induction x as [|c x IH]; simpl; [now destruct rest | exact IH]. Qed.

Lemma eqb_ci_true (a b : ascii) : eqb_ci a b = true <-> to_upper a = to_upper b.
Proof. unfold eqb_ci. apply Ascii.eqb_eq. Qed.

Lemma starts_with_ci_spec (w s : string) :
  starts_with_ci w s = true <-> exists x rest, s = x ++ rest /\ same_ci x w.
Proof.
  revert s; induction w as [|a w IH]; intros s.
  - split; [intros _; exists "", s; split; reflexivity | reflexivity].
  - destruct s as [|b s]; simpl.
    + split; [discriminate |].
      intros (x & rest & Hs & Hx). symmetry in Hs.
      apply append_is_empty in Hs as [-> _]. discriminate Hx.
    + rewrite andb_true_iff, eqb_ci_true, IH. split.
      * intros [Hab (x & rest & -> & Hx)].
        exists (String b x), rest. split; [reflexivity |].
        unfold same_ci in *; simpl. now rewrite Hx, Hab.
      * intros (x & rest & Hs & Hx).
        destruct x as [|c x]; [discriminate Hx |].
        simpl in Hs. injection Hs as <- ->.
        unfold same_ci in Hx; simpl in Hx. injection Hx as Hc Hx.
        split; [now symmetry |]. now exists x, rest.
Qed.

Lemma any_then_spec (w s : string) :
  RegExp.any_then w s = true <->
  exists mid y post, s = mid ++ y ++ post /\ one_line mid = true /\ same_ci y w.
Proof.
  induction s as [|c s IH].
  - simpl. rewrite orb_false_r, starts_with_ci_spec. split.
    + intros (x & rest & Hs & Hx). now exists "", x, rest.
    + intros (mid & y & post & Hs & _ & Hy). symmetry in Hs.
      apply append_is_empty in Hs as [-> Hs]. now exists y, post.
  - simpl. rewrite orb_true_iff, andb_true_iff, IH, starts_with_ci_spec. split.
    + intros [(x & rest & Hs & Hx) | [Hc (mid & y & post & -> & Hmid & Hy)]].
      * now exists "", x, rest.
      * exists (String c mid), y, post. simpl. rewrite Hc, Hmid. auto.
    + intros (mid & y & post & Hs & Hmid & Hy).
      destruct mid as [|c' mid].
      * left. now exists y, post.
      * right. simpl in Hs, Hmid. injection Hs as <- ->.
        apply andb_true_iff in Hmid as [Hc Hmid].
        split; [exact Hc |]. now exists mid, y, post.
Qed.

Lemma test_Lit_spec (w s : string) :
  RegExp.test (RegExp.Lit w) s = true <-> mentions w s.
Proof.
  unfold mentions. induction s as [|c s IH].
  - simpl. rewrite orb_false_r, starts_with_ci_spec. split.
    + intros (x & rest & Hs & Hx). now exists "", x, rest.
    + intros (pre & x & post & Hs & Hx). symmetry in Hs.
      apply append_is_empty in Hs as [-> Hs]. now exists x, post.
  - cbn [RegExp.test RegExp.match_at].
    rewrite orb_true_iff, IH, starts_with_ci_spec. split.
    + intros [(x & rest & Hs & Hx) | (pre & x & post & -> & Hx)].
      * now exists "", x, rest.
      * now exists (String c pre), x, post.
    + intros (pre & x & post & Hs & Hx). destruct pre as [|c' pre].
      * left. now exists x, post.
      * right. simpl in Hs. injection Hs as <- ->. now exists pre, x, post.
Qed.

Lemma match_at_LitAnyLit_spec (w1 w2 s : string) :
  RegExp.match_at (RegExp.LitAnyLit w1 w2) s = true <->
  exists x mid y post,
    s = x ++ mid ++ y ++ post /\ same_ci x w1 /\ same_ci y w2 /\ one_line mid = true.
Proof.
  cbn [RegExp.match_at]. rewrite andb_true_iff, starts_with_ci_spec. split.
  - intros [(x & rest & -> & Hx) Hany].
    rewrite <- (same_ci_length _ _ Hx), drop_append in Hany.
    apply any_then_spec in Hany as (mid & y & post & -> & Hmid & Hy).
    now exists x, mid, y, post.
  - intros (x & mid & y & post & -> & Hx & Hy & Hmid). split.
    + now exists x, (mid ++ y ++ post).
    + rewrite <- (same_ci_length _ _ Hx), drop_append.
      apply any_then_spec. now exists mid, y, post.
Qed.

Lemma test_LitAnyLit_spec (w1 w2 s : string) :
  RegExp.test (RegExp.LitAnyLit w1 w2) s = true <-> mentions_then w1 w2 s.
Proof.
  unfold mentions_then. induction s as [|c s IH].
  - cbn [RegExp.test]. rewrite orb_false_r, match_at_LitAnyLit_spec. split.
    + intros (x & mid & y & post & Hs & H). now exists "", x, mid, y, post.
    + intros (pre & x & mid & y & post & Hs & H). symmetry in Hs.
      apply append_is_empty in Hs as [-> Hs]. now exists x, mid, y, post.
  - cbn [RegExp.test]. rewrite orb_true_iff, IH, match_at_LitAnyLit_spec. split.
    + intros [(x & mid & y & post & Hs & H) | (pre & x & mid & y & post & -> & H)].
      * now exists "", x, mid, y, post.
      * now exists (String c pre), x, mid, y, post.
    + intros (pre & x & mid & y & post & Hs & H). destruct pre as [|c' pre].
      * left. now exists x, mid, y, post.
      * right. simpl in Hs. injection Hs as <- ->. now exists pre, x, mid, y, post.
Qed.

Lemma mentions_empty (w : string) : w <> "" -> ~ mentions w "".
Proof.
  intros Hw (pre & x & post & Hs & Hx). symmetry in Hs.
  apply append_is_empty in Hs as [_ Hs]. apply append_is_empty in Hs as [-> _].
  apply same_ci_length in Hx. destruct w; [now apply Hw | discriminate Hx].
Qed.

Lemma retryable_text_test (msg : string) :
  existsb (fun pattern => RegExp.test pattern msg) retryablePatterns = true <->
  retryable_text msg.
Proof.
  unfold retryablePatterns, retryable_text. cbn [existsb].
  rewrite !orb_true_iff, !test_Lit_spec, test_LitAnyLit_spec. intuition discriminate.
Qed.

Lemma retryable_text_nonempty : ~ retryable_text "".
Proof.
  rewrite <- retryable_text_test. now vm_compute.
Qed.

End StringFacts.

(** C3. [isRetryableError] answers [true] exactly for a message that
    mentions, in any letter case, "timeout", or "connection" and later on
    the same line "refused", or "ECONNRESET", "ECONNREFUSED", "ETIMEDOUT",
    "network" or "unavailable"; an absent message, the empty message and
    "Invalid argument" are not retryable. *)
Theorem isRetryableError_spec :
  (forall error : option string,
     isRetryableError error = true <->
     exists msg, error = Some msg /\ retryable_text msg) /\
  isRetryableError None = false /\
  isRetryableError (Some "") = false /\
  isRetryableError (Some "Invalid argument") = false.
Proof.
  split; [| repeat split; reflexivity].
  intros [[|c e]|]; unfold isRetryableError.
  - split; [discriminate |].
    intros (msg & [= <-] & H). now apply retryable_text_nonempty in H.
  - rewrite retryable_text_test. split.
    + intros H. now exists (String c e).
    + now intros (msg & [= <-] & H).
  - split; [discriminate | now intros (msg & [=] & _)].
Qed.

(** The pattern with [.*] accepts other words between "connection" and
    "refused", but not a line break. *)
Example connection_then_refused :
  isRetryableError (Some "Connection to host was REFUSED") = true /\
  isRetryableError (Some ("connection" ++ String "010"%char "refused")) = false /\
  isRetryableError (Some "read ECONNRESET") = true /\
  isRetryableError (Some "Service Unavailable") = true.
Proof. repeat split; reflexivity. Qed.

(** ** The adapter monad *)

Local Open Scope list_scope.

Ltac run_monad :=
  unfold bind, ret, throw, try_catch, this, emit, new_Date, put_connections,
    ask, sleep, assign in *.

Section TraceFacts.

Lemma events_since_app (a a' : MCPToolAdapter) (evs : list Event) :
  trace a' = trace a ++ evs -> events_since a a' = evs.
Proof.
  unfold events_since; intros ->.
  rewrite skipn_app, skipn_all, Nat.sub_diag. reflexivity.
Qed.

Lemma pick_app {A B : Type} (f : A -> option B) (l1 l2 : list A) :
  pick f (l1 ++ l2) = pick f l1 ++ pick f l2.
Proof.
  induction l1 as [|x l1 IH]; simpl; [reflexivity |].
  destruct (f x); simpl; now rewrite IH.
Qed.

Lemma sleeps_app (l1 l2 : list Event) : sleeps (l1 ++ l2) = sleeps l1 ++ sleeps l2.
Proof. apply pick_app. Qed.

Lemma handshakes_app (l1 l2 : list Event) :
  handshakes (l1 ++ l2) = handshakes l1 ++ handshakes l2.
Proof. apply pick_app. Qed.

Lemma connect_attempts_app (l1 l2 : list Event) :
  connect_attempts (l1 ++ l2) = connect_attempts l1 + connect_attempts l2.
Proof. unfold connect_attempts. now rewrite filter_app, length_app. Qed.

Lemma invoke_attempts_app (l1 l2 : list Event) :
  invoke_attempts (l1 ++ l2) = invoke_attempts l1 + invoke_attempts l2.
Proof. unfold invoke_attempts. now rewrite filter_app, length_app. Qed.

Lemma transport_calls_app (l1 l2 : list Event) :
  transport_calls (l1 ++ l2) = transport_calls l1 + transport_calls l2.
Proof. unfold transport_calls. now rewrite filter_app, length_app. Qed.

End TraceFacts.

#[local] Arguments String.append : simpl never.

(** ** Registry facts *)

Section JsMapFacts.
Context {V : Type}.
Implicit Types (m : list (string * V)) (k : string) (v : V).

Lemma get_set_same k v m : JsMap.get k (JsMap.set k v m) = Some v.
Proof.
  induction m as [|[k' v'] m IH]; simpl.
  - now rewrite String.eqb_refl.
  - destruct (String.eqb k k') eqn:E; simpl; rewrite ?String.eqb_refl, ?E; auto.
Qed.

Lemma get_set_other k k' v m :
  k <> k' -> JsMap.get k (JsMap.set k' v m) = JsMap.get k m.
Proof.
  intros Hk. apply String.eqb_neq in Hk.
  induction m as [|[k0 v0] m IH]; simpl.
  - now rewrite Hk.
  - destruct (String.eqb k' k0) eqn:E; simpl.
    + apply String.eqb_eq in E; subst k0. now rewrite Hk.
    + now rewrite IH.
Qed.

Lemma set_set k v1 v2 m : JsMap.set k v2 (JsMap.set k v1 m) = JsMap.set k v2 m.
Proof.
  induction m as [|[k' v'] m IH]; simpl.
  - now rewrite String.eqb_refl.
  - destruct (String.eqb k k') eqn:E; simpl; rewrite ?String.eqb_refl, ?E, ?IH; auto.
Qed.

Lemma get_In k v m : JsMap.get k m = Some v -> In (k, v) m.
Proof.
  induction m as [|[k' v'] m IH]; simpl; [discriminate |].
  destruct (String.eqb_spec k k') as [<- | _].
  - intros [= ->]. now left.
  - intros H. right. now apply IH.
Qed.

Lemma get_None_keys k m : JsMap.get k m = None <-> ~ In k (JsMap.keys m).
Proof.
  induction m as [|[k' v'] m IH]; simpl.
  - tauto.
  - destruct (String.eqb_spec k k') as [<- | Hk].
    + split; [discriminate | tauto].
    + rewrite IH. intuition congruence.
Qed.

Lemma Forall_set (P : string * V -> Prop) k v m :
  P (k, v) -> Forall P m -> Forall P (JsMap.set k v m).
Proof.
  intros Hv. induction 1 as [|[k' v'] m Hx Hm IH]; simpl.
  - now constructor.
  - destruct (String.eqb k k'); constructor; auto.
Qed.

Lemma Forall_delete (P : string * V -> Prop) k m :
  Forall P m -> Forall P (JsMap.delete k m).
Proof.
  induction 1 as [|[k' v'] m Hx Hm IH]; simpl.
  - constructor.
  - destruct (String.eqb k k'); [assumption | now constructor].
Qed.

End JsMapFacts.

(** ** [callTool], case by case *)

Section CallTool.
Variables (serverName toolName : string) (arguments : Json) (a : MCPToolAdapter).

Lemma callTool_absent :
  JsMap.get serverName (connections a) = None ->
  callTool serverName toolName arguments a =
  (Returns (failure ("Server " ++ serverName ++ " not connected")%string),
   with_trace (trace a ++ [EvInvoke serverName toolName]) a).
Proof.
  intros Hget. unfold callTool. run_monad. simpl. now rewrite Hget.
Qed.

Lemma callTool_disconnected (connection : ConnectionState) :
  JsMap.get serverName (connections a) = Some connection ->
  connected connection = false ->
  callTool serverName toolName arguments a =
  (Returns (failure ("Server " ++ serverName ++ " is disconnected")%string),
   with_trace (trace a ++ [EvInvoke serverName toolName]) a).
Proof.
  intros Hget Hc. unfold callTool. run_monad. simpl. now rewrite Hget, Hc.
Qed.

Lemma callTool_live (connection : ConnectionState) :
  JsMap.get serverName (connections a) = Some connection ->
  connected connection = true ->
  callTool serverName toolName arguments a =
  match on_callTool (sdk a) (ticks a) with
  | Resolves result =>
      (Returns {| success := true; data := Some result; error := None |},
       with_connections
         (JsMap.set serverName
            (set_retryCount 0 (set_lastActivity (clock a) connection))
            (connections a))
         (after_tool_call serverName toolName a connection))
  | Rejects e =>
      (Returns (failure (message e)), after_tool_call serverName toolName a connection)
  end.
Proof.
  intros Hget Hc. unfold callTool. run_monad. simpl. rewrite Hget, Hc. simpl.
  rewrite Hget. simpl.
  unfold after_tool_call, with_connections, with_trace, with_ticks; simpl.
  rewrite <- app_assoc. simpl.
  destruct (on_callTool (sdk a) (ticks a)) as [result | e]; simpl.
  - rewrite get_set_same, set_set. reflexivity.
  - reflexivity.
Qed.

End CallTool.

Lemma callTool_returns (serverName toolName : string) (arguments : Json)
    (a : MCPToolAdapter) :
  exists result, fst (callTool serverName toolName arguments a) = Returns result.
Proof.
  destruct (JsMap.get serverName (connections a)) as [c|] eqn:Hget.
  - destruct (connected c) eqn:Hc.
    + rewrite (callTool_live _ _ _ _ c Hget Hc).
      destruct (on_callTool (sdk a) (ticks a)); simpl; eauto.
    + rewrite (callTool_disconnected _ _ _ _ c Hget Hc). simpl; eauto.
  - rewrite (callTool_absent _ _ _ _ Hget). simpl; eauto.
Qed.

(** What one [callTool] adds to the trace, and what it leaves alone. *)
Lemma callTool_frame (serverName toolName : string) (arguments : Json)
    (a : MCPToolAdapter) :
  let a' := snd (callTool serverName toolName arguments a) in
  exists evs,
    trace a' = trace a ++ evs /\
    retryConfig a' = retryConfig a /\
    invoke_attempts evs = 1 /\ connect_attempts evs = 0 /\ sleeps evs = [] /\
    transport_calls evs <= 1.
Proof.
  cbv zeta.
  destruct (JsMap.get serverName (connections a)) as [c|] eqn:Hget.
  - destruct (connected c) eqn:Hc.
    + rewrite (callTool_live _ _ _ _ c Hget Hc).
      destruct (on_callTool (sdk a) (ticks a)) eqn:Hreply;
        exists [EvInvoke serverName toolName;
                EvToolCall serverName toolName (on_callTool (sdk a) (ticks a))];
        simpl; repeat split; auto.
    + rewrite (callTool_disconnected _ _ _ _ c Hget Hc).
      exists [EvInvoke serverName toolName]. simpl; repeat split; auto.
  - rewrite (callTool_absent _ _ _ _ Hget).
    exists [EvInvoke serverName toolName]. simpl; repeat split; auto.
Qed.

Section Includes.
Import JsString.

Lemma starts_with_append (w post : string) : starts_with w (w ++ post)%string = true.
Proof.
  induction w as [|c w IH]; [reflexivity |].
  change (String c w ++ post)%string with (String c (w ++ post)%string).
  simpl. now rewrite Ascii.eqb_refl, IH.
Qed.

Lemma includes_append (w pre post : string) :
  includes w (pre ++ w ++ post)%string = true.
Proof.
  induction pre as [|c pre IH].
  - change ("" ++ w ++ post)%string with (w ++ post)%string.
    destruct (w ++ post)%string eqn:E; simpl; rewrite <- E, starts_with_append;
      reflexivity.
  - change (String c pre ++ w ++ post)%string with (String c (pre ++ w ++ post)%string).
    simpl. rewrite IH. apply orb_true_r.
Qed.

End Includes.

(** C7. [callTool] on a name that is not registered returns the failure
    "Server <name> not connected" and on a registered entry whose
    [connected] is false the failure "Server <name> is disconnected"; in
    both cases it makes no SDK call, starts no connect, and leaves the
    registry as it was. *)
Theorem callTool_without_live_connection
    (serverName toolName : string) (arguments : Json) (a : MCPToolAdapter) :
  let result := fst (callTool serverName toolName arguments a) in
  let a' := snd (callTool serverName toolName arguments a) in
  let evs := events_since a a' in
  (JsMap.get serverName (connections a) = None ->
   exists msg,
     result = Returns {| success := false; data := None; error := Some msg |} /\
     msg = ("Server " ++ serverName ++ " not connected")%string /\
     JsString.includes "not connected" msg = true /\
     transport_calls evs = 0 /\ connect_attempts evs = 0 /\
     connections a' = connections a) /\
  (forall connection,
     JsMap.get serverName (connections a) = Some connection ->
     connected connection = false ->
     exists msg,
       result = Returns {| success := false; data := None; error := Some msg |} /\
       msg = ("Server " ++ serverName ++ " is disconnected")%string /\
       JsString.includes "is disconnected" msg = true /\
       transport_calls evs = 0 /\ connect_attempts evs = 0 /\
       connections a' = connections a).
Proof.
  cbv zeta. split.
  - intros Hget. rewrite (callTool_absent _ _ _ _ Hget). cbn [fst snd].
    eexists. split; [reflexivity |]. split; [reflexivity |].
    rewrite (events_since_app a _ [EvInvoke serverName toolName]) by reflexivity.
    split; [| now repeat split].
    replace ("Server " ++ serverName ++ " not connected")%string
      with (("Server " ++ serverName ++ " ") ++ "not connected" ++ "")%string
      by (rewrite !append_assoc; reflexivity).
    apply includes_append.
  - intros c Hget Hc. rewrite (callTool_disconnected _ _ _ _ c Hget Hc). cbn [fst snd].
    eexists. split; [reflexivity |]. split; [reflexivity |].
    rewrite (events_since_app a _ [EvInvoke serverName toolName]) by reflexivity.
    split; [| now repeat split].
    replace ("Server " ++ serverName ++ " is disconnected")%string
      with (("Server " ++ serverName ++ " ") ++ "is disconnected" ++ "")%string
      by (rewrite !append_assoc; reflexivity).
    apply includes_append.
Qed.

Lemma callTool_without_live_connection_witness :
  transport_calls
    (events_since (constructor sdk_serving no_overrides)
       (snd (callTool "non-existent" "test_tool" "{}"
               (constructor sdk_serving no_overrides)))) = 0 /\
  transport_calls
    (events_since (stale_adapter sdk_serving)
       (snd (callTool "test-server" "test_tool" "{}" (stale_adapter sdk_serving)))) = 0.
Proof.
  split.
  - destruct (proj1 (callTool_without_live_connection "non-existent" "test_tool" "{}"
                       (constructor sdk_serving no_overrides)) eq_refl)
      as (msg & _ & _ & _ & H & _).
    exact H.
  - destruct (proj2 (callTool_without_live_connection "test-server" "test_tool" "{}"
                       (stale_adapter sdk_serving)) _ eq_refl eq_refl)
      as (msg & _ & _ & _ & H & _).
    exact H.
Defined.

(** C5. What [callTool] does to [retryCount]. For a registered connection
    it returns a result; when that is a success the entry's [retryCount]
    is 0 afterwards, and when it is a failure the entry's [retryCount] is
    what it was before, where an increment is expected: the adapter has no
    statement that increments the field. *)
Theorem callTool_retryCount
    (serverName toolName : string) (arguments : Json) (a : MCPToolAdapter)
    (connection : ConnectionState) :
  JsMap.get serverName (connections a) = Some connection ->
  exists result connection',
    fst (callTool serverName toolName arguments a) = Returns result /\
    JsMap.get serverName
      (connections (snd (callTool serverName toolName arguments a))) =
      Some connection' /\
    (success result = true -> retryCount connection' = 0%Z) /\
    (success result = false -> retryCount connection' = retryCount connection).
Proof.
  intros Hget. destruct (connected connection) eqn:Hc.
  - rewrite (callTool_live _ _ _ _ connection Hget Hc).
    destruct (on_callTool (sdk a) (ticks a)) as [value | e]; cbn [fst snd].
    + eexists _, _. split; [reflexivity |]. split.
      * cbn. apply get_set_same.
      * split; [reflexivity | discriminate].
    + eexists _, _. split; [reflexivity |]. split.
      * cbn. apply get_set_same.
      * split; [discriminate | reflexivity].
  - rewrite (callTool_disconnected _ _ _ _ connection Hget Hc). cbn [fst snd].
    eexists _, _. split; [reflexivity |]. split; [exact Hget |].
    split; [discriminate | reflexivity].
Qed.

Lemma callTool_retryCount_witness :
  (exists result connection',
     fst (callTool "test-server" "test_tool" "{}"
            (run (CallConnect testConfig)
               (constructor (sdk_calls_fail "Tool call failed") no_overrides))) =
       Returns result /\
     JsMap.get "test-server"
       (connections
          (snd (callTool "test-server" "test_tool" "{}"
                  (run (CallConnect testConfig)
                     (constructor (sdk_calls_fail "Tool call failed") no_overrides))))) =
       Some connection' /\
     (success result = true -> retryCount connection' = 0%Z) /\
     (success result = false -> retryCount connection' = 0%Z)) /\
  (exists result connection',
     fst (callTool "test-server" "test_tool" "{}"
            (with_connections
               [("test-server",
                 {| client := 0; config := testConfig; connected := true;
                    lastActivity := 0; retryCount := 3 |})]
               (constructor sdk_serving no_overrides))) =
       Returns result /\
     JsMap.get "test-server"
       (connections
          (snd (callTool "test-server" "test_tool" "{}"
                  (with_connections
                     [("test-server",
                       {| client := 0; config := testConfig; connected := true;
                          lastActivity := 0; retryCount := 3 |})]
                     (constructor sdk_serving no_overrides))))) =
       Some connection' /\
     (success result = true -> retryCount connection' = 0%Z) /\
     (success result = false -> retryCount connection' = 3%Z)).
Proof.
  split.
  - exact (callTool_retryCount "test-server" "test_tool" "{}"
             (run (CallConnect testConfig)
                (constructor (sdk_calls_fail "Tool call failed") no_overrides))
             {| client := 0; config := testConfig; connected := true;
                lastActivity := 0; retryCount := 0 |} eq_refl).
  - exact (callTool_retryCount "test-server" "test_tool" "{}"
             (with_connections
                [("test-server",
                  {| client := 0; config := testConfig; connected := true;
                     lastActivity := 0; retryCount := 3 |})]
                (constructor sdk_serving no_overrides))
             {| client := 0; config := testConfig; connected := true;
                lastActivity := 0; retryCount := 3 |} eq_refl).
Defined.

(** C5 fails on the code: after a rejected tool call on a connected server,
    the entry's [retryCount] is still 0, not one more than before. *)
Lemma callTool_failure_increments_counterexample :
  exists a connection result a' connection',
    reachable a /\
    JsMap.get "test-server" (connections a) = Some connection /\
    callTool "test-server" "test_tool" "{}" a = (Returns result, a') /\
    success result = false /\
    JsMap.get "test-server" (connections a') = Some connection' /\
    retryCount connection = 0%Z /\
    retryCount connection' = 0%Z /\
    retryCount connection' <> (retryCount connection + 1)%Z.
Proof.
  exists (run (CallConnect testConfig)
            (constructor (sdk_calls_fail "Tool call failed") no_overrides)).
  eexists _, _, _, _.
  split; [apply reachable_call, reachable_new |].
  split; [reflexivity |].
  split; [reflexivity |].
  split; [reflexivity |].
  split; [reflexivity |].
  split; [reflexivity |].
  split; [reflexivity |].
  discriminate.
Qed.

Lemma callToolWithRetry_first_failure
    (serverName toolName : string) (arguments : Json) (a a1 : MCPToolAdapter)
    (result : MCPToolResult) :
  callTool serverName toolName arguments a = (Returns result, a1) ->
  success result = false ->
  isRetryableError (error result) = false ->
  callToolWithRetry serverName toolName arguments a = (Returns result, a1).
Proof.
  intros Hcall Hfail Hfatal.
  unfold callToolWithRetry. run_monad. cbn [callToolWithRetry_loop].
  run_monad. rewrite Hcall, Hfail, Hfatal. reflexivity.
Qed.

(** C1. When the first [callTool] of [callToolWithRetry] returns a failure
    whose message is not retryable, [callToolWithRetry] returns that very
    result in the state that single [callTool] left, for every retry
    configuration: one [callTool] was made, no sleep, no reconnect. *)
Theorem callToolWithRetry_non_retryable
    (serverName toolName : string) (arguments : Json) (a a1 : MCPToolAdapter)
    (result : MCPToolResult) :
  callTool serverName toolName arguments a = (Returns result, a1) ->
  success result = false ->
  isRetryableError (error result) = false ->
  callToolWithRetry serverName toolName arguments a = (Returns result, a1) /\
  invoke_attempts
    (events_since a (snd (callToolWithRetry serverName toolName arguments a))) = 1 /\
  sleeps
    (events_since a (snd (callToolWithRetry serverName toolName arguments a))) = [] /\
  connect_attempts
    (events_since a (snd (callToolWithRetry serverName toolName arguments a))) = 0.
Proof.
  intros Hcall Hfail Hfatal.
  pose proof (callToolWithRetry_first_failure _ _ _ _ _ _ Hcall Hfail Hfatal) as Hrun.
  split; [exact Hrun |]. rewrite Hrun. cbn [snd].
  destruct (callTool_frame serverName toolName arguments a)
    as (evs & Htrace & _ & Hinvoke & Hconnect & Hsleep & _).
  rewrite Hcall in Htrace. cbn [snd] in Htrace.
  rewrite (events_since_app _ _ _ Htrace). auto.
Qed.

Lemma callToolWithRetry_non_retryable_witness :
  invoke_attempts
    (events_since
       (run (CallConnect testConfig)
          (constructor (sdk_calls_fail "Invalid argument") no_overrides))
       (snd (callToolWithRetry "test-server" "test_tool" "{}"
               (run (CallConnect testConfig)
                  (constructor (sdk_calls_fail "Invalid argument") no_overrides))))) = 1.
Proof.
  refine (proj1 (proj2 (callToolWithRetry_non_retryable "test-server" "test_tool" "{}"
            (run (CallConnect testConfig)
               (constructor (sdk_calls_fail "Invalid argument") no_overrides))
            _ _ eq_refl eq_refl eq_refl))).
Defined.

(** ** [connect] and [disconnect] *)

Lemma all_connected_get (a : MCPToolAdapter) (k : string) (c : ConnectionState) :
  all_connected a -> JsMap.get k (connections a) = Some c -> connected c = true.
Proof.
  unfold all_connected; intros Hall Hget.
  apply get_In in Hget. rewrite Forall_forall in Hall.
  exact (Hall _ Hget).
Qed.

Ltac frame_events :=
  eexists; split; [cbn; rewrite <- ?app_assoc; reflexivity |].

(** What one [connect] adds to the trace, what it leaves alone, and what a
    failure means. *)
Lemma connect_frame (cfg : MCPServerConfig) (a : MCPToolAdapter) :
  exists evs,
    trace (snd (connect cfg a)) = trace a ++ evs /\
    retryConfig (snd (connect cfg a)) = retryConfig a /\
    connect_attempts evs = 1 /\ invoke_attempts evs = 0 /\ sleeps evs = [] /\
    match fst (connect cfg a) with
    | Throws e => handshakes evs = [Rejects e]
    | Returns _ => handshakes evs = [] \/ handshakes evs = [Resolves tt]
    end /\
    (all_connected a -> all_connected (snd (connect cfg a))) /\
    (all_connected a -> forall e, fst (connect cfg a) = Throws e ->
       connections (snd (connect cfg a)) = connections a /\
       JsMap.get (name cfg) (connections a) = None /\
       on_connect (sdk a) (ticks a) = Rejects e).
Proof.
  unfold connect, establish, disconnect. run_monad. simpl.
  destruct (JsMap.get (name cfg) (connections a)) as [existing|] eqn:Hget; simpl.
  - destruct (connected existing) eqn:Hc; simpl.
    + frame_events. repeat split; auto; discriminate.
    + rewrite Hget. simpl.
      destruct (on_connect (sdk a) (S (ticks a))) as [[]|e] eqn:Hreply; simpl;
        frame_events; rewrite ?Hreply; (repeat split; auto);
        try (intros Hall; now rewrite (all_connected_get _ _ _ Hall Hget) in Hc);
        match goal with
        | Hall : all_connected _ |- _ =>
            now rewrite (all_connected_get _ _ _ Hall Hget) in Hc
        end.
  - destruct (on_connect (sdk a) (ticks a)) as [[]|e] eqn:Hreply; simpl;
      frame_events; rewrite ?Hreply; (repeat split; auto); try discriminate.
    + intros Hall. now apply Forall_set.
    + congruence.
Qed.

Lemma disconnect_all_connected (serverName : string) (a : MCPToolAdapter) :
  all_connected a -> all_connected (snd (disconnect serverName a)).
Proof.
  unfold disconnect. run_monad. simpl.
  destruct (JsMap.get serverName (connections a)); simpl; [| auto].
  intros Hall. now apply Forall_delete.
Qed.

(** A [connect] for a name that is not registered, whose handshake is
    rejected. *)
Lemma connect_rejected_run (cfg : MCPServerConfig) (a : MCPToolAdapter) (e : JsError) :
  JsMap.get (name cfg) (connections a) = None ->
  on_connect (sdk a) (ticks a) = Rejects e ->
  connect cfg a = (Throws e, after_failed_connect cfg a).
Proof.
  intros Hget Hreply. unfold connect, establish, after_failed_connect. run_monad.
  cbn. rewrite Hget. cbn. rewrite Hreply. cbn.
  unfold with_trace, with_ticks. cbn. now rewrite <- app_assoc.
Qed.

(** ** The retry loops *)

Ltac conjuncts := repeat match goal with |- _ /\ _ => split end.

Lemma last_default_irrelevant {A : Type} (l : list A) (x d d' : A) :
  last (x :: l) d = last (x :: l) d'.
Proof.
  revert x; induction l as [|y l IH]; intros x; [reflexivity |].
  change (last (y :: l) d = last (y :: l) d'). apply IH.
Qed.

Lemma backoff_from_S (policy : RetryConfig) (delay : Z) (count : nat) :
  backoff_from policy delay (S count) =
  delay :: backoff_from policy
             (Z.min (delay * backoffMultiplier policy) (maxDelayMs policy)) count.
Proof. reflexivity. Qed.

Lemma connectWithRetry_loop_spec (cfg : MCPServerConfig) :
  forall (remaining attempt : nat) (delay : Z) (lastError : option JsError)
         (a : MCPToolAdapter),
    attempt + remaining = S (maxRetries (retryConfig a)) ->
    exists evs,
      trace (snd (connectWithRetry_loop cfg remaining attempt delay lastError a)) =
        trace a ++ evs /\
      retryConfig (snd (connectWithRetry_loop cfg remaining attempt delay lastError a)) =
        retryConfig a /\
      connect_attempts evs <= remaining /\
      (0 < remaining -> 0 < connect_attempts evs) /\
      List.length (handshakes evs) <= remaining /\
      invoke_attempts evs = 0 /\
      sleeps evs = backoff_from (retryConfig a) delay (connect_attempts evs - 1) /\
      (all_connected a ->
       all_connected (snd (connectWithRetry_loop cfg remaining attempt delay lastError a))) /\
      (forall e,
         fst (connectWithRetry_loop cfg remaining attempt delay lastError a) = Throws e ->
         connect_attempts evs = remaining /\
         exists errs,
           handshakes evs = map Rejects errs /\
           List.length errs = remaining /\
           message e =
             exhausted_message cfg (retryConfig a)
               (last (map Some errs) lastError)).
Proof.
  induction remaining as [|remaining IH]; intros attempt delay lastError a Hinv.
  - exists []. cbn [connectWithRetry_loop]. run_monad. cbn [fst snd].
    rewrite app_nil_r. conjuncts; auto; try lia.
    intros e [= <-]. split; [reflexivity |]. exists []. repeat split.
  - cbn [connectWithRetry_loop]. unfold try_catch.
    destruct (connect_frame cfg a)
      as (evs1 & Htrace1 & Hcfg1 & Hconn1 & Hinv1 & Hsleep1 & Hhs1 & Hall1 & _).
    destruct (connect cfg a) as [[[]|e1] a1] eqn:Hconnect; cbn [fst snd] in *.
    + exists evs1. rewrite Hconn1. conjuncts; auto; try lia.
      * destruct Hhs1 as [-> | ->]; simpl; lia.
      * discriminate.
    + run_monad. rewrite Hcfg1.
      destruct (attempt <? maxRetries (retryConfig a))%nat eqn:Hlt.
      * apply Nat.ltb_lt in Hlt.
        match goal with
        | |- context [connectWithRetry_loop cfg remaining ?n ?d ?l ?s] =>
            remember s as a2 eqn:Ha2
        end.
        assert (Htr : trace a2 = trace a1 ++ [EvSleep delay]) by now rewrite Ha2.
        assert (Hrc : retryConfig a2 = retryConfig a1) by now rewrite Ha2.
        assert (Hco : connections a2 = connections a1) by now rewrite Ha2.
        match goal with
        | |- context [connectWithRetry_loop cfg remaining ?n ?d ?l a2] =>
            destruct (IH n d l a2) as
              (evs2 & Htrace2 & Hcfg2 & Hconn2 & Hpos2 & Hlen2 & Hinv2 & Hsleep2 & Hall2 & Hthrow2);
            [rewrite Hrc, Hcfg1; lia |]
        end.
        exists (evs1 ++ EvSleep delay :: evs2).
        rewrite Htrace2, Hcfg2, Htr, Hrc, Htrace1, Hcfg1.
        rewrite Hrc, Hcfg1 in Hsleep2, Hthrow2.
        unfold all_connected in Hall2 |- *. rewrite Hco in Hall2.
        rewrite connect_attempts_app, invoke_attempts_app, sleeps_app, handshakes_app.
        change (EvSleep delay :: evs2) with ([EvSleep delay] ++ evs2).
        rewrite connect_attempts_app, invoke_attempts_app, sleeps_app, handshakes_app.
        rewrite Hconn1, Hinv1, Hsleep1, Hhs1, Hinv2, Hsleep2. cbn.
        assert (Hpos : 0 < connect_attempts evs2) by (apply Hpos2; lia).
        split; [now rewrite <- !app_assoc |].
        split; [reflexivity |]. split; [lia |]. split; [lia |]. split; [lia |].
        split; [reflexivity |].
        split.
        { destruct (connect_attempts evs2) as [|k]; [lia |].
          cbn. now rewrite Nat.sub_0_r. }
        split; [intros Hall; exact (Hall2 (Hall1 Hall)) |].
        intros e He. destruct (Hthrow2 e He) as (Hcount & errs & Hhs2 & Hlen & Hmsg).
        split; [lia |]. exists (e1 :: errs). rewrite Hhs2. cbn.
        split; [reflexivity |]. split; [lia |].
        rewrite Hmsg. f_equal. destruct errs as [|j errs]; [reflexivity |].
        change (last (map Some (j :: errs)) (Some e1) =
                last (map Some (j :: errs)) lastError).
        apply last_default_irrelevant.
      * apply Nat.ltb_ge in Hlt.
        assert (remaining = 0) by lia. subst remaining.
        exists evs1. cbn [connectWithRetry_loop]. run_monad. cbn [fst snd].
        rewrite Hconn1, Hhs1. cbn. conjuncts; auto.
        intros e [= <-]. split; [reflexivity |]. exists [e1]. cbn.
        rewrite Hcfg1. repeat split.
Qed.

Lemma last_snoc_Some {A : Type} (l : list A) (x : A) (d : option A) :
  last (map Some (l ++ [x])) d = Some x.
Proof.
  rewrite map_app. apply last_last.
Qed.

(** When the handshakes of all remaining attempts are rejected, the loop
    ends by throwing. *)
Lemma connectWithRetry_loop_throws (cfg : MCPServerConfig) :
  forall (remaining attempt : nat) (delay : Z) (lastError : option JsError)
         (a : MCPToolAdapter),
    JsMap.get (name cfg) (connections a) = None ->
    handshake_rejections a remaining ->
    exists e,
      fst (connectWithRetry_loop cfg remaining attempt delay lastError a) = Throws e.
Proof.
  induction remaining as [|remaining IH]; intros attempt delay lastError a Hget Hrej.
  - cbn [connectWithRetry_loop]. run_monad. cbn [fst]. eauto.
  - cbn [connectWithRetry_loop]. unfold try_catch.
    destruct (Hrej 0 (Nat.lt_0_succ _)) as (e1 & He1). rewrite Nat.add_0_r in He1.
    rewrite (connect_rejected_run cfg a e1 Hget He1). run_monad.
    assert (Hnext : forall a2 : MCPToolAdapter,
              connections a2 = connections a -> sdk a2 = sdk a ->
              ticks a2 = S (ticks a) ->
              JsMap.get (name cfg) (connections a2) = None /\
              handshake_rejections a2 remaining).
    { intros a2 Hco Hsdk Hticks. split; [now rewrite Hco |].
      intros i Hi. destruct (Hrej (S i) (proj1 (Nat.succ_lt_mono _ _) Hi)) as (e' & He').
      exists e'. rewrite Hsdk, Hticks.
      now replace (S (ticks a) + i) with (ticks a + S i) by lia. }
    destruct (attempt <? maxRetries (retryConfig (after_failed_connect cfg a)))%nat.
    + match goal with
      | |- context [connectWithRetry_loop cfg remaining ?n ?d ?l ?s] =>
          destruct (Hnext s eq_refl eq_refl eq_refl) as [Hget2 Hrej2];
          exact (IH n d l s Hget2 Hrej2)
      end.
    + destruct (Hnext (after_failed_connect cfg a) eq_refl eq_refl eq_refl)
        as [Hget2 Hrej2].
      exact (IH _ _ _ _ Hget2 Hrej2).
Qed.

(** When the loop returns, it has not seen a rejected handshake in each of
    its attempts. *)
Lemma connectWithRetry_loop_returns_early (cfg : MCPServerConfig) :
  forall (remaining attempt : nat) (delay : Z) (lastError : option JsError)
         (a : MCPToolAdapter),
    exists evs,
      trace (snd (connectWithRetry_loop cfg remaining attempt delay lastError a)) =
        trace a ++ evs /\
      (fst (connectWithRetry_loop cfg remaining attempt delay lastError a) = Returns tt ->
       forall errs, handshakes evs = map Rejects errs -> List.length errs < remaining).
Proof.
  induction remaining as [|remaining IH]; intros attempt delay lastError a.
  - exists []. cbn [connectWithRetry_loop]. run_monad. cbn [fst snd].
    rewrite app_nil_r. split; [reflexivity | discriminate].
  - cbn [connectWithRetry_loop]. unfold try_catch.
    destruct (connect_frame cfg a)
      as (evs1 & Htrace1 & _ & _ & _ & _ & Hhs1 & _).
    destruct (connect cfg a) as [[[]|e1] a1] eqn:Hconnect; cbn [fst snd] in *.
    + exists evs1. split; [exact Htrace1 |]. intros _ errs Herrs.
      destruct Hhs1 as [Hhs1 | Hhs1]; rewrite Hhs1 in Herrs.
      * destruct errs; [cbn; lia | discriminate].
      * destruct errs as [|e [|e' errs]]; discriminate.
    + run_monad.
      assert (Hnext : forall (a2 : MCPToolAdapter) (mid : list Event) n d l,
                trace a2 = trace a1 ++ mid -> handshakes mid = [] ->
                exists evs,
                  trace (snd (connectWithRetry_loop cfg remaining n d l a2)) =
                    trace a ++ evs /\
                  (fst (connectWithRetry_loop cfg remaining n d l a2) = Returns tt ->
                   forall errs, handshakes evs = map Rejects errs ->
                                List.length errs < S remaining)).
      { intros a2 mid n d l Htr Hmid.
        destruct (IH n d l a2) as (evs2 & Htrace2 & Hret2).
        exists (evs1 ++ mid ++ evs2). split.
        - rewrite Htrace2, Htr, Htrace1. now rewrite <- !app_assoc.
        - intros Hret errs. rewrite !handshakes_app, Hhs1, Hmid. cbn.
          destruct errs as [|e errs]; [discriminate |].
          cbn [map]. intros [= _ Herrs]. specialize (Hret2 Hret errs Herrs).
          cbn. lia. }
      destruct (attempt <? maxRetries (retryConfig a1))%nat.
      * apply (Hnext _ [EvSleep delay]); reflexivity.
      * apply (Hnext a1 []); [now rewrite app_nil_r | reflexivity].
Qed.

(** C2. [connectWithRetry] enters [connect] at most [maxRetries + 1] times
    and makes at most that many handshakes. When it throws, it has entered
    [connect] exactly [maxRetries + 1] times, every one of the
    [maxRetries + 1] handshakes was rejected, and the message of the error
    is "Failed to connect to <name> after <maxRetries + 1> attempts: "
    followed by the message of the last rejection. And it does throw on
    exhaustion: whenever its run has made [maxRetries + 1] handshakes that
    were all rejected, and in particular when the name is not registered
    and the SDK rejects the next [maxRetries + 1] handshakes. *)
Theorem connectWithRetry_attempts (cfg : MCPServerConfig) (a : MCPToolAdapter) :
  let n := maxRetries (retryConfig a) in
  let evs := events_since a (snd (connectWithRetry cfg a)) in
  connect_attempts evs <= n + 1 /\
  List.length (handshakes evs) <= n + 1 /\
  (forall e,
     fst (connectWithRetry cfg a) = Throws e ->
     connect_attempts evs = n + 1 /\
     exists errs cause,
       handshakes evs = map Rejects (errs ++ [cause]) /\
       List.length (errs ++ [cause]) = n + 1 /\
       message e =
         ("Failed to connect to " ++ name cfg ++ " after " ++
          JsString.of_nat (n + 1) ++ " attempts: " ++ message cause)%string) /\
  ((exists errs, handshakes evs = map Rejects errs /\ List.length errs = n + 1) ->
   exists e, fst (connectWithRetry cfg a) = Throws e) /\
  (JsMap.get (name cfg) (connections a) = None ->
   handshake_rejections a (n + 1) ->
   exists e, fst (connectWithRetry cfg a) = Throws e).
Proof.
  cbv zeta. unfold connectWithRetry. run_monad.
  destruct (connectWithRetry_loop_spec cfg (S (maxRetries (retryConfig a))) 0
              (initialDelayMs (retryConfig a)) None a eq_refl)
    as (evs & Htrace & _ & Hconn & _ & Hlen & _ & _ & _ & Hthrow).
  rewrite (events_since_app _ _ _ Htrace).
  split; [lia |]. split; [lia |]. split; [| split].
  - intros e He. destruct (Hthrow e He) as (Hcount & errs & Hhs & Hn & Hmsg).
    split; [lia |].
    destruct (exists_last (l := errs)) as (errs' & cause & ->).
    { intros ->. discriminate Hn. }
    exists errs', cause. split; [exact Hhs |]. split; [lia |].
    rewrite Hmsg. unfold exhausted_message. now rewrite last_snoc_Some.
  - intros (errs & Hhs & Hn).
    destruct (connectWithRetry_loop_returns_early cfg (S (maxRetries (retryConfig a))) 0
                (initialDelayMs (retryConfig a)) None a) as (evs' & Htrace' & Hearly).
    assert (evs' = evs) by (rewrite Htrace in Htrace'; now apply app_inv_head in Htrace').
    subst evs'.
    destruct (fst (connectWithRetry_loop cfg _ _ _ _ a)) as [[]|e]; [| eauto].
    specialize (Hearly eq_refl errs Hhs). lia.
  - intros Hget Hrej. apply connectWithRetry_loop_throws; [exact Hget |].
    now rewrite Nat.add_1_r in Hrej.
Qed.

(** The unit test "should fail after max retries", on the default
    configuration: four rejected handshakes, then the error. *)
Lemma connectWithRetry_attempts_witness :
  (exists e,
     fst (connectWithRetry testConfig
            (constructor (sdk_refusing "Connection failed") no_overrides)) = Throws e) /\
  connect_attempts
    (events_since (constructor (sdk_refusing "Connection failed") no_overrides)
       (snd (connectWithRetry testConfig
               (constructor (sdk_refusing "Connection failed") no_overrides)))) =
  3 + 1.
Proof.
  pose proof (connectWithRetry_attempts testConfig
                (constructor (sdk_refusing "Connection failed") no_overrides))
    as (_ & _ & Hthrown & _ & Hthrows).
  split.
  - apply Hthrows; [reflexivity |].
    intros i _. now exists {| message := "Connection failed" |}.
  - exact (proj1 (Hthrown
             {| message :=
                "Failed to connect to test-server after 4 attempts: Connection failed" |}
             eq_refl)).
Defined.

(** The unit test "should fail after max retries". *)
Example connectWithRetry_fails_after_max_retries :
  fst (connectWithRetry testConfig
         (constructor (sdk_refusing "Connection failed")
            {| maxRetries_opt := Some 2; initialDelayMs_opt := Some 10%Z;
               maxDelayMs_opt := Some 100%Z; backoffMultiplier_opt := None |})) =
  Throws {| message :=
    "Failed to connect to test-server after 3 attempts: Connection failed" |}.
Proof. reflexivity. Qed.

Lemma bind_run {A B : Type} (m : M A) (k : A -> M B) (a : MCPToolAdapter) :
  bind m k a =
  match m a with
  | (Returns x, a') => k x a'
  | (Throws e, a') => (Throws e, a')
  end.
Proof. reflexivity. Qed.

Lemma callTool_all_connected (serverName toolName : string) (arguments : Json)
    (a : MCPToolAdapter) :
  all_connected a -> all_connected (snd (callTool serverName toolName arguments a)).
Proof.
  intros Hall.
  destruct (JsMap.get serverName (connections a)) as [c|] eqn:Hget.
  - destruct (connected c) eqn:Hc.
    + rewrite (callTool_live _ _ _ _ c Hget Hc).
      destruct (on_callTool (sdk a) (ticks a)); cbn [snd];
        unfold all_connected; cbn; now apply Forall_set.
    + now rewrite (callTool_disconnected _ _ _ _ c Hget Hc).
  - now rewrite (callTool_absent _ _ _ _ Hget).
Qed.

Lemma reconnect_if_lost_frame (serverName : string) (a : MCPToolAdapter) :
  exists evs,
    fst (reconnect_if_lost serverName a) = Returns tt /\
    trace (snd (reconnect_if_lost serverName a)) = trace a ++ evs /\
    retryConfig (snd (reconnect_if_lost serverName a)) = retryConfig a /\
    invoke_attempts evs = 0 /\ sleeps evs = [] /\
    (all_connected a -> evs = []) /\
    (all_connected a -> all_connected (snd (reconnect_if_lost serverName a))).
Proof.
  unfold reconnect_if_lost. run_monad.
  destruct (JsMap.get serverName (connections a)) as [c|] eqn:Hget.
  - destruct (connected c) eqn:Hc; cbn [negb].
    + exists []. rewrite app_nil_r. cbn. auto 10.
    + destruct (connect_frame (config c) a)
        as (evs & Htrace & Hcfg & _ & Hinv & Hsleep & _ & Hall & _).
      exists evs. destruct (connect (config c) a) as [[[]|e] a1]; cbn [fst snd] in *;
        conjuncts; auto;
        intros Hall'; now rewrite (all_connected_get _ _ _ Hall' Hget) in Hc.
  - exists []. rewrite app_nil_r. cbn. auto 10.
Qed.

Lemma callToolWithRetry_loop_spec (serverName toolName : string) (arguments : Json) :
  forall (remaining attempt : nat) (delay : Z) (lastError : option string)
         (a : MCPToolAdapter),
    attempt + remaining = S (maxRetries (retryConfig a)) ->
    exists evs,
      trace (snd (callToolWithRetry_loop serverName toolName arguments
                    remaining attempt delay lastError a)) = trace a ++ evs /\
      retryConfig (snd (callToolWithRetry_loop serverName toolName arguments
                          remaining attempt delay lastError a)) = retryConfig a /\
      invoke_attempts evs <= remaining /\
      (0 < remaining -> 0 < invoke_attempts evs) /\
      sleeps evs = backoff_from (retryConfig a) delay (invoke_attempts evs - 1) /\
      (all_connected a ->
       all_connected (snd (callToolWithRetry_loop serverName toolName arguments
                             remaining attempt delay lastError a))).
Proof.
  induction remaining as [|remaining IH]; intros attempt delay lastError a Hinv.
  - exists []. cbn [callToolWithRetry_loop]. run_monad. cbn [fst snd].
    rewrite app_nil_r. conjuncts; auto; lia.
  - cbn [callToolWithRetry_loop]. rewrite bind_run.
    destruct (callTool_frame serverName toolName arguments a)
      as (evs1 & Htrace1 & Hcfg1 & Hinv1 & _ & Hsleep1 & _).
    pose proof (callTool_all_connected serverName toolName arguments a) as Hall1.
    destruct (callTool_returns serverName toolName arguments a) as (result & Hres).
    destruct (callTool serverName toolName arguments a) as [r1 a1] eqn:Hcall.
    cbn [fst snd] in *. subst r1.
    assert (Hstop : exists evs,
              trace a1 = trace a ++ evs /\ retryConfig a1 = retryConfig a /\
              invoke_attempts evs <= S remaining /\
              (0 < S remaining -> 0 < invoke_attempts evs) /\
              sleeps evs = backoff_from (retryConfig a) delay (invoke_attempts evs - 1) /\
              (all_connected a -> all_connected a1)).
    { exists evs1. rewrite Hinv1, Hsleep1. conjuncts; auto; lia. }
    destruct (success result); [exact Hstop |].
    destruct (isRetryableError (error result)); cbn [negb]; [| exact Hstop].
    clear Hstop. rewrite bind_run.
    destruct (reconnect_if_lost_frame serverName a1)
      as (evs2 & Hret2 & Htrace2 & Hcfg2 & Hinv2 & Hsleep2 & _ & Hall2).
    destruct (reconnect_if_lost serverName a1) as [r2 a2] eqn:Hrec.
    cbn [fst snd] in *. subst r2. run_monad. rewrite Hcfg2, Hcfg1.
    destruct (attempt <? maxRetries (retryConfig a))%nat eqn:Hlt.
    + apply Nat.ltb_lt in Hlt.
      match goal with
      | |- context [callToolWithRetry_loop _ _ _ remaining ?n ?d ?l ?s] =>
          remember s as a3 eqn:Ha3
      end.
      assert (Htr : trace a3 = trace a2 ++ [EvSleep delay]) by now rewrite Ha3.
      assert (Hrc : retryConfig a3 = retryConfig a2) by now rewrite Ha3.
      assert (Hco : connections a3 = connections a2) by now rewrite Ha3.
      match goal with
      | |- context [callToolWithRetry_loop _ _ _ remaining ?n ?d ?l a3] =>
          destruct (IH n d l a3) as
            (evs3 & Htrace3 & Hcfg3 & Hinv3 & Hpos3 & Hsleep3 & Hall3);
          [rewrite Hrc, Hcfg2, Hcfg1; lia |]
      end.
      exists (evs1 ++ evs2 ++ EvSleep delay :: evs3).
      rewrite Htrace3, Hcfg3, Htr, Hrc, Htrace2, Hcfg2, Htrace1, Hcfg1.
      rewrite Hrc, Hcfg2, Hcfg1 in Hsleep3.
      unfold all_connected in Hall3 |- *. rewrite Hco in Hall3.
      change (EvSleep delay :: evs3) with ([EvSleep delay] ++ evs3).
      rewrite !invoke_attempts_app, !sleeps_app.
      rewrite Hinv1, Hinv2, Hsleep1, Hsleep2, Hsleep3. cbn.
      assert (Hpos : 0 < invoke_attempts evs3) by (apply Hpos3; lia).
      split; [now rewrite <- !app_assoc |].
      split; [reflexivity |]. split; [lia |]. split; [lia |].
      split.
      { destruct (invoke_attempts evs3) as [|k]; [lia |].
        cbn. now rewrite Nat.sub_0_r. }
      intros Hall. exact (Hall3 (Hall2 (Hall1 Hall))).
    + apply Nat.ltb_ge in Hlt.
      assert (remaining = 0) by lia. subst remaining.
      exists (evs1 ++ evs2). cbn [callToolWithRetry_loop]. run_monad. cbn [fst snd].
      rewrite Htrace2, Htrace1, Hcfg2, Hcfg1, invoke_attempts_app, sleeps_app.
      rewrite Hinv1, Hinv2, Hsleep1, Hsleep2. cbn.
      conjuncts; auto. now rewrite <- app_assoc.
Qed.

(** ** Backoff: the recurrence against the closed form *)

Section Backoff.
Local Open Scope Z_scope.




Lemma delays_length (policy : RetryConfig) :
  List.length (delays policy) = maxRetries policy.
Proof. unfold delays. now rewrite length_map, length_seq. Qed.


Lemma delays_capped (policy : RetryConfig) :
  Forall (fun d => d <= maxDelayMs policy) (delays policy).
Proof.
  unfold delays. apply Forall_map, Forall_forall. intros i _. apply Z.le_min_r.
Qed.


End Backoff.




(** ** The registry invariant *)

Lemma listTools_all_connected (serverName : string) (a : MCPToolAdapter) :
  all_connected a -> all_connected (snd (listTools serverName a)).
Proof.
  intros Hall. unfold listTools. run_monad.
  destruct (JsMap.get serverName (connections a)) as [c|] eqn:Hget; [| exact Hall].
  destruct (connected c) eqn:Hc; cbn [negb]; [| exact Hall].
  rewrite Hget. cbn.
  destruct (on_listTools (sdk a) (ticks a)); cbn;
    unfold all_connected; cbn; now apply Forall_set.
Qed.

Lemma listAllTools_loop_all_connected (serverNames : list string) :
  forall allTools a,
    all_connected a -> all_connected (snd (listAllTools_loop serverNames allTools a)).
Proof.
  induction serverNames as [|serverName rest IH]; intros allTools a Hall.
  - exact Hall.
  - cbn [listAllTools_loop]. rewrite bind_run.
    pose proof (listTools_all_connected serverName a Hall) as H1.
    destruct (listTools serverName a) as [[tools|e] a1]; cbn [snd] in *.
    + now apply IH.
    + exact H1.
Qed.

Lemma disconnect_each_all_connected (serverNames : list string) :
  forall a, all_connected a -> all_connected (snd (disconnect_each serverNames a)).
Proof.
  induction serverNames as [|serverName rest IH]; intros a Hall.
  - exact Hall.
  - cbn [disconnect_each]. rewrite bind_run.
    pose proof (disconnect_all_connected serverName a Hall) as H1.
    destruct (disconnect serverName a) as [[[]|e] a1]; cbn [snd] in *.
    + now apply IH.
    + exact H1.
Qed.

(** Every method keeps the invariant. *)
Lemma run_all_connected (c : Call) (a : MCPToolAdapter) :
  all_connected a -> all_connected (run c a).
Proof.
  intros Hall. destruct c as [cfg | cfg | s t args | s t args | s | | s |]; cbn [run].
  - destruct (connect_frame cfg a) as (_ & _ & _ & _ & _ & _ & _ & H & _). auto.
  - unfold connectWithRetry. run_monad.
    destruct (connectWithRetry_loop_spec cfg (S (maxRetries (retryConfig a))) 0
                (initialDelayMs (retryConfig a)) None a eq_refl)
      as (_ & _ & _ & _ & _ & _ & _ & _ & H & _). auto.
  - now apply callTool_all_connected.
  - unfold callToolWithRetry. run_monad.
    destruct (callToolWithRetry_loop_spec s t args (S (maxRetries (retryConfig a))) 0
                (initialDelayMs (retryConfig a)) None a eq_refl)
      as (_ & _ & _ & _ & _ & _ & H). auto.
  - now apply listTools_all_connected.
  - unfold listAllTools. run_monad. now apply listAllTools_loop_all_connected.
  - now apply disconnect_all_connected.
  - unfold disconnectAll. run_monad. now apply disconnect_each_all_connected.
Qed.

Lemma reachable_all_connected (a : MCPToolAdapter) :
  reachable a -> all_connected a.
Proof.
  induction 1 as [world partial | c a _ IH].
  - constructor.
  - now apply run_all_connected.
Qed.

Lemma connect_all_settled_reachable (configs : list MCPServerConfig) :
  forall a, reachable a -> reachable (connect_all_settled configs a).
Proof.
  induction configs as [|config rest IH]; intros a Ha; [exact Ha |].
  cbn [connect_all_settled]. apply IH.
  exact (reachable_call (CallConnectWithRetry config) a Ha).
Qed.

Lemma createMCPToolAdapter_reachable (world : Sdk)
    (processEnv inherited : string -> option string)
    (mcpServers : list (string * MCPConfigEntry)) (partial : PartialRetryConfig) :
  reachable (createMCPToolAdapter world processEnv inherited mcpServers partial).
Proof.
  apply connect_all_settled_reachable, reachable_new.
Qed.

Lemma all_connected_filter (a : MCPToolAdapter) :
  all_connected a -> getConnectedServers a = JsMap.keys (connections a).
Proof.
  unfold all_connected, getConnectedServers, JsMap.keys.
  induction 1 as [|entry m Hentry _ IH]; [reflexivity |].
  cbn [filter]. rewrite Hentry. cbn [map]. now rewrite IH.
Qed.

Lemma isConnected_registered (a : MCPToolAdapter) (serverName : string) :
  all_connected a ->
  (isConnected a serverName = true <-> In serverName (JsMap.keys (connections a))).
Proof.
  intros Hall. unfold isConnected.
  destruct (JsMap.get serverName (connections a)) as [c|] eqn:Hget.
  - rewrite (all_connected_get _ _ _ Hall Hget). split; [intros _ | reflexivity].
    apply get_In in Hget. unfold JsMap.keys.
    change serverName with (fst (serverName, c)). now apply in_map.
  - apply get_None_keys in Hget. split; [discriminate | contradiction].
Qed.

(** C9. Every registry entry of an adapter has [connected = true]: a new
    adapter has no entry and every method keeps the property. Hence, for
    an adapter a program can hold, [isConnected(name)] holds exactly for
    the registered names, [getConnectedServers()] is the list of registered
    names, and the guard of [callTool]'s "is disconnected" branch,
    [!connection.connected], is never true. *)
Theorem registry_entries_connected :
  (forall world partial, all_connected (constructor world partial)) /\
  (forall c a, all_connected a -> all_connected (run c a)) /\
  (forall a,
     reachable a ->
     all_connected a /\
     (forall serverName,
        isConnected a serverName = true <->
        In serverName (JsMap.keys (connections a))) /\
     getConnectedServers a = JsMap.keys (connections a) /\
     (forall serverName connection,
        JsMap.get serverName (connections a) = Some connection ->
        negb (connected connection) = false)).
Proof.
  split; [intros; constructor |]. split; [exact run_all_connected |].
  intros a Hreach. pose proof (reachable_all_connected a Hreach) as Hall.
  split; [exact Hall |].
  split; [intros serverName; now apply isConnected_registered |].
  split; [now apply all_connected_filter |].
  intros serverName connection Hget.
  now rewrite (all_connected_get _ _ _ Hall Hget).
Qed.

Lemma registry_entries_connected_witness :
  getConnectedServers
    (run (CallCallTool "test-server" "test_tool" "{}")
       (run (CallConnect testConfig) (constructor sdk_serving no_overrides))) =
  ["test-server"].
Proof.
  exact (proj1 (proj2 (proj2 (proj2 (proj2 registry_entries_connected) _
           (reachable_call (CallCallTool "test-server" "test_tool" "{}") _
              (reachable_call (CallConnect testConfig) _
                 (reachable_new sdk_serving no_overrides))))))).
Defined.

(** C6. On an adapter a program can hold, a [connect] that throws has
    thrown the rejection of its handshake, and leaves the registry exactly
    as it was; and whenever the name is not registered and the handshake
    is rejected, [connect] throws. *)
Theorem connect_failure_keeps_registry (cfg : MCPServerConfig) (a : MCPToolAdapter) :
  reachable a ->
  (forall e,
     fst (connect cfg a) = Throws e ->
     handshakes (events_since a (snd (connect cfg a))) = [Rejects e] /\
     connections (snd (connect cfg a)) = connections a) /\
  (forall e,
     JsMap.get (name cfg) (connections a) = None ->
     on_connect (sdk a) (ticks a) = Rejects e ->
     fst (connect cfg a) = Throws e /\
     connections (snd (connect cfg a)) = connections a).
Proof.
  intros Hreach. pose proof (reachable_all_connected a Hreach) as Hall.
  destruct (connect_frame cfg a) as (evs & Htrace & _ & _ & _ & _ & Hhs & _ & Hfail).
  split.
  - intros e He. rewrite (events_since_app _ _ _ Htrace). rewrite He in Hhs.
    split; [exact Hhs |]. now destruct (Hfail Hall e He).
  - intros e Hget Hreply.
    assert (He : fst (connect cfg a) = Throws e).
    { unfold connect, establish. run_monad. cbn. rewrite Hget. cbn.
      now rewrite Hreply. }
    split; [exact He |]. now destruct (Hfail Hall e He).
Qed.

(** Outside the reachable adapters the clean-up of [connect] shows: an
    entry whose [connected] is false is removed before the handshake, and
    stays removed when the handshake is rejected. *)
Example connect_failure_on_stale_entry :
  JsMap.keys (connections (stale_adapter (sdk_refusing "Connection failed"))) =
    ["test-server"] /\
  fst (connect testConfig (stale_adapter (sdk_refusing "Connection failed"))) =
    Throws {| message := "Connection failed" |} /\
  connections (snd (connect testConfig (stale_adapter (sdk_refusing "Connection failed")))) =
    [].
Proof. repeat split; reflexivity. Qed.

Lemma connect_failure_keeps_registry_witness :
  connections
    (snd (connect testConfig (constructor (sdk_refusing "Connection failed") no_overrides))) =
  [].
Proof.
  exact (proj2 (proj1 (connect_failure_keeps_registry testConfig
                         (constructor (sdk_refusing "Connection failed") no_overrides)
                         (reachable_new _ _))
                  {| message := "Connection failed" |} eq_refl)).
Defined.

(** ** The "not connected" message and the classifier *)

Section MessageAroundName.
Import JsString.
Local Open Scope string_scope.

Lemma starts_with_ci_before (w s post : string) (b : ascii) :
  avoids b w = true ->
  starts_with_ci w (s ++ String b post) = starts_with_ci w s.
Proof.
  revert s; induction w as [|a w IH]; intros s Hw; [reflexivity |].
  cbn [avoids] in Hw. apply andb_true_iff in Hw as [Hab Hw].
  apply negb_true_iff in Hab.
  destruct s as [|c s].
  - change ("" ++ String b post) with (String b post).
    cbn [starts_with_ci]. now rewrite Hab.
  - change (String c s ++ String b post) with (String c (s ++ String b post)).
    cbn [starts_with_ci]. now rewrite IH.
Qed.

Lemma starts_with_ci_length (w s : string) :
  starts_with_ci w s = true -> (String.length w <= String.length s)%nat.
Proof.
  revert s; induction w as [|a w IH]; intros [|c s]; cbn; try discriminate; try lia.
  intros H. apply andb_true_iff in H as [_ H]. apply IH in H. lia.
Qed.

Lemma drop_append_le (n : nat) (s t : string) :
  (n <= String.length s)%nat -> drop n (s ++ t) = drop n s ++ t.
Proof.
  revert s; induction n as [|n IH]; intros s Hn; [reflexivity |].
  destruct s as [|c s]; cbn in Hn; [lia |].
  change (String c s ++ t) with (String c (s ++ t)).
  cbn [drop]. apply IH. lia.
Qed.

Lemma any_then_before (w s post : string) (b : ascii) :
  avoids b w = true ->
  RegExp.any_then w (String b post) = false ->
  RegExp.any_then w (s ++ String b post) = RegExp.any_then w s.
Proof.
  intros Hw Hpost. induction s as [|c s IH].
  - change ("" ++ String b post) with (String b post). rewrite Hpost.
    cbn [RegExp.any_then] in Hpost |- *.
    apply orb_false_iff in Hpost as [Hpost _].
    rewrite orb_false_r.
    destruct w as [|a w]; [discriminate Hpost | reflexivity].
  - change (String c s ++ String b post) with (String c (s ++ String b post)).
    cbn [RegExp.any_then]. rewrite IH.
    change (String c (s ++ String b post)) with (String c s ++ String b post).
    now rewrite (starts_with_ci_before w (String c s) post b Hw).
Qed.

Lemma match_at_before (r : RegExp.t) (s post : string) (b : ascii) :
  RegExp.clear_of r b post = true ->
  RegExp.match_at r (s ++ String b post) = RegExp.match_at r s.
Proof.
  destruct r as [w | w1 w2]; cbn [RegExp.clear_of RegExp.match_at].
  - apply starts_with_ci_before.
  - intros H. apply andb_true_iff in H as [H H3].
    apply andb_true_iff in H as [H1 H2]. apply negb_true_iff in H3.
    rewrite (starts_with_ci_before w1 s post b H1).
    destruct (starts_with_ci w1 s) eqn:Hstart; [| reflexivity].
    rewrite drop_append_le by now apply starts_with_ci_length.
    now rewrite any_then_before.
Qed.

Lemma test_before (r : RegExp.t) (s post : string) (b : ascii) :
  RegExp.clear_of r b post = true ->
  RegExp.test r (String b post) = false ->
  RegExp.test r (s ++ String b post) = RegExp.test r s.
Proof.
  intros Hclear Hpost. induction s as [|c s IH].
  - change ("" ++ String b post) with (String b post). rewrite Hpost.
    cbn [RegExp.test] in Hpost |- *.
    apply orb_false_iff in Hpost as [Hpost _]. rewrite orb_false_r.
    pose proof (match_at_before r "" post b Hclear) as H.
    change ("" ++ String b post) with (String b post) in H. congruence.
  - change (String c s ++ String b post) with (String c (s ++ String b post)).
    cbn [RegExp.test]. rewrite IH.
    change (String c (s ++ String b post)) with (String c s ++ String b post).
    now rewrite (match_at_before r (String c s) post b Hclear).
Qed.

Lemma test_after_Server (r : RegExp.t) (s : string) :
  In r retryablePatterns ->
  RegExp.test r ("Server " ++ s) = RegExp.test r s.
Proof.
  unfold retryablePatterns. cbn [In].
  intros [<- | [<- | [<- | [<- | [<- | [<- | [<- | []]]]]]]]; reflexivity.
Qed.

Lemma test_not_connected_message (r : RegExp.t) (serverName : string) :
  In r retryablePatterns ->
  RegExp.test r (not_connected_message serverName) = RegExp.test r serverName.
Proof.
  intros Hr. unfold not_connected_message. rewrite (test_after_Server r _ Hr).
  change " not connected" with (String " " "not connected").
  revert Hr. unfold retryablePatterns. cbn [In].
  intros [<- | [<- | [<- | [<- | [<- | [<- | [<- | []]]]]]]];
    apply test_before; reflexivity.
Qed.

(** The message is retryable exactly when the name itself is. *)
Lemma isRetryableError_not_connected_message (serverName : string) :
  isRetryableError (Some (not_connected_message serverName)) =
  isRetryableError (Some serverName).
Proof.
  assert (H : existsb (fun pattern => RegExp.test pattern (not_connected_message serverName))
                retryablePatterns =
              existsb (fun pattern => RegExp.test pattern serverName) retryablePatterns).
  { assert (Hall : forall r, In r retryablePatterns ->
              RegExp.test r (not_connected_message serverName) = RegExp.test r serverName)
      by (intros r Hr; now apply test_not_connected_message).
    induction retryablePatterns as [|r rs IH]; [reflexivity |].
    cbn [existsb]. rewrite (Hall r) by now left.
    rewrite IH; [reflexivity |]. intros r' Hr'. apply Hall. now right. }
  change (isRetryableError (Some (not_connected_message serverName)))
    with (existsb (fun pattern => RegExp.test pattern (not_connected_message serverName))
            retryablePatterns).
  rewrite H. destruct serverName; reflexivity.
Qed.

End MessageAroundName.

Lemma reconnect_if_lost_absent (serverName : string) (a : MCPToolAdapter) :
  JsMap.get serverName (connections a) = None ->
  reconnect_if_lost serverName a = (Returns tt, a).
Proof.
  intros Hget. unfold reconnect_if_lost. run_monad. now rewrite Hget.
Qed.

(** One iteration of the loop of [callToolWithRetry] on a name that is not
    registered and that the classifier takes for retryable. *)
Lemma callToolWithRetry_loop_unregistered_step
    (serverName toolName : string) (arguments : Json)
    (remaining attempt : nat) (delay : Z) (lastError : option string)
    (a : MCPToolAdapter) :
  JsMap.get serverName (connections a) = None ->
  isRetryableError (Some serverName) = true ->
  callToolWithRetry_loop serverName toolName arguments (S remaining) attempt delay
    lastError a =
  if (attempt <? maxRetries (retryConfig a))%nat then
    callToolWithRetry_loop serverName toolName arguments remaining (S attempt)
      (Z.min (delay * backoffMultiplier (retryConfig a)) (maxDelayMs (retryConfig a)))
      (Some (not_connected_message serverName))
      (with_clock (clock a + Z.max 0 delay)
         (with_trace (trace a ++ [EvInvoke serverName toolName; EvSleep delay]) a))
  else
    callToolWithRetry_loop serverName toolName arguments remaining (S attempt) delay
      (Some (not_connected_message serverName))
      (with_trace (trace a ++ [EvInvoke serverName toolName]) a).
Proof.
  intros Hget Hname. cbn [callToolWithRetry_loop]. rewrite bind_run.
  rewrite (callTool_absent serverName toolName arguments a Hget).
  cbn [fst snd success failure error negb].
  change ("Server " ++ serverName ++ " not connected")%string
    with (not_connected_message serverName).
  rewrite isRetryableError_not_connected_message, Hname. cbn [negb].
  rewrite bind_run, reconnect_if_lost_absent by exact Hget.
  run_monad. unfold with_trace, with_clock. cbn [fst snd retryConfig].
  destruct (attempt <? maxRetries (retryConfig a))%nat; [| reflexivity].
  cbn. now rewrite <- app_assoc.
Qed.

Lemma callToolWithRetry_loop_unregistered (serverName toolName : string) (arguments : Json) :
  forall (remaining attempt : nat) (delay : Z) (lastError : option string)
         (a : MCPToolAdapter),
    JsMap.get serverName (connections a) = None ->
    isRetryableError (Some serverName) = true ->
    attempt + remaining = S (maxRetries (retryConfig a)) ->
    exists evs,
      fst (callToolWithRetry_loop serverName toolName arguments
             remaining attempt delay lastError a) =
        Returns (failure ("Failed after " ++
                          JsString.of_nat (maxRetries (retryConfig a) + 1) ++
                          " attempts: " ++
                          undefined_or match remaining with
                                       | O => lastError
                                       | S _ => Some (not_connected_message serverName)
                                       end)%string) /\
      trace (snd (callToolWithRetry_loop serverName toolName arguments
                    remaining attempt delay lastError a)) = trace a ++ evs /\
      connections (snd (callToolWithRetry_loop serverName toolName arguments
                          remaining attempt delay lastError a)) = connections a /\
      invoke_attempts evs = remaining /\
      connect_attempts evs = 0 /\ transport_calls evs = 0 /\
      sleeps evs = backoff_from (retryConfig a) delay (remaining - 1).
Proof.
  induction remaining as [|remaining IH]; intros attempt delay lastError a Hget Hname Hinv.
  - exists []. cbn [callToolWithRetry_loop]. run_monad. cbn [fst snd].
    rewrite app_nil_r. now conjuncts.
  - rewrite (callToolWithRetry_loop_unregistered_step _ _ _ _ _ _ _ _ Hget Hname).
    destruct (attempt <? maxRetries (retryConfig a))%nat eqn:Hlt.
    + apply Nat.ltb_lt in Hlt.
      match goal with
      | |- context [callToolWithRetry_loop _ _ _ remaining ?n ?d ?l ?s] =>
          destruct (IH n d l s) as (evs & Hret & Htrace & Hconn & Hia & Hca & Htc & Hsl);
          [exact Hget | exact Hname | cbn; lia |]
      end.
      exists ([EvInvoke serverName toolName; EvSleep delay] ++ evs).
      rewrite Hret, Htrace, Hconn.
      rewrite invoke_attempts_app, connect_attempts_app, transport_calls_app, sleeps_app.
      rewrite Hia, Hca, Htc, Hsl.
      destruct remaining as [|remaining]; [lia |].
      cbn. rewrite Nat.sub_0_r, <- app_assoc. now conjuncts.
    + apply Nat.ltb_ge in Hlt. assert (remaining = 0) by lia. subst remaining.
      exists [EvInvoke serverName toolName].
      cbn [callToolWithRetry_loop]. run_monad. cbn. now conjuncts.
Qed.

(** C10. [isRetryableError] classifies the message "Server <name> not
    connected" exactly as it would classify the name alone: the name leaks
    into the text that is classified. For a name that is not registered
    and matches no retryable pattern, [callToolWithRetry] makes one
    [callTool] and returns its failure as it is, without sleep, SDK call
    or connect, for every retry configuration. For a name that is not
    registered and does match one, it makes all [maxRetries + 1] attempts,
    sleeps between them and returns the aggregated message "Failed after
    <maxRetries + 1> attempts: Server <name> not connected". *)
Theorem callToolWithRetry_unregistered
    (serverName toolName : string) (arguments : Json) (a : MCPToolAdapter) :
  JsMap.get serverName (connections a) = None ->
  let evs :=
    events_since a (snd (callToolWithRetry serverName toolName arguments a)) in
  isRetryableError (Some (not_connected_message serverName)) =
    isRetryableError (Some serverName) /\
  (isRetryableError (Some serverName) = false ->
   fst (callToolWithRetry serverName toolName arguments a) =
     Returns (failure (not_connected_message serverName)) /\
   connections (snd (callToolWithRetry serverName toolName arguments a)) =
     connections a /\
   invoke_attempts evs = 1 /\ connect_attempts evs = 0 /\
   transport_calls evs = 0 /\ sleeps evs = []) /\
  (isRetryableError (Some serverName) = true ->
   fst (callToolWithRetry serverName toolName arguments a) =
     Returns (failure ("Failed after " ++
                       JsString.of_nat (maxRetries (retryConfig a) + 1) ++
                       " attempts: " ++ not_connected_message serverName)%string) /\
   connections (snd (callToolWithRetry serverName toolName arguments a)) =
     connections a /\
   invoke_attempts evs = maxRetries (retryConfig a) + 1 /\ connect_attempts evs = 0 /\
   transport_calls evs = 0 /\ sleeps evs = backoff (retryConfig a)).
Proof.
  intros Hget. cbv zeta.
  split; [apply isRetryableError_not_connected_message |]. split.
  - intros Hname.
    rewrite (callToolWithRetry_first_failure serverName toolName arguments a _ _
               (callTool_absent serverName toolName arguments a Hget) eq_refl).
    + cbn [fst snd].
      rewrite (events_since_app a _ [EvInvoke serverName toolName]) by reflexivity.
      now conjuncts.
    + cbn [error failure].
      change ("Server " ++ serverName ++ " not connected")%string
        with (not_connected_message serverName).
      now rewrite isRetryableError_not_connected_message.
  - intros Hname. unfold callToolWithRetry. run_monad.
    destruct (callToolWithRetry_loop_unregistered serverName toolName arguments
                (S (maxRetries (retryConfig a))) 0 (initialDelayMs (retryConfig a))
                None a Hget Hname eq_refl)
      as (evs & Hret & Htrace & Hconn & Hia & Hca & Htc & Hsl).
    rewrite (events_since_app _ _ _ Htrace), Hret, Hconn, Hia, Hca, Htc, Hsl.
    cbn [undefined_or]. rewrite Nat.sub_succ, Nat.sub_0_r.
    conjuncts; try reflexivity. lia.
Qed.

Lemma callToolWithRetry_unregistered_witness :
  fst (callToolWithRetry "non-existent" "test_tool" "{}"
         (constructor sdk_serving no_overrides)) =
    Returns (failure "Server non-existent not connected") /\
  fst (callToolWithRetry "network" "test_tool" "{}"
         (constructor sdk_serving no_overrides)) =
    Returns (failure "Failed after 4 attempts: Server network not connected").
Proof.
  split.
  - exact (proj1 (proj1 (proj2 (callToolWithRetry_unregistered "non-existent" "test_tool"
                                  "{}" (constructor sdk_serving no_overrides) eq_refl))
                    eq_refl)).
  - exact (proj1 (proj2 (proj2 (callToolWithRetry_unregistered "network" "test_tool"
                                  "{}" (constructor sdk_serving no_overrides) eq_refl))
                    eq_refl)).
Defined.

(** C10 fails on the code for a server named "network": the message
    matches [/network/i], so all four attempts of the default configuration
    are made, with the sleeps between them, and the aggregated message
    comes back. *)
Lemma unregistered_retryable_name_counterexample :
  exists a result,
    a = constructor sdk_serving no_overrides /\
    JsMap.get "network" (connections a) = None /\
    isRetryableError (Some (not_connected_message "network")) = true /\
    fst (callToolWithRetry "network" "test_tool" "{}" a) = Returns result /\
    error result = Some "Failed after 4 attempts: Server network not connected"%string /\
    invoke_attempts
      (events_since a (snd (callToolWithRetry "network" "test_tool" "{}" a))) = 4 /\
    sleeps
      (events_since a (snd (callToolWithRetry "network" "test_tool" "{}" a))) =
      [1000; 2000; 4000]%Z.
Proof.
  exists (constructor sdk_serving no_overrides),
    (failure "Failed after 4 attempts: Server network not connected").
  split; [reflexivity |]. split; [reflexivity |].
  split; [vm_compute; reflexivity |].
  split; [vm_compute; reflexivity |].
  split; [reflexivity |]. split; vm_compute; reflexivity.
Qed.

(** ** Placeholders *)

Section PlaceholderFacts.
Import Placeholder.
Local Open Scope string_scope.
Variable f : string -> string.

Lemma replace_found (s n rest : string) :
  match_here s = Some (n, rest) -> replace f s = f n ++ replace f rest.
Proof.
  intros H. destruct s as [|c s]; [discriminate H |].
  simp replace.
  destruct (inspect (match_here (String c s))) as [[[n' rest']|] Hfound];
    simp replace; congruence.
Qed.

Lemma replace_skip (c : ascii) (s : string) :
  match_here (String c s) = None ->
  replace f (String c s) = String c (replace f s).
Proof.
  intros H. simp replace.
  destruct (inspect (match_here (String c s))) as [[[n' rest']|] Hfound];
    simp replace; congruence.
Qed.

Lemma until_brace_complete (n rest : string) :
  brace_free n = true -> until_brace (n ++ "}" ++ rest) = Some (n, rest).
Proof.
  induction n as [|c n IH]; intros Hn; [reflexivity |].
  cbn [brace_free] in Hn. apply andb_true_iff in Hn as [Hc Hn].
  apply negb_true_iff in Hc.
  change (String c n ++ "}" ++ rest) with (String c (n ++ "}" ++ rest)).
  cbn [until_brace]. now rewrite Hc, IH.
Qed.

Lemma until_brace_sound (s n rest : string) :
  until_brace s = Some (n, rest) -> s = n ++ "}" ++ rest /\ brace_free n = true.
Proof.
  revert n rest; induction s as [|c s IH]; intros n rest; cbn [until_brace].
  - discriminate.
  - destruct (Ascii.eqb_spec c "}"%char) as [-> | Hc].
    + intros [= <- <-]. split; reflexivity.
    + destruct (until_brace s) as [[n' rest']|]; [| discriminate].
      intros [= <- <-]. destruct (IH n' rest' eq_refl) as [-> Hn'].
      split; [reflexivity |]. cbn [brace_free]. rewrite Hn'.
      apply Ascii.eqb_neq in Hc. now rewrite Hc.
Qed.

Lemma match_here_spec (s n rest : string) :
  match_here s = Some (n, rest) <-> variable_name n /\ s = "${" ++ n ++ "}" ++ rest.
Proof.
  unfold variable_name. split.
  - destruct s as [|c1 [|c2 t]]; cbn [match_here]; try discriminate.
    destruct (Ascii.eqb_spec c1 "$"%char) as [-> |]; [| discriminate].
    destruct (Ascii.eqb_spec c2 "{"%char) as [-> |]; [| discriminate].
    cbn [andb]. destruct (until_brace t) as [[[|c n'] rest']|] eqn:Hu; try discriminate.
    intros [= <- <-]. apply until_brace_sound in Hu as [-> Hn].
    split; [split; [discriminate | exact Hn] | reflexivity].
  - intros [[Hne Hn] ->].
    change ("${" ++ n ++ "}" ++ rest) with (String "$" (String "{" (n ++ "}" ++ rest))).
    cbn [match_here]. cbn [Ascii.eqb Bool.eqb andb].
    rewrite (until_brace_complete n rest Hn).
    destruct n; [contradiction | reflexivity].
Qed.

Lemma match_here_None (s : string) :
  match_here s = None <-> ~ placeholder_after "" s.
Proof.
  unfold placeholder_after. split.
  - intros H (n & post & Hn & Hs).
    assert (match_here s = Some (n, post)) by (apply match_here_spec; auto).
    congruence.
  - intros H. destruct (match_here s) as [[n rest]|] eqn:E; [| reflexivity].
    apply match_here_spec in E as [Hn Hs]. exfalso. apply H. now exists n, rest.
Qed.

Lemma placeholder_after_cons (c : ascii) (pre s : string) :
  placeholder_after pre s -> placeholder_after (String c pre) (String c s).
Proof.
  intros (n & post & Hn & ->). now exists n, post.
Qed.

Lemma replace_no_placeholder (s : string) :
  no_placeholder s -> replace f s = s.
Proof.
  unfold no_placeholder. induction s as [|c s IH]; intros H.
  - now simp replace.
  - rewrite replace_skip by (apply match_here_None, H).
    rewrite IH; [reflexivity |].
    intros pre Hpre. apply (H (String c pre)). now apply placeholder_after_cons.
Qed.

Lemma replace_first_placeholder (pre n post : string) :
  variable_name n ->
  first_placeholder_after pre (pre ++ "${" ++ n ++ "}" ++ post) ->
  replace f (pre ++ "${" ++ n ++ "}" ++ post) = pre ++ f n ++ replace f post.
Proof.
  intros Hn. induction pre as [|c pre IH]; intros [_ Hfirst].
  - change ("" ++ "${" ++ n ++ "}" ++ post) with ("${" ++ n ++ "}" ++ post).
    apply replace_found. apply match_here_spec. auto.
  - change (String c pre ++ "${" ++ n ++ "}" ++ post)
      with (String c (pre ++ "${" ++ n ++ "}" ++ post)) in *.
    rewrite replace_skip.
    + change (String c pre ++ f n ++ replace f post)
        with (String c (pre ++ f n ++ replace f post)).
      f_equal. apply IH. split; [now exists n, post |].
      intros pre' Hpre'. apply placeholder_after_cons with (c := c) in Hpre'.
      apply Hfirst in Hpre'. cbn in Hpre'. lia.
    + apply match_here_None. intros H. apply Hfirst in H. cbn in H. lia.
Qed.

End PlaceholderFacts.

(** ** The loader *)

Section Loader.
Variables processEnv inherited : string -> option string.

Lemma set_fresh {V : Type} (k : string) (v : V) (m : list (string * V)) :
  ~ In k (JsMap.keys m) -> JsMap.set k v m = m ++ [(k, v)].
Proof.
  induction m as [|[k' v'] m IH]; cbn; [reflexivity |].
  intros Hk. destruct (String.eqb_spec k k') as [-> | _].
  - exfalso. apply Hk. now left.
  - rewrite IH; [reflexivity |]. intros H. apply Hk. now right.
Qed.

Lemma In_keys_unique {V : Type} (m : list (string * V)) (k : string) (v v' : V) :
  NoDup (JsMap.keys m) -> In (k, v) m -> In (k, v') m -> v = v'.
Proof.
  unfold JsMap.keys. induction m as [|[k0 v0] m IH]; [contradiction |].
  cbn [map fst]. intros Hnd Hin Hin'.
  apply NoDup_cons_iff in Hnd as [Hk Hnd].
  destruct Hin as [Hin | Hin], Hin' as [Hin' | Hin'].
  - congruence.
  - exfalso. apply Hk. injection Hin as -> _.
    change k with (fst (k, v')). now apply in_map.
  - exfalso. apply Hk. injection Hin' as -> _.
    change k with (fst (k, v)). now apply in_map.
  - now apply IH.
Qed.

Lemma fold_set_fresh {V W : Type} (g : W -> V) (entries : list (string * W)) :
  forall acc : list (string * V),
    NoDup (JsMap.keys acc ++ JsMap.keys entries) ->
    fold_left (fun resolved entry => JsMap.set (fst entry) (g (snd entry)) resolved)
      entries acc =
    acc ++ map (fun entry => (fst entry, g (snd entry))) entries.
Proof.
  induction entries as [|[k w] entries IH]; intros acc Hnd.
  - cbn. now rewrite app_nil_r.
  - cbn [fold_left map fst snd]. rewrite set_fresh.
    + rewrite IH.
      * now rewrite <- app_assoc.
      * unfold JsMap.keys in *. rewrite map_app. cbn [map fst] in *.
        now rewrite <- app_assoc.
    + intros Hk. unfold JsMap.keys in Hnd. cbn [map fst] in Hnd.
      apply NoDup_remove_2 in Hnd. apply Hnd, in_or_app. now left.
Qed.

Lemma fold_assign_fresh (g : string -> string) (entries : list (string * string)) :
  forall acc : list (string * string),
    NoDup (JsMap.keys acc ++ JsMap.keys entries) ->
    fold_left (fun resolved entry => assign_property (fst entry) (g (snd entry)) resolved)
      entries acc =
    acc ++ map (fun entry => (fst entry, g (snd entry))) (filter stored entries).
Proof.
  induction entries as [|[k w] entries IH]; intros acc Hnd.
  - cbn. now rewrite app_nil_r.
  - cbn [fold_left filter fst snd]. unfold assign_property, stored. cbn [fst].
    assert (Hrest : NoDup (JsMap.keys acc ++ JsMap.keys entries)).
    { unfold JsMap.keys in *. cbn [map fst] in Hnd. now apply NoDup_remove_1 in Hnd. }
    destruct (String.eqb k "__proto__"); cbn [negb].
    + now apply IH.
    + rewrite set_fresh.
      * rewrite IH.
        -- cbn [map fst snd]. now rewrite <- app_assoc.
        -- unfold JsMap.keys in *. rewrite map_app. cbn [map fst] in *.
           now rewrite <- app_assoc.
      * intros Hk. unfold JsMap.keys in Hnd. cbn [map fst] in Hnd.
        apply NoDup_remove_2 in Hnd. apply Hnd, in_or_app. now left.
Qed.

Lemma resolveEnvVariables_entries (entries : list (string * string)) :
  NoDup (JsMap.keys entries) ->
  resolveEnvVariables processEnv inherited (Some entries) =
  Some (map (fun entry =>
               (fst entry,
                Placeholder.replace (env_or_empty processEnv inherited) (snd entry)))
          (filter stored entries)).
Proof.
  intros Hnd. unfold resolveEnvVariables.
  now rewrite (fold_assign_fresh _ entries []).
Qed.

Lemma env_or_empty_spec (varName : string) :
  env_or_empty processEnv inherited varName =
  match processEnv varName with
  | Some v => v
  | None => match inherited varName with Some text => text | None => "" end
  end%string.
Proof.
  unfold env_or_empty. destruct (processEnv varName) as [v|]; [| reflexivity].
  destruct (String.eqb_spec v ""); congruence.
Qed.

Lemma loadMCPConfig_In (mcpServers : list (string * MCPConfigEntry))
    (cfg : MCPServerConfig) :
  In cfg (loadMCPConfig processEnv inherited mcpServers) <->
  exists serverName server,
    In (serverName, server) mcpServers /\
    disabled server <> Some true /\
    cfg = {| name := serverName;
             command := entry_command server;
             args := entry_args server;
             env := resolveEnvVariables processEnv inherited (entry_env server) |}.
Proof.
  unfold loadMCPConfig. rewrite in_map_iff. split.
  - intros ([serverName server] & <- & Hin). apply filter_In in Hin as [Hin Hen].
    exists serverName, server. split; [exact Hin |]. split; [| reflexivity].
    cbn in Hen. unfold not_disabled in Hen. intros E. now rewrite E in Hen.
  - intros (serverName & server & Hin & Hen & ->).
    exists (serverName, server). split; [reflexivity |].
    apply filter_In. split; [exact Hin |]. cbn. unfold not_disabled.
    destruct (disabled server) as [[]|]; congruence.
Qed.

Lemma loadMCPConfig_excludes (mcpServers : list (string * MCPConfigEntry))
    (serverName : string) (server : MCPConfigEntry) :
  NoDup (JsMap.keys mcpServers) ->
  In (serverName, server) mcpServers ->
  disabled server = Some true ->
  ~ In serverName (map name (loadMCPConfig processEnv inherited mcpServers)).
Proof.
  intros Hnd Hin Hdis Hname. apply in_map_iff in Hname as (cfg & Hn & Hcfg).
  apply loadMCPConfig_In in Hcfg as (serverName' & server' & Hin' & Hen & ->).
  cbn in Hn. subst serverName'.
  assert (server' = server) by (eapply In_keys_unique; eassumption).
  congruence.
Qed.

End Loader.

(** C8. What [loadMCPConfig] returns: in order, one descriptor for each
    entry that is not marked disabled and none for an entry that is. The
    [env] of a descriptor holds the values of the entry with placeholders
    replaced, under the same keys, except that a key [__proto__] is lost.
    A value without a placeholder is returned as it is; in a value whose
    first placeholder is [${NAME}], the text before it is kept and the
    text after it is treated the same way, and the placeholder becomes the
    value of [NAME] in the process environment when [NAME] is set; when it
    is not set, it becomes the empty string only if [process.env] inherits
    nothing under that name, and else the text of what it inherits. *)
Theorem loadMCPConfig_spec (processEnv inherited : string -> option string)
    (mcpServers : list (string * MCPConfigEntry)) :
  let resolve := Placeholder.replace (env_or_empty processEnv inherited) in
  (forall cfg,
     In cfg (loadMCPConfig processEnv inherited mcpServers) <->
     exists serverName server,
       In (serverName, server) mcpServers /\
       disabled server <> Some true /\
       cfg = {| name := serverName;
                command := entry_command server;
                args := entry_args server;
                env := resolveEnvVariables processEnv inherited (entry_env server) |}) /\
  map name (loadMCPConfig processEnv inherited mcpServers) =
    JsMap.keys (filter (fun entry => not_disabled (snd entry)) mcpServers) /\
  (forall serverName server,
     NoDup (JsMap.keys mcpServers) ->
     In (serverName, server) mcpServers ->
     disabled server = Some true ->
     ~ In serverName (map name (loadMCPConfig processEnv inherited mcpServers))) /\
  resolveEnvVariables processEnv inherited None = None /\
  (forall entries,
     NoDup (JsMap.keys entries) ->
     resolveEnvVariables processEnv inherited (Some entries) =
     Some (map (fun entry => (fst entry, resolve (snd entry)))
             (filter stored entries))) /\
  (forall value, no_placeholder value -> resolve value = value) /\
  (forall pre varName post,
     variable_name varName ->
     first_placeholder_after pre (pre ++ "${" ++ varName ++ "}" ++ post)%string ->
     resolve (pre ++ "${" ++ varName ++ "}" ++ post)%string =
     (pre ++
      match processEnv varName with
      | Some v => v
      | None => match inherited varName with Some text => text | None => "" end
      end ++
      resolve post)%string).
Proof.
  cbv zeta. conjuncts.
  - apply loadMCPConfig_In.
  - unfold loadMCPConfig, JsMap.keys. rewrite map_map. reflexivity.
  - apply loadMCPConfig_excludes.
  - reflexivity.
  - apply resolveEnvVariables_entries.
  - apply replace_no_placeholder.
  - intros pre varName post Hn Hfirst.
    rewrite replace_first_placeholder by assumption.
    now rewrite env_or_empty_spec.
Qed.

(** The unit tests of [loadMCPConfig]. *)
Example loadMCPConfig_test :
  loadMCPConfig test_processEnv Object_prototype test_mcpServers =
    [ {| name := "test-server"; command := "node"; args := ["test.js"];
         env := Some [("API_KEY", "env-api-key")] |} ] /\
  loadMCPConfig empty_processEnv Object_prototype test_mcpServers =
    [ {| name := "test-server"; command := "node"; args := ["test.js"];
         env := Some [("API_KEY", "")] |} ].
Proof. split; reflexivity. Qed.

Lemma loadMCPConfig_spec_witness :
  ~ In "disabled-server"
      (map name (loadMCPConfig test_processEnv Object_prototype test_mcpServers)) /\
  Placeholder.replace (env_or_empty test_processEnv Object_prototype) "${API_KEY}" =
    "env-api-key" /\
  Placeholder.replace (env_or_empty test_processEnv Object_prototype) "${HOME}" = "" /\
  Placeholder.replace (env_or_empty test_processEnv Object_prototype) "${toString}" =
    "function toString() { [native code] }" /\
  resolveEnvVariables test_processEnv Object_prototype
    (Some [("API_KEY", "${API_KEY}"); ("__proto__", "${API_KEY}")]) =
    Some [("API_KEY", "env-api-key")].
Proof.
  pose proof (loadMCPConfig_spec test_processEnv Object_prototype test_mcpServers)
    as (_ & _ & Hexcl & _ & Hentries & _ & Hfirst).
  assert (Hone : forall varName : string,
            variable_name varName ->
            first_placeholder_after "" ("" ++ "${" ++ varName ++ "}" ++ "")).
  { intros varName Hn. split; [now exists varName, ""%string |].
    intros pre' _. cbn. lia. }
  split; [| split; [| split; [| split]]].
  - refine (Hexcl "disabled-server" _ _ (or_intror (or_introl eq_refl)) eq_refl).
    repeat constructor; cbn; intuition discriminate.
  - refine (Hfirst ""%string "API_KEY"%string ""%string _ (Hone _ _));
      (split; [discriminate | reflexivity]).
  - refine (Hfirst ""%string "HOME"%string ""%string _ (Hone _ _));
      (split; [discriminate | reflexivity]).
  - refine (Hfirst ""%string "toString"%string ""%string _ (Hone _ _));
      (split; [discriminate | reflexivity]).
  - refine (eq_trans (Hentries _ _) _); [| reflexivity].
    repeat constructor; cbn; intuition discriminate.
Defined.

(** C8 fails on the code where the claim says "empty string if unset": with
    no variable set at all, the placeholder [${toString}] is replaced by
    the text of the method every object inherits, and the [env] key
    [__proto__] of the configuration is not in the result. *)
Lemma unset_inherited_name_counterexample :
  exists resolved,
    empty_processEnv "toString" = None /\
    loadMCPConfig empty_processEnv Object_prototype inherited_mcpServers =
      [ {| name := "test-server"; command := "node"; args := ["test.js"];
           env := Some resolved |} ] /\
    resolved = [("API_KEY", "function toString() { [native code] }")] /\
    JsMap.get "API_KEY" resolved <> Some ""%string /\
    JsMap.get "__proto__" resolved = None.
Proof.
  exists [("API_KEY", "function toString() { [native code] }"%string)].
  split; [reflexivity |]. split; [vm_compute; reflexivity |].
  split; [reflexivity |]. split; [discriminate | reflexivity].
Qed.

(* ===================================================================== *)
(** * Further properties of the adapter *)
(* ===================================================================== *)

(** ** More registry facts *)

Section MoreJsMapFacts.
Context {V : Type}.
Implicit Types (m : list (string * V)) (k : string) (v : V).

Lemma get_delete_same k m : JsMap.get k (JsMap.delete k m) = None.
Proof.
  induction m as [|[k' v'] m IH]; [reflexivity |]. cbn.
  destruct (String.eqb k k') eqn:E; [exact IH |]. cbn. now rewrite E.
Qed.

Lemma get_delete_other k k' m :
  k <> k' -> JsMap.get k (JsMap.delete k' m) = JsMap.get k m.
Proof.
  intros Hk. induction m as [|[k0 v0] m IH]; [reflexivity |]. cbn.
  destruct (String.eqb_spec k' k0) as [<- | H0].
  - rewrite IH. apply String.eqb_neq in Hk. now rewrite Hk.
  - cbn. now rewrite IH.
Qed.

Lemma delete_absent k m : JsMap.get k m = None -> JsMap.delete k m = m.
Proof.
  induction m as [|[k' v'] m IH]; [reflexivity |]. cbn.
  destruct (String.eqb k k'); [discriminate |]. intros H. now rewrite IH.
Qed.

Lemma keys_set_present k v v' m :
  JsMap.get k m = Some v' -> JsMap.keys (JsMap.set k v m) = JsMap.keys m.
Proof.
  unfold JsMap.keys. induction m as [|[k' v0] m IH]; [discriminate |]. cbn.
  destruct (String.eqb_spec k k') as [<- | _]; [reflexivity |].
  intros H. cbn. now rewrite IH.
Qed.

Lemma keys_set_absent k v m :
  JsMap.get k m = None -> JsMap.keys (JsMap.set k v m) = JsMap.keys m ++ [k].
Proof.
  intros H. rewrite set_fresh by now apply get_None_keys.
  unfold JsMap.keys. now rewrite map_app.
Qed.

Lemma keys_delete_subset k k' m :
  In k (JsMap.keys (JsMap.delete k' m)) -> In k (JsMap.keys m).
Proof.
  unfold JsMap.keys. induction m as [|[k0 v0] m IH]; [auto |]. cbn.
  destruct (String.eqb k' k0); cbn; intuition.
Qed.

Lemma NoDup_keys_delete k m :
  NoDup (JsMap.keys m) -> NoDup (JsMap.keys (JsMap.delete k m)).
Proof.
  unfold JsMap.keys. induction m as [|[k0 v0] m IH]; [auto |]. cbn.
  intros H. apply NoDup_cons_iff in H as [H0 H].
  destruct (String.eqb k k0); [auto |]. cbn. apply NoDup_cons; [| auto].
  intros Hin. apply H0. exact (keys_delete_subset _ _ _ Hin).
Qed.

Lemma NoDup_keys_set k v m :
  NoDup (JsMap.keys m) -> NoDup (JsMap.keys (JsMap.set k v m)).
Proof.
  intros H. destruct (JsMap.get k m) as [v'|] eqn:Hget.
  - now rewrite (keys_set_present _ _ _ _ Hget).
  - rewrite (keys_set_absent _ _ _ Hget).
    apply get_None_keys in Hget. apply NoDup_app; [exact H | | ].
    + repeat constructor. intros [].
    + intros x Hx [<- | []]. contradiction.
Qed.

Lemma get_keys k m :
  In k (JsMap.keys m) <-> exists v, JsMap.get k m = Some v.
Proof.
  destruct (JsMap.get k m) as [v|] eqn:Hget.
  - split; [eauto |]. intros _. apply get_In in Hget.
    unfold JsMap.keys. change k with (fst (k, v)). now apply in_map.
  - apply get_None_keys in Hget. split; [contradiction |].
    now intros [v [=]].
Qed.

End MoreJsMapFacts.

(** ** [connect], [disconnect], [disconnectAll] *)

Lemma connect_fresh_run (cfg : MCPServerConfig) (a : MCPToolAdapter) :
  JsMap.get (name cfg) (connections a) = None ->
  on_connect (sdk a) (ticks a) = Resolves tt ->
  connect cfg a =
    (Returns tt,
     with_connections
       (JsMap.set (name cfg)
          {| client := ticks a; config := cfg; connected := true;
             lastActivity := clock a; retryCount := 0 |} (connections a))
       (with_trace (trace a ++ [EvConnect (name cfg);
                                EvHandshake (name cfg) (Resolves tt)])
          (with_ticks (S (ticks a)) a))).
Proof.
  intros Hget Hreply. unfold connect, establish. run_monad. cbn. rewrite Hget. cbn.
  rewrite Hreply. cbn. unfold with_connections, with_trace, with_ticks. cbn.
  now rewrite <- app_assoc.
Qed.

(** X1. A [connect] for a name that is not registered, whose handshake
    resolves, returns and registers the descriptor under its name as
    connected, with [retryCount] 0 and the current time as [lastActivity];
    the entry goes last in iteration order, every other name keeps its
    entry, and the handshake is the only SDK interaction. *)
Theorem connect_registers (cfg : MCPServerConfig) (a : MCPToolAdapter) :
  JsMap.get (name cfg) (connections a) = None ->
  on_connect (sdk a) (ticks a) = Resolves tt ->
  let a' := snd (connect cfg a) in
  let evs := events_since a a' in
  fst (connect cfg a) = Returns tt /\
  JsMap.get (name cfg) (connections a') =
    Some {| client := ticks a; config := cfg; connected := true;
            lastActivity := clock a; retryCount := 0 |} /\
  JsMap.keys (connections a') = JsMap.keys (connections a) ++ [name cfg] /\
  (forall other, other <> name cfg ->
     JsMap.get other (connections a') = JsMap.get other (connections a)) /\
  handshakes evs = [Resolves tt] /\ transport_calls evs = 1.
Proof.
  intros Hget Hreply. cbv zeta.
  pose proof (connect_fresh_run cfg a Hget Hreply) as Hrun.
  rewrite Hrun. cbn [fst snd].
  rewrite (events_since_app a _ [EvConnect (name cfg);
                                 EvHandshake (name cfg) (Resolves tt)])
    by reflexivity.
  cbn [connections with_connections].
  conjuncts; try reflexivity.
  - apply get_set_same.
  - now apply keys_set_absent.
  - intros other Hother. now apply get_set_other.
Qed.

Lemma connect_registers_witness :
  JsMap.keys (connections (snd (connect testConfig (constructor sdk_serving no_overrides)))) =
  ["test-server"].
Proof.
  exact (proj1 (proj2 (proj2 (connect_registers testConfig
                                (constructor sdk_serving no_overrides)
                                eq_refl eq_refl)))).
Defined.

(** X2. A [connect] for a name that is registered and connected returns
    at once: no SDK interaction, and the registry is left as it is, also
    when the descriptor differs from the registered one. *)
Theorem connect_connected_is_noop (cfg : MCPServerConfig) (a : MCPToolAdapter) :
  isConnected a (name cfg) = true ->
  connect cfg a =
    (Returns tt, with_trace (trace a ++ [EvConnect (name cfg)]) a) /\
  connections (snd (connect cfg a)) = connections a /\
  transport_calls (events_since a (snd (connect cfg a))) = 0.
Proof.
  unfold isConnected. intros Hlive.
  destruct (JsMap.get (name cfg) (connections a)) as [c|] eqn:Hget; [| discriminate].
  assert (Hrun : connect cfg a =
            (Returns tt, with_trace (trace a ++ [EvConnect (name cfg)]) a)).
  { unfold connect. run_monad. cbn. now rewrite Hget, Hlive. }
  rewrite Hrun. cbn [snd].
  rewrite (events_since_app a _ [EvConnect (name cfg)]) by reflexivity.
  now conjuncts.
Qed.

Lemma connect_connected_is_noop_witness :
  connections
    (snd (connect
            {| name := "test-server"; command := "python"; args := []; env := None |}
            (run (CallConnect testConfig) (constructor sdk_serving no_overrides)))) =
  connections (run (CallConnect testConfig) (constructor sdk_serving no_overrides)).
Proof.
  exact (proj1 (proj2 (connect_connected_is_noop
           {| name := "test-server"; command := "python"; args := []; env := None |}
           (run (CallConnect testConfig) (constructor sdk_serving no_overrides))
           eq_refl))).
Defined.

(** X3. [disconnect] never throws, whatever [close] does. Afterwards the
    name is not registered and every other name has the entry it had; a
    registered name costs one [close], a name that is not registered
    leaves the adapter untouched. *)
Theorem disconnect_removes (serverName : string) (a : MCPToolAdapter) :
  let a' := snd (disconnect serverName a) in
  fst (disconnect serverName a) = Returns tt /\
  JsMap.get serverName (connections a') = None /\
  isConnected a' serverName = false /\
  (forall other, other <> serverName ->
     JsMap.get other (connections a') = JsMap.get other (connections a)) /\
  (JsMap.get serverName (connections a) = None -> a' = a) /\
  (forall connection,
     JsMap.get serverName (connections a) = Some connection ->
     events_since a a' = [EvClose serverName (on_close (sdk a) (ticks a))]).
Proof.
  cbv zeta. unfold disconnect, isConnected. run_monad. cbn.
  destruct (JsMap.get serverName (connections a)) as [c|] eqn:Hget; cbn.
  - rewrite get_delete_same. conjuncts; auto.
    + intros other Hother. now apply get_delete_other.
    + discriminate.
    + intros _ _. now apply events_since_app.
  - rewrite Hget. conjuncts; auto. discriminate.
Qed.

Lemma disconnect_removes_witness :
  events_since (run (CallConnect testConfig) (constructor sdk_serving no_overrides))
    (snd (disconnect "test-server"
            (run (CallConnect testConfig) (constructor sdk_serving no_overrides)))) =
  [EvClose "test-server" (Resolves tt)].
Proof.
  exact (proj2 (proj2 (proj2 (proj2 (proj2
           (disconnect_removes "test-server"
              (run (CallConnect testConfig) (constructor sdk_serving no_overrides))))))) _ eq_refl).
Defined.

Lemma closes_app (l1 l2 : list Event) : closes (l1 ++ l2) = closes l1 + closes l2.
Proof. unfold closes. now rewrite filter_app, length_app. Qed.

Lemma disconnect_effect (serverName : string) (a : MCPToolAdapter) :
  fst (disconnect serverName a) = Returns tt /\
  JsMap.get serverName (connections (snd (disconnect serverName a))) = None /\
  (forall other, other <> serverName ->
     JsMap.get other (connections (snd (disconnect serverName a))) =
     JsMap.get other (connections a)) /\
  (JsMap.get serverName (connections a) = None -> snd (disconnect serverName a) = a) /\
  (forall connection,
     JsMap.get serverName (connections a) = Some connection ->
     trace (snd (disconnect serverName a)) =
     trace a ++ [EvClose serverName (on_close (sdk a) (ticks a))]).
Proof.
  unfold disconnect. run_monad. cbn.
  destruct (JsMap.get serverName (connections a)) as [c|] eqn:Hget; cbn.
  - rewrite get_delete_same. conjuncts; auto.
    + intros other Hother. now apply get_delete_other.
    + discriminate.
  - rewrite Hget. conjuncts; auto. discriminate.
Qed.

Lemma disconnect_each_spec (serverNames : list string) :
  forall a,
    fst (disconnect_each serverNames a) = Returns tt /\
    (forall k, In k serverNames ->
       JsMap.get k (connections (snd (disconnect_each serverNames a))) = None) /\
    (forall k, ~ In k serverNames ->
       JsMap.get k (connections (snd (disconnect_each serverNames a))) =
       JsMap.get k (connections a)) /\
    exists evs,
      trace (snd (disconnect_each serverNames a)) = trace a ++ evs /\
      closes evs <= List.length serverNames /\
      transport_calls evs = closes evs /\
      (NoDup serverNames ->
       (forall k, In k serverNames -> In k (JsMap.keys (connections a))) ->
       closes evs = List.length serverNames).
Proof.
  induction serverNames as [|serverName rest IH]; intros a.
  - cbn. conjuncts; auto; try contradiction.
    exists []. rewrite app_nil_r. cbn. auto.
  - cbn [disconnect_each]. rewrite bind_run.
    destruct (disconnect_effect serverName a)
      as (Hret & Hgone & Hother & Habsent & Hclose).
    destruct (disconnect serverName a) as [r1 a1] eqn:Hd. cbn [fst snd] in *.
    subst r1. destruct (IH a1) as (Hret2 & Hnone2 & Hkeep2 & evs2 & Htr2 & Hle2 & Htc2 & Hcount2).
    conjuncts.
    + exact Hret2.
    + intros k [<- | Hk].
      * destruct (in_dec string_dec serverName rest) as [Hin | Hout];
          [now apply Hnone2 | rewrite Hkeep2 by exact Hout; exact Hgone].
      * now apply Hnone2.
    + intros k Hk. rewrite Hkeep2 by (intros H; apply Hk; now right).
      apply Hother. intros ->. apply Hk. now left.
    + destruct (JsMap.get serverName (connections a)) as [c|] eqn:Hget.
      * pose proof (Hclose c eq_refl) as Htr1.
        exists (EvClose serverName (on_close (sdk a) (ticks a)) :: evs2).
        rewrite Htr2, Htr1, <- app_assoc. cbn [app].
        change (EvClose serverName (on_close (sdk a) (ticks a)) :: evs2)
          with ([EvClose serverName (on_close (sdk a) (ticks a))] ++ evs2).
        rewrite closes_app, transport_calls_app. cbn.
        conjuncts; [reflexivity | lia | lia |].
        intros Hnd Hreg. apply NoDup_cons_iff in Hnd as [Hfresh Hnd].
        rewrite Hcount2; [reflexivity | exact Hnd |].
        intros k Hk. apply get_keys. rewrite Hother.
        -- apply get_keys, Hreg. now right.
        -- intros ->. contradiction.
      * rewrite (Habsent eq_refl) in *. exists evs2.
        conjuncts; [exact Htr2 | cbn; lia | exact Htc2 |].
        intros _ Hreg. exfalso.
        assert (Hin : In serverName (JsMap.keys (connections a))) by (apply Hreg; now left).
        apply get_keys in Hin as [v Hv]. congruence.
Qed.

Lemma all_keys_absent_nil {V : Type} (m : list (string * V)) :
  (forall k, In k (JsMap.keys m) -> JsMap.get k m = None) -> m = [].
Proof.
  destruct m as [|[k v] m]; [reflexivity |]. intros H.
  specialize (H k (or_introl eq_refl)). cbn in H. now rewrite String.eqb_refl in H.
Qed.

(** X4. [disconnectAll] never throws and leaves the registry empty; its
    only SDK interactions are closes, and when no name is registered twice
    there is exactly one close per entry. *)
Theorem disconnectAll_empties (a : MCPToolAdapter) :
  let a' := snd (disconnectAll a) in
  let evs := events_since a a' in
  fst (disconnectAll a) = Returns tt /\
  connections a' = [] /\
  getConnectedServers a' = [] /\
  transport_calls evs = closes evs /\
  (NoDup (JsMap.keys (connections a)) -> closes evs = List.length (connections a)).
Proof.
  cbv zeta. unfold disconnectAll. run_monad.
  destruct (disconnect_each_spec (JsMap.keys (connections a)) a)
    as (Hret & Hnone & Hkeep & evs & Htr & _ & Htc & Hcount).
  rewrite (events_since_app _ _ _ Htr).
  assert (Hempty : connections (snd (disconnect_each (JsMap.keys (connections a)) a)) = []).
  { apply all_keys_absent_nil. intros k Hk.
    destruct (in_dec string_dec k (JsMap.keys (connections a))) as [Hin | Hout].
    - now apply Hnone.
    - rewrite Hkeep by exact Hout. now apply get_None_keys. }
  conjuncts; auto.
  - unfold getConnectedServers. now rewrite Hempty.
  - intros Hnd. rewrite Hcount; auto.
    unfold JsMap.keys. apply length_map.
Qed.

Lemma disconnectAll_empties_witness :
  closes
    (events_since
       (run (CallConnect testConfig) (constructor sdk_serving no_overrides))
       (snd (disconnectAll
               (run (CallConnect testConfig) (constructor sdk_serving no_overrides))))) =
  1.
Proof.
  refine (proj2 (proj2 (proj2 (proj2
           (disconnectAll_empties
              (run (CallConnect testConfig) (constructor sdk_serving no_overrides)))))) _).
  vm_compute. repeat constructor. intros [].
Defined.

(** ** The registry changes only through [Map.set] and [Map.delete] *)

Lemma registry_steps_trans (m1 m2 m3 : list (string * ConnectionState)) :
  registry_steps m1 m2 -> registry_steps m2 m3 -> registry_steps m1 m3.
Proof.
  intros H12 H23. induction H23; [exact H12 | |]; constructor; auto.
Qed.

Lemma only_steps_bind {A B : Type} (m : M A) (k : A -> M B) :
  registry_only_steps m -> (forall x, registry_only_steps (k x)) ->
  registry_only_steps (bind m k).
Proof.
  intros Hm Hk a. rewrite bind_run. specialize (Hm a).
  destruct (m a) as [[x|e] a1]; cbn [snd] in *; [| exact Hm].
  exact (registry_steps_trans _ _ _ Hm (Hk x a1)).
Qed.

Lemma only_steps_try_catch {A : Type} (m : M A) (h : JsError -> M A) :
  registry_only_steps m -> (forall e, registry_only_steps (h e)) ->
  registry_only_steps (try_catch m h).
Proof.
  intros Hm Hh a. unfold try_catch. specialize (Hm a).
  destruct (m a) as [[x|e] a1]; cbn [snd] in *; [exact Hm |].
  exact (registry_steps_trans _ _ _ Hm (Hh e a1)).
Qed.

Lemma only_steps_with_this {A : Type} (k : MCPToolAdapter -> M A) :
  (forall a, registry_steps (connections a) (connections (snd (k a a)))) ->
  registry_only_steps (bind this k).
Proof. intros H a. exact (H a). Qed.

Lemma only_steps_still {A : Type} (m : M A) :
  (forall a, connections (snd (m a)) = connections a) -> registry_only_steps m.
Proof. intros H a. rewrite H. constructor. Qed.

Lemma only_steps_assign (serverName : string) (f : ConnectionState -> ConnectionState) :
  registry_only_steps (assign serverName f).
Proof.
  intros a. unfold assign.
  destruct (JsMap.get serverName (connections a)); cbn; repeat constructor.
Qed.

Lemma only_steps_disconnect (serverName : string) :
  registry_only_steps (disconnect serverName).
Proof.
  intros a. unfold disconnect. run_monad. cbn.
  destruct (JsMap.get serverName (connections a)); cbn; repeat constructor.
Qed.

Lemma only_steps_establish (cfg : MCPServerConfig) :
  registry_only_steps (establish cfg).
Proof.
  intros a. unfold establish. run_monad. cbn.
  destruct (on_connect (sdk a) (ticks a)); cbn; repeat constructor.
Qed.

Lemma only_steps_connect (cfg : MCPServerConfig) : registry_only_steps (connect cfg).
Proof.
  unfold connect. apply only_steps_bind; [now apply only_steps_still |].
  intros _. apply only_steps_with_this. intros a.
  destruct (JsMap.get (name cfg) (connections a)) as [c|].
  - destruct (connected c); [constructor |].
    apply only_steps_bind; [apply only_steps_disconnect |].
    intros _. apply only_steps_establish.
  - apply only_steps_establish.
Qed.

Lemma only_steps_connectWithRetry_loop (cfg : MCPServerConfig) (remaining : nat) :
  forall attempt delay lastError,
    registry_only_steps (connectWithRetry_loop cfg remaining attempt delay lastError).
Proof.
  induction remaining as [|remaining IH]; intros attempt delay lastError.
  - now apply only_steps_still.
  - cbn [connectWithRetry_loop].
    apply only_steps_try_catch; [apply only_steps_connect |].
    intros e. apply only_steps_with_this. intros a.
    destruct (attempt <? maxRetries (retryConfig a))%nat; [| apply IH].
    apply only_steps_bind; [now apply only_steps_still | intros _; apply IH].
Qed.

Lemma only_steps_callTool (serverName toolName : string) (arguments : Json) :
  registry_only_steps (callTool serverName toolName arguments).
Proof.
  unfold callTool. apply only_steps_bind; [now apply only_steps_still |].
  intros _. apply only_steps_with_this. intros a.
  destruct (JsMap.get serverName (connections a)) as [c|]; [| constructor].
  destruct (negb (connected c)); [constructor |].
  apply only_steps_bind; [now apply only_steps_still |]. intros now.
  apply only_steps_bind; [apply only_steps_assign |]. intros _.
  apply only_steps_bind; [now apply only_steps_still |]. intros r.
  apply only_steps_bind; [now apply only_steps_still |]. intros _.
  destruct (snd r); [| now apply only_steps_still].
  apply only_steps_bind; [apply only_steps_assign |]. intros _.
  now apply only_steps_still.
Qed.

Lemma only_steps_reconnect_if_lost (serverName : string) :
  registry_only_steps (reconnect_if_lost serverName).
Proof.
  unfold reconnect_if_lost. apply only_steps_with_this. intros a.
  destruct (JsMap.get serverName (connections a)) as [c|]; [| constructor].
  destruct (negb (connected c)); [| constructor].
  apply only_steps_try_catch; [apply only_steps_connect |].
  intros _. now apply only_steps_still.
Qed.

Lemma only_steps_callToolWithRetry_loop (serverName toolName : string)
    (arguments : Json) (remaining : nat) :
  forall attempt delay lastError,
    registry_only_steps
      (callToolWithRetry_loop serverName toolName arguments remaining attempt delay
         lastError).
Proof.
  induction remaining as [|remaining IH]; intros attempt delay lastError.
  - now apply only_steps_still.
  - cbn [callToolWithRetry_loop].
    apply only_steps_bind; [apply only_steps_callTool |]. intros result.
    destruct (success result); [now apply only_steps_still |].
    destruct (negb (isRetryableError (error result))); [now apply only_steps_still |].
    apply only_steps_bind; [apply only_steps_reconnect_if_lost |]. intros _.
    apply only_steps_with_this. intros a.
    destruct (attempt <? maxRetries (retryConfig a))%nat; [| apply IH].
    apply only_steps_bind; [now apply only_steps_still | intros _; apply IH].
Qed.

Lemma only_steps_listTools (serverName : string) :
  registry_only_steps (listTools serverName).
Proof.
  unfold listTools. apply only_steps_with_this. intros a.
  destruct (JsMap.get serverName (connections a)) as [c|]; [| constructor].
  destruct (negb (connected c)); [constructor |].
  apply only_steps_bind; [now apply only_steps_still |]. intros now.
  apply only_steps_bind; [apply only_steps_assign |]. intros _.
  apply only_steps_bind; [now apply only_steps_still |]. intros r.
  apply only_steps_bind; [now apply only_steps_still |]. intros _.
  destruct (snd r); now apply only_steps_still.
Qed.

Lemma only_steps_listAllTools_loop (serverNames : list string) :
  forall allTools, registry_only_steps (listAllTools_loop serverNames allTools).
Proof.
  induction serverNames as [|serverName rest IH]; intros allTools.
  - now apply only_steps_still.
  - cbn [listAllTools_loop]. apply only_steps_bind; [apply only_steps_listTools |].
    intros tools. apply IH.
Qed.

Lemma only_steps_disconnect_each (serverNames : list string) :
  registry_only_steps (disconnect_each serverNames).
Proof.
  induction serverNames as [|serverName rest IH].
  - now apply only_steps_still.
  - cbn [disconnect_each]. apply only_steps_bind; [apply only_steps_disconnect |].
    intros _. exact IH.
Qed.

(** Every method changes the registry by sets and deletes only. *)
Lemma run_registry_steps (c : Call) (a : MCPToolAdapter) :
  registry_steps (connections a) (connections (run c a)).
Proof.
  destruct c as [cfg | cfg | s t args | s t args | s | | s |]; cbn [run].
  - apply only_steps_connect.
  - unfold connectWithRetry. apply only_steps_with_this. intros a0.
    apply only_steps_connectWithRetry_loop.
  - apply only_steps_callTool.
  - unfold callToolWithRetry. apply only_steps_with_this. intros a0.
    apply only_steps_callToolWithRetry_loop.
  - apply only_steps_listTools.
  - unfold listAllTools. apply only_steps_with_this. intros a0.
    apply only_steps_listAllTools_loop.
  - apply only_steps_disconnect.
  - unfold disconnectAll. apply only_steps_with_this. intros a0.
    apply only_steps_disconnect_each.
Qed.

Lemma registry_steps_NoDup (m m' : list (string * ConnectionState)) :
  registry_steps m m' -> NoDup (JsMap.keys m) -> NoDup (JsMap.keys m').
Proof.
  induction 1; intros Hnd; auto.
  - now apply NoDup_keys_set, IHregistry_steps.
  - now apply NoDup_keys_delete, IHregistry_steps.
Qed.

Lemma reachable_keys_NoDup (a : MCPToolAdapter) :
  reachable a -> NoDup (JsMap.keys (connections a)).
Proof.
  induction 1 as [world partial | c a _ IH].
  - constructor.
  - exact (registry_steps_NoDup _ _ (run_registry_steps c a) IH).
Qed.

(** ** [callTool] and [listTools] touch bookkeeping only *)

Lemma identities_set (k : string) (c c' : ConnectionState)
    (m : list (string * ConnectionState)) :
  JsMap.get k m = Some c ->
  identity_of (k, c') = identity_of (k, c) ->
  map identity_of (JsMap.set k c' m) = map identity_of m.
Proof.
  intros Hget Hid. induction m as [|[k0 c0] m IH]; [discriminate |].
  cbn in Hget |- *. destruct (String.eqb_spec k k0) as [<- | _].
  - injection Hget as ->. cbn [map]. now rewrite Hid.
  - cbn [map]. now rewrite IH.
Qed.

Lemma identities_isConnected (a a' : MCPToolAdapter) :
  identities a' = identities a ->
  forall serverName, isConnected a' serverName = isConnected a serverName.
Proof.
  unfold identities, isConnected. intros H serverName.
  remember (connections a) as m eqn:E. clear E.
  revert m H. induction (connections a') as [|[k c] m' IH]; intros [|[k0 c0] m] H;
    try discriminate; [reflexivity |].
  cbn in H. injection H as Hk _ _ Hc Hrest. cbn in Hk, Hc. subst k0.
  cbn. destruct (String.eqb serverName k); [exact Hc | now apply IH].
Qed.

Lemma identities_keys (a a' : MCPToolAdapter) :
  identities a' = identities a ->
  JsMap.keys (connections a') = JsMap.keys (connections a).
Proof.
  unfold identities, JsMap.keys. intros H.
  assert (E : forall m : list (string * ConnectionState),
            map fst m = map (fun i => fst (fst (fst i))) (map identity_of m)).
  { intros m. rewrite map_map. reflexivity. }
  now rewrite !E, H.
Qed.

Lemma same_tools (tools : list MCPToolDefinition) :
  map (fun tool =>
         {| tool_name := tool_name tool; description := description tool;
            inputSchema := inputSchema tool |}) tools = tools.
Proof.
  induction tools as [|[n d i] tools IH]; [reflexivity |]. cbn. now rewrite IH.
Qed.

(** X5. [callTool] never throws. It leaves every entry's name, client,
    descriptor and [connected] flag as they were, also when the call
    fails. On a connected server it makes exactly one SDK call, stamps the
    entry's [lastActivity] with the current time whether the call resolves
    or rejects, and returns the SDK's value as a success or the
    rejection's message as a failure. *)
Theorem callTool_outcome
    (serverName toolName : string) (arguments : Json) (a : MCPToolAdapter) :
  let a' := snd (callTool serverName toolName arguments a) in
  let evs := events_since a a' in
  (exists result, fst (callTool serverName toolName arguments a) = Returns result) /\
  identities a' = identities a /\
  (forall other, isConnected a' other = isConnected a other) /\
  (isConnected a serverName = true ->
   tool_calls evs = [on_callTool (sdk a) (ticks a)] /\
   transport_calls evs = 1 /\
   (exists connection,
      JsMap.get serverName (connections a') = Some connection /\
      lastActivity connection = clock a) /\
   fst (callTool serverName toolName arguments a) =
     Returns
       match on_callTool (sdk a) (ticks a) with
       | Resolves value => {| success := true; data := Some value; error := None |}
       | Rejects e => {| success := false; data := None; error := Some (message e) |}
       end).
Proof.
  cbv zeta.
  assert (Hid : identities (snd (callTool serverName toolName arguments a)) = identities a).
  { unfold identities.
    destruct (JsMap.get serverName (connections a)) as [c|] eqn:Hget.
    - destruct (connected c) eqn:Hc.
      + rewrite (callTool_live _ _ _ _ c Hget Hc).
        destruct (on_callTool (sdk a) (ticks a)); cbn;
          now apply (identities_set serverName c).
      + now rewrite (callTool_disconnected _ _ _ _ c Hget Hc).
    - now rewrite (callTool_absent _ _ _ _ Hget). }
  split; [apply callTool_returns |]. split; [exact Hid |].
  split; [now apply identities_isConnected |].
  unfold isConnected. intros Hlive.
  destruct (JsMap.get serverName (connections a)) as [c|] eqn:Hget; [| discriminate].
  rewrite (callTool_live _ _ _ _ c Hget Hlive).
  rewrite (events_since_app a _
             [EvInvoke serverName toolName;
              EvToolCall serverName toolName (on_callTool (sdk a) (ticks a))])
    by (destruct (on_callTool (sdk a) (ticks a)) eqn:E; cbn; now rewrite ?E).
  conjuncts; try reflexivity.
  - destruct (on_callTool (sdk a) (ticks a)); cbn; eexists;
      (split; [apply get_set_same | reflexivity]).
  - now destruct (on_callTool (sdk a) (ticks a)).
Qed.

Lemma callTool_outcome_witness :
  fst (callTool "test-server" "test_tool" "{}"
         (run (CallConnect testConfig)
            (constructor (sdk_calls_fail "Tool call failed") no_overrides))) =
  Returns (failure "Tool call failed").
Proof.
  exact (proj2 (proj2 (proj2 (proj2 (proj2 (proj2
           (callTool_outcome "test-server" "test_tool" "{}"
              (run (CallConnect testConfig)
                 (constructor (sdk_calls_fail "Tool call failed") no_overrides)))))
           eq_refl)))).
Defined.

(** X6. [listTools] never throws. Without a connected entry for the name
    it returns the empty list and leaves the adapter untouched; with one it
    makes exactly one SDK call and returns the remote tools in order, or
    the empty list when that call rejects. Names, clients, descriptors and
    [connected] flags stay as they were. *)
Theorem listTools_outcome (serverName : string) (a : MCPToolAdapter) :
  let a' := snd (listTools serverName a) in
  let evs := events_since a a' in
  identities a' = identities a /\
  (isConnected a serverName = false ->
   listTools serverName a = (Returns [], a)) /\
  (isConnected a serverName = true ->
   transport_calls evs = 1 /\ list_calls evs = 1 /\
   fst (listTools serverName a) =
     Returns match on_listTools (sdk a) (ticks a) with
             | Resolves tools => tools
             | Rejects _ => []
             end).
Proof.
  cbv zeta. unfold isConnected, listTools, identities. run_monad.
  destruct (JsMap.get serverName (connections a)) as [c|] eqn:Hget.
  - destruct (connected c) eqn:Hc; cbn [negb].
    + rewrite Hget. cbn.
      rewrite (events_since_app a _ [EvListTools serverName])
        by (destruct (on_listTools (sdk a) (ticks a)); reflexivity).
      conjuncts; try reflexivity; try discriminate.
      * destruct (on_listTools (sdk a) (ticks a)); cbn;
          now apply (identities_set serverName c).
      * intros _. conjuncts; try reflexivity.
        destruct (on_listTools (sdk a) (ticks a)); cbn; [| reflexivity].
        now rewrite same_tools.
    + conjuncts; try reflexivity; discriminate.
  - conjuncts; try reflexivity; discriminate.
Qed.

Lemma listTools_outcome_witness :
  listTools "non-existent" (constructor sdk_serving no_overrides) =
  (Returns [], constructor sdk_serving no_overrides).
Proof.
  exact (proj1 (proj2 (listTools_outcome "non-existent"
                         (constructor sdk_serving no_overrides))) eq_refl).
Defined.

Lemma list_calls_app (l1 l2 : list Event) :
  list_calls (l1 ++ l2) = list_calls l1 + list_calls l2.
Proof. unfold list_calls. now rewrite filter_app, length_app. Qed.

Lemma listTools_frame (serverName : string) (a : MCPToolAdapter) :
  exists tools evs,
    fst (listTools serverName a) = Returns tools /\
    trace (snd (listTools serverName a)) = trace a ++ evs /\
    identities (snd (listTools serverName a)) = identities a /\
    list_calls evs = (if isConnected a serverName then 1 else 0) /\
    transport_calls evs = list_calls evs.
Proof.
  unfold listTools, isConnected, identities. run_monad.
  destruct (JsMap.get serverName (connections a)) as [c|] eqn:Hget.
  - destruct (connected c) eqn:Hc; cbn [negb].
    + rewrite Hget. cbn.
      destruct (on_listTools (sdk a) (ticks a)); cbn;
        eexists _, [EvListTools serverName];
        (conjuncts; try reflexivity; try now apply (identities_set serverName c)).
    + exists [], []. cbn. rewrite app_nil_r. now conjuncts.
  - exists [], []. cbn. rewrite app_nil_r. now conjuncts.
Qed.

Lemma listAllTools_loop_spec (serverNames : list string) :
  forall allTools a,
    exists result evs,
      fst (listAllTools_loop serverNames allTools a) = Returns result /\
      trace (snd (listAllTools_loop serverNames allTools a)) = trace a ++ evs /\
      identities (snd (listAllTools_loop serverNames allTools a)) = identities a /\
      list_calls evs = List.length (filter (isConnected a) serverNames) /\
      transport_calls evs = list_calls evs /\
      (NoDup (JsMap.keys allTools ++ serverNames) ->
       JsMap.keys result = JsMap.keys allTools ++ serverNames).
Proof.
  induction serverNames as [|serverName rest IH]; intros allTools a.
  - exists allTools, []. cbn. rewrite !app_nil_r. now conjuncts.
  - cbn [listAllTools_loop]. rewrite bind_run.
    destruct (listTools_frame serverName a) as (tools & evs1 & Hret & Htr1 & Hid1 & Hlc1 & Htc1).
    destruct (listTools serverName a) as [r1 a1]. cbn [fst snd] in *. subst r1.
    destruct (IH (JsMap.set serverName tools allTools) a1)
      as (result & evs2 & Hret2 & Htr2 & Hid2 & Hlc2 & Htc2 & Hkeys2).
    exists result, (evs1 ++ evs2).
    rewrite Htr2, Htr1, Hid2, Hid1, list_calls_app, transport_calls_app.
    conjuncts; auto.
    + now rewrite <- app_assoc.
    + rewrite Hlc1, Hlc2. cbn [filter].
      rewrite (filter_ext (isConnected a1) (isConnected a))
        by (intros k; now apply identities_isConnected).
      destruct (isConnected a serverName); reflexivity.
    + intros Hnd.
      assert (Hfresh : JsMap.get serverName allTools = None).
      { apply get_None_keys. intros Hin. apply NoDup_remove_2 in Hnd.
        apply Hnd, in_or_app. now left. }
      rewrite Hkeys2; rewrite (keys_set_absent _ _ _ Hfresh).
      * now rewrite <- app_assoc.
      * now rewrite <- app_assoc.
Qed.

(** X7. [listAllTools] never throws. On an adapter a program can hold, the
    mapping it returns has exactly the registered names as keys, in
    registry order; it makes one SDK call per connected entry and changes
    no name, client, descriptor or [connected] flag. *)
Theorem listAllTools_outcome (a : MCPToolAdapter) :
  reachable a ->
  let a' := snd (listAllTools a) in
  let evs := events_since a a' in
  exists allTools,
    fst (listAllTools a) = Returns allTools /\
    JsMap.keys allTools = JsMap.keys (connections a) /\
    identities a' = identities a /\
    transport_calls evs = List.length (getConnectedServers a) /\
    list_calls evs = List.length (getConnectedServers a).
Proof.
  intros Hreach. cbv zeta. unfold listAllTools. run_monad.
  destruct (listAllTools_loop_spec (JsMap.keys (connections a)) [] a)
    as (result & evs & Hret & Htr & Hid & Hlc & Htc & Hkeys).
  exists result. rewrite (events_since_app _ _ _ Htr).
  assert (Hcount : List.length (filter (isConnected a) (JsMap.keys (connections a))) =
                   List.length (getConnectedServers a)).
  { rewrite (all_connected_filter a (reachable_all_connected a Hreach)).
    f_equal. apply forallb_filter_id. apply forallb_forall. intros k Hk.
    now apply (isConnected_registered a k (reachable_all_connected a Hreach)). }
  conjuncts; auto.
  - apply Hkeys. cbn. now apply reachable_keys_NoDup.
  - lia.
  - lia.
Qed.

Lemma listAllTools_outcome_witness :
  exists allTools,
    fst (listAllTools (run (CallConnect testConfig)
                         (constructor sdk_serving no_overrides))) = Returns allTools /\
    JsMap.keys allTools = ["test-server"].
Proof.
  destruct (listAllTools_outcome
              (run (CallConnect testConfig) (constructor sdk_serving no_overrides))
              (reachable_call _ _ (reachable_new _ _)))
    as (allTools & Hret & Hkeys & _).
  exists allTools. split; [exact Hret | exact Hkeys].
Defined.

(** X8. On an adapter a program can hold, [getConnectionStats] has exactly
    the registered names as keys, in registry order, and gives for each
    name the [connected] flag, [lastActivity] and [retryCount] of its
    entry. *)
Theorem getConnectionStats_snapshot (a : MCPToolAdapter) :
  reachable a ->
  JsMap.keys (getConnectionStats a) = JsMap.keys (connections a) /\
  forall serverName,
    JsMap.get serverName (getConnectionStats a) =
    option_map (fun c => (connected c, lastActivity c, retryCount c))
      (JsMap.get serverName (connections a)).
Proof.
  intros Hreach. unfold getConnectionStats.
  rewrite (fold_set_fresh
             (fun c : ConnectionState => (connected c, lastActivity c, retryCount c))
             (connections a) [])
    by (cbn; now apply reachable_keys_NoDup).
  cbn [app]. split.
  - unfold JsMap.keys. rewrite map_map. reflexivity.
  - intros serverName. induction (connections a) as [|[k c] m IH]; [reflexivity |].
    cbn. destruct (String.eqb serverName k); [reflexivity | exact IH].
Qed.

Lemma getConnectionStats_snapshot_witness :
  JsMap.get "test-server"
    (getConnectionStats
       (run (CallConnect testConfig) (constructor sdk_serving no_overrides))) =
  Some (true, 0%Z, 0%Z).
Proof.
  exact (proj2 (getConnectionStats_snapshot
                  (run (CallConnect testConfig) (constructor sdk_serving no_overrides))
                  (reachable_call _ _ (reachable_new _ _)))
           "test-server").
Defined.

(** ** Retrying until the SDK answers *)

Lemma tool_calls_app (l1 l2 : list Event) :
  tool_calls (l1 ++ l2) = tool_calls l1 ++ tool_calls l2.
Proof. apply pick_app. Qed.

Lemma reconnect_if_lost_connected (serverName : string) (a : MCPToolAdapter) :
  (forall c, JsMap.get serverName (connections a) = Some c -> connected c = true) ->
  reconnect_if_lost serverName a = (Returns tt, a).
Proof.
  intros H. unfold reconnect_if_lost. run_monad.
  destruct (JsMap.get serverName (connections a)) as [c|]; [| reflexivity].
  now rewrite (H c eq_refl).
Qed.

(** One iteration of [callToolWithRetry] whose call is rejected with a
    retryable message, on a connected server. *)
Lemma callToolWithRetry_loop_retry
    (serverName toolName : string) (arguments : Json)
    (remaining attempt : nat) (delay : Z) (lastError : option string)
    (a : MCPToolAdapter) (c : ConnectionState) (e : JsError) :
  JsMap.get serverName (connections a) = Some c ->
  connected c = true ->
  on_callTool (sdk a) (ticks a) = Rejects e ->
  isRetryableError (Some (message e)) = true ->
  callToolWithRetry_loop serverName toolName arguments (S remaining) attempt delay
    lastError a =
  if (attempt <? maxRetries (retryConfig a))%nat then
    callToolWithRetry_loop serverName toolName arguments remaining (S attempt)
      (Z.min (delay * backoffMultiplier (retryConfig a)) (maxDelayMs (retryConfig a)))
      (Some (message e))
      (snd (sleep delay (after_tool_call serverName toolName a c)))
  else
    callToolWithRetry_loop serverName toolName arguments remaining (S attempt) delay
      (Some (message e)) (after_tool_call serverName toolName a c).
Proof.
  intros Hget Hc Hreply Hretry. cbn [callToolWithRetry_loop].
  rewrite bind_run, (callTool_live _ _ _ _ c Hget Hc), Hreply.
  cbn [success error failure]. rewrite Hretry. cbn [negb].
  rewrite bind_run, reconnect_if_lost_connected.
  - unfold bind at 1. unfold this. cbn [retryConfig after_tool_call].
    destruct (attempt <? maxRetries (retryConfig a))%nat; reflexivity.
  - intros c'. cbn. rewrite get_set_same. now intros [= <-].
Qed.

Lemma callToolWithRetry_loop_succeeds
    (serverName toolName : string) (arguments : Json) (value : Json) :
  forall (k remaining attempt : nat) (delay : Z) (lastError : option string)
         (a : MCPToolAdapter),
    attempt + remaining = S (maxRetries (retryConfig a)) ->
    k < remaining ->
    isConnected a serverName = true ->
    retryable_rejections a k ->
    on_callTool (sdk a) (ticks a + k) = Resolves value ->
    exists evs connection,
      fst (callToolWithRetry_loop serverName toolName arguments remaining attempt
             delay lastError a) =
        Returns {| success := true; data := Some value; error := None |} /\
      trace (snd (callToolWithRetry_loop serverName toolName arguments remaining
                    attempt delay lastError a)) = trace a ++ evs /\
      invoke_attempts evs = S k /\
      List.length (tool_calls evs) = S k /\
      transport_calls evs = S k /\
      sleeps evs = backoff_from (retryConfig a) delay k /\
      JsMap.get serverName
        (connections (snd (callToolWithRetry_loop serverName toolName arguments
                             remaining attempt delay lastError a))) =
        Some connection /\
      retryCount connection = 0%Z /\ connected connection = true.
Proof.
  induction k as [|k IH]; intros remaining attempt delay lastError a Hinv Hk Hlive Hrej Hres.
  - destruct remaining as [|remaining]; [lia |].
    unfold isConnected in Hlive.
    destruct (JsMap.get serverName (connections a)) as [c|] eqn:Hget; [| discriminate].
    rewrite Nat.add_0_r in Hres.
    cbn [callToolWithRetry_loop].
    rewrite bind_run, (callTool_live _ _ _ _ c Hget Hlive), Hres. cbn.
    eexists [EvInvoke serverName toolName;
             EvToolCall serverName toolName (Resolves value)], _.
    conjuncts; rewrite ?Hres; try reflexivity.
    + apply get_set_same.
    + reflexivity.
    + exact Hlive.
  - destruct remaining as [|remaining]; [lia |].
    unfold isConnected in Hlive.
    destruct (JsMap.get serverName (connections a)) as [c|] eqn:Hget; [| discriminate].
    destruct (Hrej 0 ltac:(lia)) as (e & He & Hretry).
    rewrite Nat.add_0_r in He.
    rewrite (callToolWithRetry_loop_retry _ _ _ _ _ _ _ _ c e Hget Hlive He Hretry).
    assert (Hlt : (attempt <? maxRetries (retryConfig a))%nat = true)
      by (apply Nat.ltb_lt; lia).
    rewrite Hlt.
    set (a2 := snd (sleep delay (after_tool_call serverName toolName a c))).
    destruct (IH remaining (S attempt)
                (Z.min (delay * backoffMultiplier (retryConfig a))
                       (maxDelayMs (retryConfig a)))
                (Some (message e)) a2)
      as (evs & connection & Hret & Htr & Hinvk & Htc & Htp & Hsl & Hget2 & Hrc & Hcon).
    + cbn. lia.
    + lia.
    + unfold isConnected. cbn. now rewrite get_set_same.
    + intros i Hi. cbn. destruct (Hrej (S i) ltac:(lia)) as (e' & He' & Hr').
      exists e'. split; [| exact Hr'].
      now replace (S (ticks a + i)) with (ticks a + S i) by lia.
    + cbn. now replace (S (ticks a + k)) with (ticks a + S k) by lia.
    + exists ([EvInvoke serverName toolName;
               EvToolCall serverName toolName (on_callTool (sdk a) (ticks a));
               EvSleep delay] ++ evs), connection.
      rewrite Hret, Htr, Hget2.
      rewrite invoke_attempts_app, tool_calls_app, transport_calls_app, sleeps_app,
        length_app, Hinvk, Htc, Htp, Hsl.
      conjuncts; try reflexivity; auto.
      cbn. now rewrite <- !app_assoc.
Qed.

Lemma callToolWithRetry_loop_exhausts
    (serverName toolName : string) (arguments : Json) :
  forall (remaining attempt : nat) (delay : Z) (lastError : option string)
         (a : MCPToolAdapter),
    attempt + remaining = S (maxRetries (retryConfig a)) ->
    0 < remaining ->
    isConnected a serverName = true ->
    retryable_rejections a remaining ->
    exists evs e,
      on_callTool (sdk a) (ticks a + (remaining - 1)) = Rejects e /\
      fst (callToolWithRetry_loop serverName toolName arguments remaining attempt
             delay lastError a) =
        Returns (failure ("Failed after " ++
                          JsString.of_nat (maxRetries (retryConfig a) + 1) ++
                          " attempts: " ++ message e)%string) /\
      trace (snd (callToolWithRetry_loop serverName toolName arguments remaining
                    attempt delay lastError a)) = trace a ++ evs /\
      invoke_attempts evs = remaining /\
      List.length (tool_calls evs) = remaining /\
      transport_calls evs = remaining /\
      sleeps evs = backoff_from (retryConfig a) delay (remaining - 1).
Proof.
  induction remaining as [|remaining IH]; intros attempt delay lastError a Hinv Hpos Hlive Hrej;
    [lia |].
  unfold isConnected in Hlive.
  destruct (JsMap.get serverName (connections a)) as [c|] eqn:Hget; [| discriminate].
  destruct (Hrej 0 ltac:(lia)) as (e & He & Hretry).
  rewrite Nat.add_0_r in He.
  rewrite (callToolWithRetry_loop_retry _ _ _ _ _ _ _ _ c e Hget Hlive He Hretry).
  destruct remaining as [|remaining].
  - assert (Hlt : (attempt <? maxRetries (retryConfig a))%nat = false)
      by (apply Nat.ltb_ge; lia).
    rewrite Hlt. cbn [callToolWithRetry_loop]. run_monad. cbn [fst snd Nat.sub].
    rewrite Nat.add_0_r.
    exists [EvInvoke serverName toolName;
            EvToolCall serverName toolName (on_callTool (sdk a) (ticks a))], e.
    conjuncts; try reflexivity. exact He.
  - assert (Hlt : (attempt <? maxRetries (retryConfig a))%nat = true)
      by (apply Nat.ltb_lt; lia).
    rewrite Hlt.
    set (a2 := snd (sleep delay (after_tool_call serverName toolName a c))).
    destruct (IH (S attempt)
                (Z.min (delay * backoffMultiplier (retryConfig a))
                       (maxDelayMs (retryConfig a)))
                (Some (message e)) a2)
      as (evs & e' & He' & Hret & Htr & Hinvk & Htc & Htp & Hsl).
    + cbn. lia.
    + lia.
    + unfold isConnected. cbn. now rewrite get_set_same.
    + intros i Hi. cbn. destruct (Hrej (S i) ltac:(lia)) as (e0 & He0 & Hr0).
      exists e0. split; [| exact Hr0].
      now replace (S (ticks a + i)) with (ticks a + S i) by lia.
    + exists ([EvInvoke serverName toolName;
               EvToolCall serverName toolName (on_callTool (sdk a) (ticks a));
               EvSleep delay] ++ evs), e'.
      rewrite Hret, Htr.
      rewrite invoke_attempts_app, tool_calls_app, transport_calls_app, sleeps_app,
        length_app, Hinvk, Htc, Htp, Hsl.
      conjuncts; try reflexivity.
      * cbn in He'. rewrite <- He'. f_equal. cbn. lia.
      * cbn. now rewrite <- !app_assoc.
      * cbn. now rewrite Nat.sub_0_r.
Qed.

(** X9. On a connected server, when the next [k] tool calls reject with
    retryable messages and the call after them resolves, with
    [k <= maxRetries], [callToolWithRetry] returns that value as a
    success: it has called the SDK [k + 1] times and nothing else, slept
    the first [k] delays of the backoff recurrence in between, and left
    the entry connected with [retryCount] 0. *)
Theorem callToolWithRetry_succeeds_after_retries
    (serverName toolName : string) (arguments : Json) (k : nat) (value : Json)
    (a : MCPToolAdapter) :
  isConnected a serverName = true ->
  k <= maxRetries (retryConfig a) ->
  retryable_rejections a k ->
  on_callTool (sdk a) (ticks a + k) = Resolves value ->
  let a' := snd (callToolWithRetry serverName toolName arguments a) in
  let evs := events_since a a' in
  fst (callToolWithRetry serverName toolName arguments a) =
    Returns {| success := true; data := Some value; error := None |} /\
  invoke_attempts evs = S k /\
  List.length (tool_calls evs) = S k /\
  transport_calls evs = S k /\
  sleeps evs = backoff_from (retryConfig a) (initialDelayMs (retryConfig a)) k /\
  exists connection,
    JsMap.get serverName (connections a') = Some connection /\
    retryCount connection = 0%Z /\ connected connection = true.
Proof.
  intros Hlive Hk Hrej Hres. cbv zeta. unfold callToolWithRetry. run_monad.
  destruct (callToolWithRetry_loop_succeeds serverName toolName arguments value
              k (S (maxRetries (retryConfig a))) 0 (initialDelayMs (retryConfig a))
              None a eq_refl ltac:(lia) Hlive Hrej Hres)
    as (evs & connection & Hret & Htr & Hinvk & Htc & Htp & Hsl & Hget & Hrc & Hcon).
  rewrite (events_since_app _ _ _ Htr). conjuncts; auto.
  now exists connection.
Qed.

(** X10. On a connected server, when all [maxRetries + 1] tool calls
    reject with retryable messages, [callToolWithRetry] returns the
    failure "Failed after <maxRetries + 1> attempts: " followed by the
    message of the last rejection, after [maxRetries + 1] SDK calls and
    the [maxRetries] sleeps of the backoff recurrence. *)
Theorem callToolWithRetry_exhausts
    (serverName toolName : string) (arguments : Json) (a : MCPToolAdapter) :
  isConnected a serverName = true ->
  retryable_rejections a (S (maxRetries (retryConfig a))) ->
  let a' := snd (callToolWithRetry serverName toolName arguments a) in
  let evs := events_since a a' in
  exists e,
    on_callTool (sdk a) (ticks a + maxRetries (retryConfig a)) = Rejects e /\
    fst (callToolWithRetry serverName toolName arguments a) =
      Returns (failure ("Failed after " ++
                        JsString.of_nat (maxRetries (retryConfig a) + 1) ++
                        " attempts: " ++ message e)%string) /\
    invoke_attempts evs = S (maxRetries (retryConfig a)) /\
    transport_calls evs = S (maxRetries (retryConfig a)) /\
    sleeps evs = backoff (retryConfig a).
Proof.
  intros Hlive Hrej. cbv zeta. unfold callToolWithRetry. run_monad.
  destruct (callToolWithRetry_loop_exhausts serverName toolName arguments
              (S (maxRetries (retryConfig a))) 0 (initialDelayMs (retryConfig a))
              None a eq_refl ltac:(lia) Hlive Hrej)
    as (evs & e & He & Hret & Htr & Hinvk & Htc & Htp & Hsl).
  rewrite (events_since_app _ _ _ Htr). exists e.
  cbn [Nat.sub] in He, Hsl. rewrite Nat.sub_0_r in He, Hsl.
  now conjuncts.
Qed.

(** The unit test "should retry on retryable errors": two ETIMEDOUT
    rejections, then a result. *)
Lemma callToolWithRetry_succeeds_after_retries_witness :
  invoke_attempts
    (events_since
       (run (CallConnect testConfig) (constructor (sdk_flaky 3 "ETIMEDOUT") no_overrides))
       (snd (callToolWithRetry "test-server" "test_tool" "{}"
               (run (CallConnect testConfig)
                  (constructor (sdk_flaky 3 "ETIMEDOUT") no_overrides))))) = 3.
Proof.
  refine (proj1 (proj2
    (callToolWithRetry_succeeds_after_retries "test-server" "test_tool" "{}" 2 "{}"
       (run (CallConnect testConfig) (constructor (sdk_flaky 3 "ETIMEDOUT") no_overrides))
       eq_refl _ _ eq_refl))).
  - cbn. lia.
  - intros i Hi. exists {| message := "ETIMEDOUT" |}.
    destruct i as [|[|i]]; [split; reflexivity | split; reflexivity | lia].
Defined.

Lemma callToolWithRetry_exhausts_witness :
  exists e,
    fst (callToolWithRetry "test-server" "test_tool" "{}"
           (run (CallConnect testConfig)
              (constructor (sdk_calls_fail "ETIMEDOUT") no_overrides))) =
    Returns (failure ("Failed after 4 attempts: " ++ message e)%string).
Proof.
  destruct (callToolWithRetry_exhausts "test-server" "test_tool" "{}"
              (run (CallConnect testConfig)
                 (constructor (sdk_calls_fail "ETIMEDOUT") no_overrides))
              eq_refl)
    as (e & _ & Hret & _).
  - intros i _. exists {| message := "ETIMEDOUT" |}. split; reflexivity.
  - exists e. exact Hret.
Defined.

(** ** Connecting with retries *)

Lemma connectWithRetry_loop_succeeds (cfg : MCPServerConfig) :
  forall (k remaining attempt : nat) (delay : Z) (lastError : option JsError)
         (a : MCPToolAdapter),
    attempt + remaining = S (maxRetries (retryConfig a)) ->
    k < remaining ->
    JsMap.get (name cfg) (connections a) = None ->
    handshake_rejections a k ->
    on_connect (sdk a) (ticks a + k) = Resolves tt ->
    exists evs connection,
      fst (connectWithRetry_loop cfg remaining attempt delay lastError a) = Returns tt /\
      trace (snd (connectWithRetry_loop cfg remaining attempt delay lastError a)) =
        trace a ++ evs /\
      connect_attempts evs = S k /\
      List.length (handshakes evs) = S k /\
      transport_calls evs = S k /\
      sleeps evs = backoff_from (retryConfig a) delay k /\
      JsMap.get (name cfg)
        (connections (snd (connectWithRetry_loop cfg remaining attempt delay lastError a))) =
        Some connection /\
      client connection = ticks a + k /\ config connection = cfg /\
      connected connection = true /\ retryCount connection = 0%Z /\
      JsMap.keys (connections (snd (connectWithRetry_loop cfg remaining attempt delay
                                      lastError a))) =
        JsMap.keys (connections a) ++ [name cfg].
Proof.
  induction k as [|k IH]; intros remaining attempt delay lastError a Hinv Hk Hget Hrej Hres;
    (destruct remaining as [|remaining]; [lia |]);
    cbn [connectWithRetry_loop]; unfold try_catch.
  - rewrite Nat.add_0_r in Hres.
    rewrite (connect_fresh_run cfg a Hget Hres).
    eexists [EvConnect (name cfg); EvHandshake (name cfg) (Resolves tt)], _.
    cbn [fst snd trace with_connections with_trace connections].
    conjuncts; try reflexivity.
    + apply get_set_same.
    + cbn. lia.
    + reflexivity.
    + reflexivity.
    + reflexivity.
    + now apply keys_set_absent.
  - destruct (Hrej 0 ltac:(lia)) as (e & He). rewrite Nat.add_0_r in He.
    rewrite (connect_rejected_run cfg a e Hget He). run_monad.
    cbn [retryConfig after_failed_connect with_trace with_ticks].
    assert (Hlt : (attempt <? maxRetries (retryConfig a))%nat = true)
      by (apply Nat.ltb_lt; lia).
    rewrite Hlt.
    match goal with
    | |- context [connectWithRetry_loop cfg remaining ?n ?d ?l ?s] =>
        set (a2 := s);
        destruct (IH remaining n d l a2)
          as (evs & connection & Hret & Htr & Hca & Hhs & Htp & Hsl & Hget2 & Hcl & Hcf & Hcon & Hrc & Hkeys)
    end.
    + cbn. lia.
    + lia.
    + exact Hget.
    + intros i Hi. cbn. destruct (Hrej (S i) ltac:(lia)) as (e' & He').
      exists e'. now replace (S (ticks a + i)) with (ticks a + S i) by lia.
    + cbn. now replace (S (ticks a + k)) with (ticks a + S k) by lia.
    + exists ([EvConnect (name cfg);
               EvHandshake (name cfg) (on_connect (sdk a) (ticks a));
               EvSleep delay] ++ evs), connection.
      rewrite Hret, Htr, Hget2, Hkeys.
      rewrite connect_attempts_app, handshakes_app, transport_calls_app, sleeps_app,
        length_app, Hca, Hhs, Htp, Hsl.
      conjuncts; try reflexivity; auto.
      * cbn. now rewrite <- !app_assoc.
      * rewrite Hcl. cbn. lia.
Qed.

(** X11. For a name that is not registered, when the next [k] handshakes
    reject and the one after them resolves, with [k <= maxRetries],
    [connectWithRetry] returns: it has made [k + 1] handshakes and no
    other SDK call, slept the first [k] delays of the backoff recurrence
    in between, and registered the descriptor last in iteration order, as
    connected with [retryCount] 0. *)
Theorem connectWithRetry_succeeds_after_retries
    (cfg : MCPServerConfig) (k : nat) (a : MCPToolAdapter) :
  JsMap.get (name cfg) (connections a) = None ->
  k <= maxRetries (retryConfig a) ->
  handshake_rejections a k ->
  on_connect (sdk a) (ticks a + k) = Resolves tt ->
  let a' := snd (connectWithRetry cfg a) in
  let evs := events_since a a' in
  fst (connectWithRetry cfg a) = Returns tt /\
  connect_attempts evs = S k /\
  List.length (handshakes evs) = S k /\
  transport_calls evs = S k /\
  sleeps evs = backoff_from (retryConfig a) (initialDelayMs (retryConfig a)) k /\
  isConnected a' (name cfg) = true /\
  JsMap.keys (connections a') = JsMap.keys (connections a) ++ [name cfg] /\
  exists connection,
    JsMap.get (name cfg) (connections a') = Some connection /\
    client connection = ticks a + k /\ config connection = cfg /\
    retryCount connection = 0%Z.
Proof.
  intros Hget Hk Hrej Hres. cbv zeta. unfold connectWithRetry. run_monad.
  destruct (connectWithRetry_loop_succeeds cfg k (S (maxRetries (retryConfig a))) 0
              (initialDelayMs (retryConfig a)) None a eq_refl ltac:(lia) Hget Hrej Hres)
    as (evs & connection & Hret & Htr & Hca & Hhs & Htp & Hsl & Hget2 & Hcl & Hcf & Hcon & Hrc & Hkeys).
  rewrite (events_since_app _ _ _ Htr). conjuncts; auto.
  - unfold isConnected. now rewrite Hget2.
  - now exists connection.
Qed.

(** The unit test "should retry on connection failure": two rejected
    handshakes, then a connection. *)
Lemma connectWithRetry_succeeds_after_retries_witness :
  List.length
    (handshakes
       (events_since (constructor (sdk_slow_start 2 "Connection failed") no_overrides)
          (snd (connectWithRetry testConfig
                  (constructor (sdk_slow_start 2 "Connection failed") no_overrides))))) =
  3.
Proof.
  refine (proj1 (proj2 (proj2
    (connectWithRetry_succeeds_after_retries testConfig 2
       (constructor (sdk_slow_start 2 "Connection failed") no_overrides)
       eq_refl _ _ eq_refl)))).
  - cbn. lia.
  - intros i Hi. exists {| message := "Connection failed" |}.
    destruct i as [|[|i]]; [reflexivity | reflexivity | lia].
Defined.

(** ** [callToolWithRetry] as seen by its callers *)

Lemma callTool_identities (serverName toolName : string) (arguments : Json)
    (a : MCPToolAdapter) :
  identities (snd (callTool serverName toolName arguments a)) = identities a.
Proof.
  unfold identities.
  destruct (JsMap.get serverName (connections a)) as [c|] eqn:Hget.
  - destruct (connected c) eqn:Hc.
    + rewrite (callTool_live _ _ _ _ c Hget Hc).
      destruct (on_callTool (sdk a) (ticks a)); cbn;
        now apply (identities_set serverName c).
    + now rewrite (callTool_disconnected _ _ _ _ c Hget Hc).
  - now rewrite (callTool_absent _ _ _ _ Hget).
Qed.

Lemma callTool_events (serverName toolName : string) (arguments : Json)
    (a : MCPToolAdapter) :
  exists evs,
    trace (snd (callTool serverName toolName arguments a)) = trace a ++ evs /\
    connect_attempts evs = 0 /\ handshakes evs = [] /\ closes evs = 0 /\
    transport_calls evs = List.length (tool_calls evs).
Proof.
  destruct (JsMap.get serverName (connections a)) as [c|] eqn:Hget.
  - destruct (connected c) eqn:Hc.
    + rewrite (callTool_live _ _ _ _ c Hget Hc).
      exists [EvInvoke serverName toolName;
              EvToolCall serverName toolName (on_callTool (sdk a) (ticks a))].
      destruct (on_callTool (sdk a) (ticks a)) eqn:E; cbn; rewrite ?E; now conjuncts.
    + rewrite (callTool_disconnected _ _ _ _ c Hget Hc).
      exists [EvInvoke serverName toolName]. now conjuncts.
  - rewrite (callTool_absent _ _ _ _ Hget).
    exists [EvInvoke serverName toolName]. now conjuncts.
Qed.

Lemma callToolWithRetry_loop_returns (serverName toolName : string) (arguments : Json) :
  forall (remaining attempt : nat) (delay : Z) (lastError : option string)
         (a : MCPToolAdapter),
    exists result,
      fst (callToolWithRetry_loop serverName toolName arguments remaining attempt
             delay lastError a) = Returns result.
Proof.
  induction remaining as [|remaining IH]; intros attempt delay lastError a.
  - cbn. eauto.
  - cbn [callToolWithRetry_loop]. rewrite bind_run.
    destruct (callTool_returns serverName toolName arguments a) as (result & Hres).
    destruct (callTool serverName toolName arguments a) as [r1 a1].
    cbn [fst] in Hres. subst r1.
    destruct (success result); [cbn; eauto |].
    destruct (negb (isRetryableError (error result))); [cbn; eauto |].
    rewrite bind_run.
    destruct (reconnect_if_lost_frame serverName a1) as (evs & Hret & _).
    destruct (reconnect_if_lost serverName a1) as [r2 a2]. cbn [fst] in Hret. subst r2.
    run_monad. destruct (attempt <? maxRetries (retryConfig a2))%nat; apply IH.
Qed.

Lemma callToolWithRetry_loop_quiet (serverName toolName : string) (arguments : Json) :
  forall (remaining attempt : nat) (delay : Z) (lastError : option string)
         (a : MCPToolAdapter),
    all_connected a ->
    identities (snd (callToolWithRetry_loop serverName toolName arguments remaining
                       attempt delay lastError a)) = identities a /\
    exists evs,
      trace (snd (callToolWithRetry_loop serverName toolName arguments remaining
                    attempt delay lastError a)) = trace a ++ evs /\
      connect_attempts evs = 0 /\ handshakes evs = [] /\ closes evs = 0 /\
      transport_calls evs = List.length (tool_calls evs).
Proof.
  induction remaining as [|remaining IH]; intros attempt delay lastError a Hall.
  - cbn. split; [reflexivity |]. exists []. rewrite app_nil_r. now conjuncts.
  - cbn [callToolWithRetry_loop]. rewrite bind_run.
    pose proof (callTool_identities serverName toolName arguments a) as Hid1.
    pose proof (callTool_all_connected serverName toolName arguments a Hall) as Hall1.
    destruct (callTool_events serverName toolName arguments a)
      as (evs1 & Htr1 & Hca1 & Hhs1 & Hcl1 & Htp1).
    destruct (callTool_returns serverName toolName arguments a) as (result & Hres).
    destruct (callTool serverName toolName arguments a) as [r1 a1].
    cbn [fst snd] in *. subst r1.
    assert (Hstop : identities a1 = identities a /\
              exists evs, trace a1 = trace a ++ evs /\
                connect_attempts evs = 0 /\ handshakes evs = [] /\ closes evs = 0 /\
                transport_calls evs = List.length (tool_calls evs))
      by (split; [exact Hid1 | now exists evs1]).
    destruct (success result); [exact Hstop |].
    destruct (negb (isRetryableError (error result))); [exact Hstop |].
    clear Hstop. rewrite bind_run, reconnect_if_lost_connected
      by (intros c Hc; exact (all_connected_get _ _ _ Hall1 Hc)).
    run_monad.
    assert (Hgo : forall d (a2 : MCPToolAdapter) (extra : list Event),
              connections a2 = connections a1 ->
              trace a2 = trace a1 ++ extra ->
              connect_attempts extra = 0 -> handshakes extra = [] -> closes extra = 0 ->
              transport_calls extra = 0 -> tool_calls extra = [] ->
              identities (snd (callToolWithRetry_loop serverName toolName arguments
                                 remaining (S attempt) d (error result) a2)) =
                identities a /\
              exists evs,
                trace (snd (callToolWithRetry_loop serverName toolName arguments
                              remaining (S attempt) d (error result) a2)) =
                  trace a ++ evs /\
                connect_attempts evs = 0 /\ handshakes evs = [] /\ closes evs = 0 /\
                transport_calls evs = List.length (tool_calls evs)).
    { intros d a2 extra Hco Htr Hca Hhs Hcl Htp Htc.
      destruct (IH (S attempt) d (error result) a2) as (Hid & evs & Htr2 & Hca2 & Hhs2 & Hcl2 & Htp2).
      - unfold all_connected. now rewrite Hco.
      - split.
        + rewrite Hid. unfold identities. now rewrite Hco.
        + exists (evs1 ++ extra ++ evs).
          rewrite Htr2, Htr, Htr1.
          rewrite !connect_attempts_app, !handshakes_app, !closes_app,
            !transport_calls_app, !tool_calls_app, !length_app.
          rewrite Hca1, Hca, Hca2, Hhs1, Hhs, Hhs2, Hcl1, Hcl, Hcl2, Htp1, Htp, Htp2, Htc.
          conjuncts; try reflexivity. now rewrite <- !app_assoc. }
    destruct (attempt <? maxRetries (retryConfig a1))%nat.
    + apply (Hgo _ _ [EvSleep delay]); reflexivity.
    + apply (Hgo _ _ []); try reflexivity. cbn. now rewrite app_nil_r.
Qed.

(** X12. [callToolWithRetry] never throws: its caller always gets a
    result value. It calls [callTool] at least once and at most
    [maxRetries + 1] times. On an adapter a program can hold it never
    starts a [connect], makes no handshake and no close (its only SDK
    interactions are tool calls), and leaves every entry's name, client,
    descriptor and [connected] flag as they were. *)
Theorem callToolWithRetry_contract
    (serverName toolName : string) (arguments : Json) (a : MCPToolAdapter) :
  let a' := snd (callToolWithRetry serverName toolName arguments a) in
  let evs := events_since a a' in
  (exists result,
     fst (callToolWithRetry serverName toolName arguments a) = Returns result) /\
  1 <= invoke_attempts evs <= maxRetries (retryConfig a) + 1 /\
  (reachable a ->
   identities a' = identities a /\
   connect_attempts evs = 0 /\ handshakes evs = [] /\ closes evs = 0 /\
   transport_calls evs = List.length (tool_calls evs)).
Proof.
  cbv zeta. unfold callToolWithRetry. run_monad. conjuncts.
  - apply callToolWithRetry_loop_returns.
  - destruct (callToolWithRetry_loop_spec serverName toolName arguments
                (S (maxRetries (retryConfig a))) 0 (initialDelayMs (retryConfig a))
                None a eq_refl)
      as (evs & Htr & _ & Hle & Hpos & _).
    rewrite (events_since_app _ _ _ Htr). specialize (Hpos ltac:(lia)). lia.
  - destruct (callToolWithRetry_loop_spec serverName toolName arguments
                (S (maxRetries (retryConfig a))) 0 (initialDelayMs (retryConfig a))
                None a eq_refl)
      as (evs & Htr & _ & Hle & Hpos & _).
    rewrite (events_since_app _ _ _ Htr). lia.
  - intros Hreach.
    destruct (callToolWithRetry_loop_quiet serverName toolName arguments
                (S (maxRetries (retryConfig a))) 0 (initialDelayMs (retryConfig a))
                None a (reachable_all_connected a Hreach))
      as (Hid & evs & Htr & Hrest).
    rewrite (events_since_app _ _ _ Htr). split; [exact Hid | exact Hrest].
Qed.

Lemma callToolWithRetry_contract_witness :
  handshakes
    (events_since
       (run (CallConnect testConfig) (constructor (sdk_calls_fail "ETIMEDOUT") no_overrides))
       (snd (callToolWithRetry "test-server" "test_tool" "{}"
               (run (CallConnect testConfig)
                  (constructor (sdk_calls_fail "ETIMEDOUT") no_overrides))))) = [].
Proof.
  exact (proj1 (proj2 (proj2 (proj2 (proj2
           (callToolWithRetry_contract "test-server" "test_tool" "{}"
              (run (CallConnect testConfig)
                 (constructor (sdk_calls_fail "ETIMEDOUT") no_overrides))))
           (reachable_call _ _ (reachable_new _ _)))))).
Defined.

(** ** The classifier on wrapped messages *)

Section Wrapped.
Local Open Scope string_scope.

Lemma mentions_wrapped (w msg pre post : string) :
  mentions w msg -> mentions w (pre ++ msg ++ post).
Proof.
  intros (u & x & v & -> & Hx). exists (pre ++ u), x, (v ++ post). split; [| exact Hx].
  now rewrite !append_assoc.
Qed.

Lemma mentions_then_wrapped (w1 w2 msg pre post : string) :
  mentions_then w1 w2 msg -> mentions_then w1 w2 (pre ++ msg ++ post).
Proof.
  intros (u & x & mid & y & v & -> & H).
  exists (pre ++ u), x, mid, y, (v ++ post). split; [| exact H].
  now rewrite !append_assoc.
Qed.

Lemma retryable_text_wrapped (msg pre post : string) :
  retryable_text msg -> retryable_text (pre ++ msg ++ post).
Proof.
  unfold retryable_text.
  intros [H | [H | [H | [H | [H | [H | H]]]]]];
    [ left | right; left | do 2 right; left | do 3 right; left
    | do 4 right; left | do 5 right; left | do 6 right ];
    first [ now apply mentions_wrapped | now apply mentions_then_wrapped ].
Qed.

Lemma isRetryableError_text (msg : string) :
  isRetryableError (Some msg) = true <-> retryable_text msg.
Proof.
  destruct msg as [|c msg].
  - split; [discriminate | intros H; now apply retryable_text_nonempty in H].
  - unfold isRetryableError. apply retryable_text_test.
Qed.

(** X13. A message that contains a retryable message is retryable:
    whatever text is put before and after. In particular the message
    [callToolWithRetry] returns after its last attempt, "Failed after N
    attempts: " followed by a retryable message, is retryable again. *)
Theorem isRetryableError_wrapped (msg pre post : string) :
  isRetryableError (Some msg) = true ->
  isRetryableError (Some (pre ++ msg ++ post)) = true /\
  forall n : nat,
    isRetryableError
      (Some ("Failed after " ++ JsString.of_nat n ++ " attempts: " ++ msg)) = true.
Proof.
  intros H. apply isRetryableError_text in H. split.
  - now apply isRetryableError_text, retryable_text_wrapped.
  - intros n. apply isRetryableError_text.
    replace ("Failed after " ++ JsString.of_nat n ++ " attempts: " ++ msg)
      with (("Failed after " ++ JsString.of_nat n ++ " attempts: ") ++ msg ++ "")
      by (now rewrite !append_assoc, append_empty_r).
    now apply retryable_text_wrapped.
Qed.

Lemma isRetryableError_wrapped_witness :
  isRetryableError (Some ("read " ++ "ECONNRESET" ++ " from socket")) = true.
Proof.
  exact (proj1 (isRetryableError_wrapped "ECONNRESET" "read " " from socket" eq_refl)).
Defined.

End Wrapped.

(** ** Callers: the GitHub error parser *)

Section StatusFacts.
Import StatusPattern.
Local Open Scope string_scope.

Lemma digit_not_separator (c : ascii) : is_digit c = true -> is_separator c = false.
Proof.
  destruct c as [[] [] [] [] [] [] [] []]; try discriminate; reflexivity.
Qed.

Lemma digit_value_bound (c : ascii) : is_digit c = true -> (digit_value c <= 9)%nat.
Proof.
  destruct c as [[] [] [] [] [] [] [] []]; try discriminate; intros _; cbn; lia.
Qed.

Lemma skip_separators_spec (seps rest : string) (c : ascii) :
  all_separators seps = true -> is_separator c = false ->
  skip_separators (seps ++ String c rest) = String c rest.
Proof.
  intros Hs Hc. induction seps as [|s seps IH].
  - change ("" ++ String c rest) with (String c rest). cbn. now rewrite Hc.
  - cbn [all_separators] in Hs. apply andb_true_iff in Hs as [Hs1 Hs].
    change (String s seps ++ String c rest) with (String s (seps ++ String c rest)).
    cbn [skip_separators]. rewrite Hs1. now apply IH.
Qed.

Lemma skip_separators_split (s : string) :
  exists seps, all_separators seps = true /\ s = seps ++ skip_separators s.
Proof.
  induction s as [|c s (seps & Hseps & Hs)].
  - now exists "".
  - cbn [skip_separators]. destruct (is_separator c) eqn:Hc.
    + exists (String c seps). cbn [all_separators]. rewrite Hc, Hseps.
      split; [reflexivity |].
      change (String c seps ++ skip_separators s) with (String c (seps ++ skip_separators s)).
      now rewrite <- Hs.
    + now exists "".
Qed.

Lemma three_digits_spec (s : string) (n : nat) :
  three_digits s = Some n <->
  exists d1 d2 d3 post,
    s = String d1 (String d2 (String d3 post)) /\
    is_digit d1 = true /\ is_digit d2 = true /\ is_digit d3 = true /\
    n = (100 * digit_value d1 + 10 * digit_value d2 + digit_value d3)%nat.
Proof.
  split.
  - destruct s as [|d1 [|d2 [|d3 post]]]; try discriminate. unfold three_digits.
    destruct (is_digit d1) eqn:H1; [| discriminate].
    destruct (is_digit d2) eqn:H2; [| discriminate].
    destruct (is_digit d3) eqn:H3; [| discriminate].
    intros [= <-]. now exists d1, d2, d3, post.
  - intros (d1 & d2 & d3 & post & -> & H1 & H2 & H3 & ->).
    unfold three_digits. now rewrite H1, H2, H3.
Qed.

Lemma match_here_status (s : string) (n : nat) :
  match_here s = Some n <-> status_after "" s n.
Proof.
  unfold match_here, status_after. split.
  - destruct (JsString.starts_with_ci "status" s) eqn:Hstart; [| discriminate].
    apply starts_with_ci_spec in Hstart as (word & rest & -> & Hword).
    pose proof (drop_append word rest) as Hdrop.
    rewrite (same_ci_length _ _ Hword) in Hdrop. cbn [String.length] in Hdrop.
    rewrite Hdrop. clear Hdrop. destruct rest as [|c rest]; [discriminate |].
    destruct (is_separator c) eqn:Hc; [| discriminate].
    intros H. apply three_digits_spec in H as (d1 & d2 & d3 & post & Hs & H1 & H2 & H3 & ->).
    destruct (skip_separators_split rest) as (seps & Hseps & Hrest).
    exists word, (String c seps), d1, d2, d3, post.
    conjuncts; auto; try discriminate.
    + change ("" ++ word ++ String c rest = "" ++ word ++ String c seps ++ String d1 (String d2 (String d3 post))).
      change (String c seps ++ String d1 (String d2 (String d3 post)))
        with (String c (seps ++ String d1 (String d2 (String d3 post)))).
      now rewrite Hrest at 1; rewrite Hs.
    + cbn [all_separators]. now rewrite Hc, Hseps.
  - intros (word & seps & d1 & d2 & d3 & post & -> & Hword & Hne & Hseps & H1 & H2 & H3 & ->).
    change ("" ++ word ++ seps ++ String d1 (String d2 (String d3 post)))
      with (word ++ seps ++ String d1 (String d2 (String d3 post))).
    assert (Hstart : JsString.starts_with_ci "status"
                       (word ++ seps ++ String d1 (String d2 (String d3 post))) = true)
      by (apply starts_with_ci_spec; eauto).
    rewrite Hstart.
    pose proof (drop_append word (seps ++ String d1 (String d2 (String d3 post))))
      as Hdrop.
    rewrite (same_ci_length _ _ Hword) in Hdrop. cbn [String.length] in Hdrop.
    rewrite Hdrop. clear Hdrop. destruct seps as [|c seps]; [contradiction |].
    cbn [all_separators] in Hseps. apply andb_true_iff in Hseps as [Hc Hseps].
    change (String c seps ++ String d1 (String d2 (String d3 post)))
      with (String c (seps ++ String d1 (String d2 (String d3 post)))).
    cbv beta iota.
    rewrite Hc, skip_separators_spec by (auto using digit_not_separator).
    apply three_digits_spec. now exists d1, d2, d3, post.
Qed.

Lemma status_after_cons (c : ascii) (pre s : string) (n : nat) :
  status_after pre s n <-> status_after (String c pre) (String c s) n.
Proof.
  unfold status_after. split.
  - intros (word & seps & d1 & d2 & d3 & post & -> & H).
    now exists word, seps, d1, d2, d3, post.
  - intros (word & seps & d1 & d2 & d3 & post & Hs & H).
    change (String c pre ++ word ++ seps ++ String d1 (String d2 (String d3 post)))
      with (String c (pre ++ word ++ seps ++ String d1 (String d2 (String d3 post)))) in Hs.
    injection Hs as ->. now exists word, seps, d1, d2, d3, post.
Qed.

Lemma status_after_head (c c' : ascii) (pre s : string) (n : nat) :
  status_after (String c' pre) (String c s) n -> c' = c.
Proof.
  intros (word & seps & d1 & d2 & d3 & post & Hs & _).
  change (String c' pre ++ word ++ seps ++ String d1 (String d2 (String d3 post)))
    with (String c' (pre ++ word ++ seps ++ String d1 (String d2 (String d3 post)))) in Hs.
  now injection Hs.
Qed.

Lemma status_after_empty (pre : string) (n : nat) : ~ status_after pre "" n.
Proof.
  intros (word & seps & d1 & d2 & d3 & post & Hs & _). symmetry in Hs.
  apply append_is_empty in Hs as [_ Hs]. apply append_is_empty in Hs as [_ Hs].
  apply append_is_empty in Hs as [_ Hs]. discriminate.
Qed.

Lemma exec_status (msg : string) (n : nat) :
  exec msg = Some n <->
  exists pre,
    status_after pre msg n /\
    forall pre' n', status_after pre' msg n' -> String.length pre <= String.length pre'.
Proof.
  revert n. induction msg as [|c msg IH]; intros n.
  - cbn. split; [discriminate |]. intros (pre & H & _). now apply status_after_empty in H.
  - cbn [exec]. destruct (match_here (String c msg)) as [m|] eqn:Hm.
    + apply match_here_status in Hm. split.
      * intros [= <-]. exists "". split; [exact Hm |]. intros; cbn; lia.
      * intros (pre & Hpre & Hleft). specialize (Hleft "" m Hm).
        destruct pre; [| cbn in Hleft; lia].
        apply match_here_status in Hpre, Hm. congruence.
    + assert (Hnone : forall n', ~ status_after "" (String c msg) n').
      { intros n' H. apply match_here_status in H. congruence. }
      rewrite IH. split.
      * intros (pre & Hpre & Hleft). exists (String c pre).
        split; [now apply status_after_cons |].
        intros [|c' pre'] n' H'; [now apply Hnone in H' |].
        pose proof (status_after_head _ _ _ _ _ H') as ->.
        apply status_after_cons in H'. apply Hleft in H'. cbn. lia.
      * intros ([|c' pre] & Hpre & Hleft); [now apply Hnone in Hpre |].
        pose proof (status_after_head _ _ _ _ _ Hpre) as ->.
        exists pre. split; [now apply status_after_cons in Hpre |].
        intros pre' n' H'. apply (status_after_cons c) in H'.
        apply Hleft in H'. cbn in H'. lia.
Qed.

End StatusFacts.

(** X14. [parseGitHubError] keeps the failure message, or says "Unknown
    GitHub API error" when there is none, so the message of the error is
    never empty. Its [statusCode] is the three-digit number of the first
    place in the message where "status" (in any letter case) is followed
    by colons or white space and three digits, and is absent when there is
    no such place; it is at most 999. The error counts as rate limited
    exactly when that number is 403 and the message also says "rate
    limit": a rate-limit message without "status 403" does not. *)
Theorem parseGitHubError_status (result : MCPToolResult) :
  let e := parseGitHubError result in
  let msg := github_error_message result in
  GitHubAPIError.message e = msg /\
  msg <> ""%string /\
  (forall m, error result = Some m -> m <> ""%string -> msg = m) /\
  (forall n,
     GitHubAPIError.statusCode e = Some n <->
     exists pre,
       status_after pre msg n /\
       forall pre' n', status_after pre' msg n' ->
                       String.length pre <= String.length pre') /\
  (forall n, GitHubAPIError.statusCode e = Some n -> n <= 999) /\
  (GitHubAPIError.isRateLimited e = true <->
   GitHubAPIError.statusCode e = Some 403 /\
   JsString.includes "rate limit" (toLowerCase msg) = true).
Proof.
  cbv zeta. conjuncts.
  - reflexivity.
  - unfold github_error_message. destruct (error result) as [[|c m]|]; discriminate.
  - intros m Hm Hne. unfold github_error_message. rewrite Hm.
    destruct m; [contradiction | reflexivity].
  - intros n. apply exec_status.
  - intros n Hn. apply exec_status in Hn as (pre & H & _).
    destruct H as (word & seps & d1 & d2 & d3 & post & _ & _ & _ & _ & H1 & H2 & H3 & ->).
    pose proof (digit_value_bound d1 H1). pose proof (digit_value_bound d2 H2).
    pose proof (digit_value_bound d3 H3). lia.
  - unfold GitHubAPIError.isRateLimited, GitHubAPIError.equals, parseGitHubError.
    cbn [GitHubAPIError.statusCode GitHubAPIError.rateLimitRemaining].
    fold (github_error_message result).
    destruct (StatusPattern.exec (github_error_message result)) as [n|];
      destruct (JsString.includes "rate limit" (toLowerCase (github_error_message result)));
      cbn; rewrite ?andb_true_r, ?andb_false_r;
      try (split; [discriminate | intros [? ?]; discriminate]).
    rewrite Nat.eqb_eq. split; [intros ->; auto | intros [[= ->] _]; reflexivity].
Qed.

Lemma parseGitHubError_status_witness :
  exists pre, status_after pre "Request failed, status: 404" 404.
Proof.
  destruct (proj1 (proj1 (proj2 (proj2 (proj2
              (parseGitHubError_status (failure "Request failed, status: 404")))))
              404) eq_refl) as (pre & H & _).
  exists pre. exact H.
Defined.

(** ** Callers: one call through [callToolWithRetry] *)

Lemma callToolWithRetry_unregistered_run
    (serverName toolName : string) (arguments : Json) (a : MCPToolAdapter) :
  JsMap.get serverName (connections a) = None ->
  isRetryableError (Some serverName) = false ->
  callToolWithRetry serverName toolName arguments a =
  (Returns (failure (not_connected_message serverName)),
   with_trace (trace a ++ [EvInvoke serverName toolName]) a).
Proof.
  intros Hget Hname.
  apply callToolWithRetry_first_failure;
    [exact (callTool_absent serverName toolName arguments a Hget) | reflexivity |].
  cbn [error failure].
  change ("Server " ++ serverName ++ " not connected")%string
    with (not_connected_message serverName).
  now rewrite isRetryableError_not_connected_message.
Qed.

Lemma callToolWithRetry_resolves_run
    (serverName toolName : string) (arguments : Json) (a : MCPToolAdapter)
    (value : Json) :
  isConnected a serverName = true ->
  on_callTool (sdk a) (ticks a) = Resolves value ->
  fst (callToolWithRetry serverName toolName arguments a) =
    Returns {| success := true; data := Some value; error := None |} /\
  transport_calls
    (events_since a (snd (callToolWithRetry serverName toolName arguments a))) = 1 /\
  sleeps
    (events_since a (snd (callToolWithRetry serverName toolName arguments a))) = [].
Proof.
  intros Hlive Hres. unfold callToolWithRetry. run_monad.
  destruct (callToolWithRetry_loop_succeeds serverName toolName arguments value
              0 (S (maxRetries (retryConfig a))) 0 (initialDelayMs (retryConfig a))
              None a eq_refl ltac:(lia) Hlive)
    as (evs & connection & Hret & Htr & _ & _ & Htp & Hsl & _).
  - intros i Hi. lia.
  - now rewrite Nat.add_0_r.
  - rewrite (events_since_app _ _ _ Htr). auto.
Qed.

Lemma callToolWithRetry_fatal_run
    (serverName toolName : string) (arguments : Json) (a : MCPToolAdapter)
    (e : JsError) :
  isConnected a serverName = true ->
  on_callTool (sdk a) (ticks a) = Rejects e ->
  isRetryableError (Some (message e)) = false ->
  fst (callToolWithRetry serverName toolName arguments a) =
    Returns (failure (message e)) /\
  transport_calls
    (events_since a (snd (callToolWithRetry serverName toolName arguments a))) = 1 /\
  sleeps
    (events_since a (snd (callToolWithRetry serverName toolName arguments a))) = [].
Proof.
  unfold isConnected. intros Hlive Hrej Hfatal.
  destruct (JsMap.get serverName (connections a)) as [c|] eqn:Hget; [| discriminate].
  pose proof (callTool_live serverName toolName arguments a c Hget Hlive) as Hcall.
  rewrite Hrej in Hcall.
  rewrite (callToolWithRetry_first_failure _ _ _ _ _ _ Hcall eq_refl Hfatal).
  cbn [fst snd].
  rewrite (events_since_app a _
             [EvInvoke serverName toolName;
              EvToolCall serverName toolName (on_callTool (sdk a) (ticks a))])
    by reflexivity.
  now conjuncts.
Qed.

Lemma callToolWithRetry_returns
    (serverName toolName : string) (arguments : Json) (a : MCPToolAdapter) :
  exists result,
    fst (callToolWithRetry serverName toolName arguments a) = Returns result.
Proof.
  unfold callToolWithRetry. run_monad. apply callToolWithRetry_loop_returns.
Qed.

(** X15. Each of the seventeen GitHub wrappers ends with the data of a
    successful result or by throwing a [GitHubAPIError]; nothing else
    comes out of it. When no server named "github" is registered it
    throws "Server github not connected", without status code, after one
    [callTool] and no SDK call. On a connected server, a tool call that
    resolves gives its value back, and one that rejects with a message
    that is not retryable throws the parsed error with that message; both
    after exactly one SDK call and without sleeping. *)
Theorem github_tool_outcome (toolName : string) (payload : Json) (mcp : MCPToolAdapter) :
  let evs := events_since mcp (snd (github_tool toolName payload mcp)) in
  (forall e, fst (github_tool toolName payload mcp) <> GitHubRethrows e) /\
  (JsMap.get GITHUB_MCP_SERVER (connections mcp) = None ->
   github_tool toolName payload mcp =
     (GitHubThrows
        {| GitHubAPIError.message := "Server github not connected";
           GitHubAPIError.statusCode := None;
           GitHubAPIError.rateLimitRemaining := None;
           GitHubAPIError.rateLimitReset := None |},
      with_trace (trace mcp ++ [EvInvoke GITHUB_MCP_SERVER toolName]) mcp)) /\
  (isConnected mcp GITHUB_MCP_SERVER = true ->
   (forall value,
      on_callTool (sdk mcp) (ticks mcp) = Resolves value ->
      fst (github_tool toolName payload mcp) = GitHubReturns (Some value) /\
      transport_calls evs = 1 /\ sleeps evs = []) /\
   (forall e,
      on_callTool (sdk mcp) (ticks mcp) = Rejects e ->
      isRetryableError (Some (message e)) = false ->
      fst (github_tool toolName payload mcp) =
        GitHubThrows (parseGitHubError (failure (message e))) /\
      transport_calls evs = 1 /\ sleeps evs = [])).
Proof.
  cbv zeta. unfold github_tool. conjuncts.
  - intros e.
    destruct (callToolWithRetry_returns GITHUB_MCP_SERVER toolName payload mcp)
      as (result & Hret).
    destruct (callToolWithRetry GITHUB_MCP_SERVER toolName payload mcp) as [r mcp'].
    cbn [fst] in Hret. subst r. destruct (negb (success result)); discriminate.
  - intros Hget.
    now rewrite (callToolWithRetry_unregistered_run GITHUB_MCP_SERVER toolName payload
                   mcp Hget eq_refl).
  - intros Hlive. split.
    + intros value Hres.
      destruct (callToolWithRetry_resolves_run GITHUB_MCP_SERVER toolName payload mcp
                  value Hlive Hres) as (Hret & Htp & Hsl).
      destruct (callToolWithRetry GITHUB_MCP_SERVER toolName payload mcp) as [r mcp'].
      cbn [fst snd] in *. subst r. cbn. auto.
    + intros e Hrej Hfatal.
      destruct (callToolWithRetry_fatal_run GITHUB_MCP_SERVER toolName payload mcp
                  e Hlive Hrej Hfatal) as (Hret & Htp & Hsl).
      destruct (callToolWithRetry GITHUB_MCP_SERVER toolName payload mcp) as [r mcp'].
      cbn [fst snd] in *. subst r. cbn. auto.
Qed.

Lemma github_tool_outcome_witness :
  fst (createGitHubIssue "{}" (constructor sdk_serving no_overrides)) =
  GitHubThrows
    {| GitHubAPIError.message := "Server github not connected";
       GitHubAPIError.statusCode := None;
       GitHubAPIError.rateLimitRemaining := None;
       GitHubAPIError.rateLimitReset := None |}.
Proof.
  exact (f_equal fst
           (proj1 (proj2 (github_tool_outcome "create_issue" "{}"
                            (constructor sdk_serving no_overrides))) eq_refl)).
Defined.

(** X16. [postMessage] ends with the data of a successful result or by
    throwing "Failed to post Slack message: " followed by the failure
    message of [callToolWithRetry], and leaves the adapter as
    [callToolWithRetry] left it. When no server named "slack" is
    registered, it and [addReaction] throw at once, naming "Server slack
    not connected", without an SDK call; on a connected server a tool call
    that resolves gives its value back. *)
Theorem postMessage_outcome (options : Json) (a : MCPToolAdapter) :
  (exists result,
     callToolWithRetry SLACK_MCP_SERVER "slack_post_message" options a =
       (Returns result, snd (postMessage options a)) /\
     fst (postMessage options a) =
       if success result then Returns (data result)
       else Throws {| message := ("Failed to post Slack message: " ++
                                  undefined_or (error result))%string |}) /\
  (JsMap.get SLACK_MCP_SERVER (connections a) = None ->
   postMessage options a =
     (Throws {| message :=
        "Failed to post Slack message: Server slack not connected" |},
      with_trace (trace a ++ [EvInvoke SLACK_MCP_SERVER "slack_post_message"]) a) /\
   forall channel timestamp emoji,
     addReaction channel timestamp emoji a =
       (Throws {| message := "Failed to add reaction: Server slack not connected" |},
        with_trace (trace a ++ [EvInvoke SLACK_MCP_SERVER "slack_add_reaction"]) a)) /\
  (isConnected a SLACK_MCP_SERVER = true ->
   forall value,
     on_callTool (sdk a) (ticks a) = Resolves value ->
     fst (postMessage options a) = Returns (Some value)).
Proof.
  conjuncts.
  - destruct (callToolWithRetry_returns SLACK_MCP_SERVER "slack_post_message" options a)
      as (result & Hret).
    exists result. unfold postMessage. rewrite bind_run.
    destruct (callToolWithRetry SLACK_MCP_SERVER "slack_post_message" options a)
      as [r a1]. cbn [fst] in Hret. subst r.
    destruct (success result); cbn; auto.
  - intros Hget. split.
    + unfold postMessage. rewrite bind_run.
      now rewrite (callToolWithRetry_unregistered_run SLACK_MCP_SERVER _ options a
                     Hget eq_refl).
    + intros channel timestamp emoji. unfold addReaction. rewrite bind_run.
      now rewrite (callToolWithRetry_unregistered_run SLACK_MCP_SERVER _ _ a Hget eq_refl).
  - intros Hlive value Hres. unfold postMessage. rewrite bind_run.
    destruct (callToolWithRetry_resolves_run SLACK_MCP_SERVER "slack_post_message"
                options a value Hlive Hres) as (Hret & _).
    destruct (callToolWithRetry SLACK_MCP_SERVER "slack_post_message" options a)
      as [r a1]. cbn [fst] in Hret. now subst r.
Qed.

Lemma postMessage_outcome_witness :
  fst (postMessage "{}" (constructor sdk_serving no_overrides)) =
  Throws {| message := "Failed to post Slack message: Server slack not connected" |}.
Proof.
  exact (f_equal fst
           (proj1 (proj1 (proj2 (postMessage_outcome "{}"
                                   (constructor sdk_serving no_overrides))) eq_refl))).
Defined.

(** ** Callers: the browser service *)

Section ResolveUrl.
Import JsString.
Local Open Scope string_scope.

Lemma starts_with_prefix (p b u : string) :
  starts_with p b = true -> starts_with p (b ++ u) = true.
Proof.
  revert b; induction p as [|c p IH]; intros b; [reflexivity |].
  destruct b as [|c' b]; [discriminate |].
  change (String c' b ++ u) with (String c' (b ++ u)). cbn [starts_with].
  intros H. apply andb_true_iff in H as [Hc H]. rewrite Hc. now apply IH.
Qed.

Lemma absolute_prefix (b u : string) : absolute b = true -> absolute (b ++ u) = true.
Proof.
  unfold absolute. intros H. apply orb_true_iff in H as [H | H];
    apply orb_true_iff; [left | right]; now apply starts_with_prefix.
Qed.

End ResolveUrl.

(** X17. [resolveUrl] returns an absolute URL (one that starts with
    "http://" or "https://") as it is, and puts the configured base URL,
    if any, before every other one. Resolving twice is resolving once
    when the base URL is itself absolute or absent. When no server named
    "puppeteer" is registered, [navigate] throws at once "Failed to
    navigate to <resolved URL>: Server puppeteer not connected" and
    [click] "Failed to click <selector>: Server puppeteer not connected",
    without an SDK call. *)
Theorem browser_navigation (baseUrl : option string) (url : string)
    (a : MCPToolAdapter) :
  (absolute url = true -> resolveUrl baseUrl url = url) /\
  (absolute url = false ->
   resolveUrl baseUrl url =
   (match baseUrl with Some b => b | None => "" end ++ url)%string) /\
  (match baseUrl with Some b => absolute b = true | None => True end ->
   resolveUrl baseUrl (resolveUrl baseUrl url) = resolveUrl baseUrl url) /\
  (JsMap.get PUPPETEER_MCP_SERVER (connections a) = None ->
   navigate baseUrl url a =
     (Throws {| message := ("Failed to navigate to " ++ resolveUrl baseUrl url ++
                            ": Server puppeteer not connected")%string |},
      with_trace (trace a ++ [EvInvoke PUPPETEER_MCP_SERVER "puppeteer_navigate"]) a) /\
   forall selector,
     click selector a =
       (Throws {| message := ("Failed to click " ++ selector ++
                              ": Server puppeteer not connected")%string |},
        with_trace (trace a ++ [EvInvoke PUPPETEER_MCP_SERVER "puppeteer_click"]) a)) /\
  (isConnected a PUPPETEER_MCP_SERVER = true ->
   forall value,
     on_callTool (sdk a) (ticks a) = Resolves value ->
     fst (navigate baseUrl url a) = Returns tt).
Proof.
  assert (Habs : forall u, absolute u = true -> resolveUrl baseUrl u = u).
  { intros u Hu. unfold resolveUrl. unfold absolute in Hu. now rewrite Hu. }
  assert (Hrel : forall u, absolute u = false ->
            resolveUrl baseUrl u =
            (match baseUrl with Some b => b | None => "" end ++ u)%string).
  { intros u Hu. unfold resolveUrl. unfold absolute in Hu. now rewrite Hu. }
  conjuncts.
  - apply Habs.
  - apply Hrel.
  - intros Hbase. destruct (absolute url) eqn:Hu.
    + now rewrite !(Habs url Hu).
    + rewrite (Hrel url Hu). destruct baseUrl as [b|].
      * apply Habs. now apply absolute_prefix.
      * change (("" ++ url)%string) with url. now apply Hrel.
  - intros Hget. split.
    + unfold navigate. cbv zeta. rewrite bind_run.
      now rewrite (callToolWithRetry_unregistered_run PUPPETEER_MCP_SERVER _ _ a
                     Hget eq_refl).
    + intros selector. unfold click. rewrite bind_run.
      now rewrite (callToolWithRetry_unregistered_run PUPPETEER_MCP_SERVER _ _ a
                     Hget eq_refl).
  - intros Hlive value Hres. unfold navigate. cbv zeta. rewrite bind_run.
    destruct (callToolWithRetry_resolves_run PUPPETEER_MCP_SERVER "puppeteer_navigate"
                (object_of [("url", resolveUrl baseUrl url)]) a value Hlive Hres)
      as (Hret & _).
    destruct (callToolWithRetry PUPPETEER_MCP_SERVER "puppeteer_navigate"
                (object_of [("url", resolveUrl baseUrl url)]) a) as [r a1].
    cbn [fst] in Hret. now subst r.
Qed.

Lemma browser_navigation_witness :
  resolveUrl (Some "https://example.com") (resolveUrl (Some "https://example.com") "/login") =
  "https://example.com/login".
Proof.
  exact (proj1 (proj2 (proj2 (browser_navigation (Some "https://example.com") "/login"
                                 (constructor sdk_serving no_overrides))))
           eq_refl).
Defined.

(** ** How [connect], [disconnect] and [connectWithRetry] compose *)

Lemma delete_set_fresh {V : Type} (k : string) (v : V) (m : list (string * V)) :
  JsMap.get k m = None -> JsMap.delete k (JsMap.set k v m) = m.
Proof.
  induction m as [|[k' v'] m IH]; cbn.
  - now rewrite String.eqb_refl.
  - destruct (String.eqb k k') eqn:E; [discriminate |]. intros H.
    cbn. rewrite E. now rewrite IH.
Qed.

(** X18. Connecting a name that is not registered and then disconnecting
    it gives back the registry there was, whatever [close] answers: one
    handshake and one close were made. *)
Theorem connect_disconnect_round_trip (cfg : MCPServerConfig) (a : MCPToolAdapter) :
  JsMap.get (name cfg) (connections a) = None ->
  on_connect (sdk a) (ticks a) = Resolves tt ->
  let a' := snd (disconnect (name cfg) (snd (connect cfg a))) in
  connections a' = connections a /\
  events_since a a' =
    [EvConnect (name cfg); EvHandshake (name cfg) (Resolves tt);
     EvClose (name cfg) (on_close (sdk a) (S (ticks a)))].
Proof.
  intros Hget Hreply. cbv zeta. rewrite (connect_fresh_run cfg a Hget Hreply).
  cbn [snd]. unfold disconnect. run_monad. cbn. rewrite get_set_same. cbn.
  split.
  - now apply delete_set_fresh.
  - apply events_since_app. now rewrite <- app_assoc.
Qed.

Lemma connect_disconnect_round_trip_witness :
  connections
    (snd (disconnect "test-server"
            (snd (connect testConfig (constructor sdk_serving no_overrides))))) = [].
Proof.
  exact (proj1 (connect_disconnect_round_trip testConfig
                  (constructor sdk_serving no_overrides) eq_refl eq_refl)).
Defined.


Lemma connect_returns_connected (cfg : MCPServerConfig) (a : MCPToolAdapter) :
  fst (connect cfg a) = Returns tt ->
  isConnected (snd (connect cfg a)) (name cfg) = true.
Proof.
  unfold isConnected, connect, establish, disconnect. run_monad. simpl.
  destruct (JsMap.get (name cfg) (connections a)) as [existing|] eqn:Hget; simpl.
  - destruct (connected existing) eqn:Hc; simpl.
    + intros _. now rewrite Hget.
    + rewrite Hget. simpl.
      destruct (on_connect (sdk a) (S (ticks a))) as [[]|e]; simpl;
        [| discriminate].
      intros _. now rewrite get_set_same.
  - destruct (on_connect (sdk a) (ticks a)) as [[]|e]; simpl; [| discriminate].
    intros _. now rewrite get_set_same.
Qed.

Lemma connectWithRetry_loop_postcondition (cfg : MCPServerConfig) :
  forall (remaining attempt : nat) (delay : Z) (lastError : option JsError)
         (a : MCPToolAdapter),
    all_connected a ->
    match fst (connectWithRetry_loop cfg remaining attempt delay lastError a) with
    | Returns _ =>
        isConnected (snd (connectWithRetry_loop cfg remaining attempt delay lastError a))
          (name cfg) = true
    | Throws _ =>
        connections (snd (connectWithRetry_loop cfg remaining attempt delay lastError a)) =
          connections a /\
        (0 < remaining -> JsMap.get (name cfg) (connections a) = None)
    end.
Proof.
  induction remaining as [|remaining IH]; intros attempt delay lastError a Hall.
  - cbn [connectWithRetry_loop]. run_monad. cbn [fst snd]. split; [reflexivity | lia].
  - cbn [connectWithRetry_loop]. unfold try_catch.
    pose proof (connect_returns_connected cfg a) as Hok.
    destruct (connect_frame cfg a)
      as (evs1 & _ & Hcfg1 & _ & _ & _ & _ & Hall1 & Hfail1).
    specialize (Hall1 Hall). specialize (Hfail1 Hall).
    destruct (connect cfg a) as [[[]|e1] a1] eqn:Hconnect; cbn [fst snd] in *.
    + now apply Hok.
    + destruct (Hfail1 e1 eq_refl) as (Hsame & Habsent & _).
      run_monad.
      destruct (attempt <? maxRetries (retryConfig a1))%nat.
      * match goal with
        | |- context [connectWithRetry_loop cfg remaining ?n ?d ?l ?s] =>
            remember s as a2 eqn:Ha2
        end.
        assert (Hco : connections a2 = connections a1) by now rewrite Ha2.
        assert (Hall2 : all_connected a2)
          by (unfold all_connected; now rewrite Hco).
        match goal with
        | |- context [connectWithRetry_loop cfg remaining ?n ?d ?l a2] =>
            specialize (IH n d l a2 Hall2)
        end.
        destruct (fst (connectWithRetry_loop cfg remaining _ _ _ a2)).
        -- unfold isConnected in *. exact IH.
        -- destruct IH as [IH _]. split; [congruence | auto].
      * specialize (IH (S attempt) delay (Some e1) a1 Hall1).
        destruct (fst (connectWithRetry_loop cfg remaining _ _ _ a1)).
        -- exact IH.
        -- destruct IH as [IH _]. split; [congruence | auto].
Qed.

(** X19. On an adapter whose entries are all connected (every reachable
    one), [connectWithRetry] either returns with the server connected, or
    throws with the registry exactly as it was and the server not in it:
    exhausted retries leave no entry behind. *)
Theorem connectWithRetry_postcondition (cfg : MCPServerConfig) (a : MCPToolAdapter) :
  all_connected a ->
  let a' := snd (connectWithRetry cfg a) in
  match fst (connectWithRetry cfg a) with
  | Returns _ => isConnected a' (name cfg) = true
  | Throws _ =>
      connections a' = connections a /\
      isConnected a' (name cfg) = false /\
      JsMap.get (name cfg) (connections a) = None
  end.
Proof.
  intros Hall. cbv zeta. unfold connectWithRetry. run_monad.
  pose proof (connectWithRetry_loop_postcondition cfg (S (maxRetries (retryConfig a))) 0
                (initialDelayMs (retryConfig a)) None a Hall) as H.
  destruct (fst (connectWithRetry_loop cfg _ _ _ _ a)); [exact H |].
  destruct H as [Hsame Habsent]. specialize (Habsent (Nat.lt_0_succ _)).
  split; [exact Hsame |]. split; [| exact Habsent].
  unfold isConnected. now rewrite Hsame, Habsent.
Qed.

Lemma connectWithRetry_postcondition_witness :
  connections
    (snd (connectWithRetry testConfig
            (constructor (sdk_refusing "ECONNREFUSED") no_overrides))) = [].
Proof.
  exact (proj1 (connectWithRetry_postcondition testConfig
                  (constructor (sdk_refusing "ECONNREFUSED") no_overrides)
                  (Forall_nil _))).
Defined.
